(** * Group-Free-3D training driver (train_dist.py): a shallow embedding

    The driver glues a detector, its loss and an optimiser together.  What the
    driver itself decides is control flow: the early-stopping counter, which
    checkpoints are written and when, the epoch loop and its early exit, the
    list of prediction heads that are evaluated, and the validation loss that
    steers early stopping.  Those parts are embedded here.

    Conventions of the embedding.
    - Python [int] is [Z]; [a % b] is [py_mod], which raises on [b = 0].
    - Python [float] is [pyfloat]: rationals extended with the two
      infinities and NaN.  The sum and the quotient inside [np.average]
      round to binary64; the driver's own negation, comparisons and the one
      addition [best_score + delta] are taken on the values as they are.
    - Exceptions are the [Raise] case of [result].  Nothing in the driver
      catches an exception; a raise keeps the outside world (disk and log)
      as it was at that point and drops the in-memory objects.
    - The files written by [torch.save] and [pickle.dump] form a finite map
      from paths to contents.  Every write, and every [logger.info] and
      [print] line, is also appended to a chronological trace (the logger is
      an external collaborator, so its sink is kept apart from the files).
    - The detector, the loss, the optimiser and the scheduler are a type
      class [Collab] of opaque state and functions; the data loaders are
      lists of batches.  The metric dictionaries, whose keys come from the
      loss, are not modelled beyond the files they are pickled to. *)

From Stdlib Require Import QArith Qcanon Ascii String.
From stdpp Require Import base numbers strings pretty list gmap.

Open Scope Z_scope.

(** ** Exceptions and fallible computations *)

Inductive exn : Type :=
  | ZeroDivisionError
  | NameError (name : string)
  | TypeError
  | AssertionError
  | FileNotFoundError (p : string).

(** A computation over a world [W] returns a value or raises, leaving the
    world it had reached. *)
Inductive result (W A : Type) : Type :=
  | Ok (a : A)
  | Raise (e : exn) (w : W).
Arguments Ok {W A} a.
Arguments Raise {W A} e w.

Global Instance result_ret {W} : MRet (result W) := λ A a, Ok a.
Global Instance result_bind {W} : MBind (result W) := λ A B f m,
  match m with
  | Ok a => f a
  | Raise e w => Raise e w
  end.

(** ** Python numbers *)

(** [a % b] on Python integers: floored remainder, [ZeroDivisionError] when
    the divisor is zero. *)
Definition py_mod {W} (w : W) (a b : Z) : result W Z :=
  if bool_decide (b = 0) then Raise ZeroDivisionError w else Ok (a `mod` b).

(** [range(a, b)] *)
Definition py_range (a b : Z) : list Z := seqZ a (b - a).

Inductive pyfloat : Type :=
  | FNaN
  | FInf (negative : bool)
  | FNum (q : Qc).

Definition fzero : pyfloat := FNum (Qc_of_Z 0).
Definition np_Inf : pyfloat := FInf false.

Definition fneg (x : pyfloat) : pyfloat :=
  match x with
  | FNaN => FNaN
  | FInf s => FInf (negb s)
  | FNum q => FNum (- q)%Qc
  end.

Definition fadd (x y : pyfloat) : pyfloat :=
  match x, y with
  | FNaN, _ | _, FNaN => FNaN
  | FInf s, FInf t => if Bool.eqb s t then FInf s else FNaN
  | FInf s, FNum _ | FNum _, FInf s => FInf s
  | FNum p, FNum q => FNum (p + q)%Qc
  end.

(** [x < y]; every comparison with NaN is false. *)
Definition fltb (x y : pyfloat) : bool :=
  match x, y with
  | FNaN, _ | _, FNaN => false
  | FInf s, FInf t => s && negb t
  | FInf s, FNum _ => s
  | FNum _, FInf t => negb t
  | FNum p, FNum q => bool_decide (p < q)%Qc
  end.

(** [x <= y] *)
Definition fleb (x y : pyfloat) : bool :=
  match x, y with
  | FNaN, _ | _, FNaN => false
  | FInf s, FInf t => s || negb t
  | FInf s, FNum _ => s
  | FNum _, FInf t => negb t
  | FNum p, FNum q => bool_decide (p ≤ q)%Qc
  end.

(** [x > y] and [x >= y] are the mirrored tests, as in Python. *)
Definition fgtb (x y : pyfloat) : bool := fltb y x.
Definition fgeb (x y : pyfloat) : bool := fleb y x.

(** *** Rounding to binary64

    NumPy is a library outside the repository; what [np.average] does to a
    Python list of floats is modelled as NumPy computes it on a contiguous
    array of doubles: every addition and the final division round to the
    nearest binary64 value, ties to the even one, and overflow to an
    infinity.  The sign of a zero is not kept. *)

(** [floor (log2 (n / d))] for positive [n] and [d]. *)
Definition floor_log2 (n d : positive) : Z :=
  let k := Z.log2 (Z.pos n) - Z.log2 (Z.pos d) in
  if bool_decide (Z.pos d * 2 ^ Z.max k 0 ≤ Z.pos n * 2 ^ Z.max (- k) 0)
  then k else k - 1.

(** The integer nearest to [n / d], the even one on a tie ([d > 0]). *)
Definition round_half_even (n d : Z) : Z :=
  let q := n `div` d in
  match 2 * (n `mod` d) ?= d with
  | Lt => q
  | Gt => q + 1
  | Eq => if Z.even q then q else q + 1
  end.

(** The binary64 value nearest to the positive rational [n / d], taken with
    the sign [neg]: a multiple [m * 2 ^ e] of the spacing [2 ^ e] at that
    magnitude, with [m <= 2 ^ 53] and [e >= -1074] (subnormal numbers), and
    an infinity from [2 ^ 1024] on. *)
Definition round_pos (neg : bool) (n d : positive) : pyfloat :=
  let e := Z.max (floor_log2 n d - 52) (-1074) in
  let m := round_half_even (Z.pos n * 2 ^ Z.max (- e) 0)
                           (Z.pos d * 2 ^ Z.max e 0) in
  if bool_decide (2 ^ 1024 * 2 ^ Z.max (- e) 0 ≤ m * 2 ^ Z.max e 0)
  then FInf neg
  else FNum (Q2Qc ((if neg then - m else m) * 2 ^ Z.max e 0
                   # Z.to_pos (2 ^ Z.max (- e) 0))).

Definition round64 (x : Q) : pyfloat :=
  match Qnum x with
  | 0 => fzero
  | Z.pos n => round_pos false n (Qden x)
  | Z.neg n => round_pos true n (Qden x)
  end.

(** The sum of two doubles, as a double. *)
Definition fadd64 (x y : pyfloat) : pyfloat :=
  match fadd x y with
  | FNum q => round64 q
  | r => r
  end.

(** A double divided by a positive count, as a double. *)
Definition fdiv_count (x : pyfloat) (n : nat) : pyfloat :=
  match x with
  | FNum q => round64 (q / Qc_of_Z (Z.of_nat n))%Qc
  | _ => x
  end.

(** *** NumPy's summation

    [add.reduce] over a contiguous array ([pairwise_sum] in NumPy's inner
    loops): fewer than 8 elements are added one after the other; up to 128
    elements are added into 8 interleaved accumulators, which are then
    combined two by two before the leftover elements are added; a longer
    array is cut in two, the first part a multiple of 8 long, and the sums of
    the parts are added.  The addition is a parameter. *)
Section Pairwise.
Context {A : Type} (add : A → A → A) (zero : A).

(** The loop over the blocks of 8 that follow the first one; the result is
    the accumulators and the elements left over. *)
Fixpoint acc8 (r xs : list A) : list A * list A :=
  match xs with
  | x0 :: x1 :: x2 :: x3 :: x4 :: x5 :: x6 :: x7 :: rest =>
      acc8 (zip_with add r [x0; x1; x2; x3; x4; x5; x6; x7]) rest
  | _ => (r, xs)
  end.

Definition tree8 (r : list A) : A :=
  match r with
  | [r0; r1; r2; r3; r4; r5; r6; r7] =>
      add (add (add r0 r1) (add r2 r3)) (add (add r4 r5) (add r6 r7))
  | _ => zero
  end.

(** [fuel] bounds the depth of the halving; the length of the array is
    enough. *)
Fixpoint pairwise_sum (fuel : nat) (a : list A) : A :=
  let n := length a in
  if bool_decide (n < 8)%nat then foldl add zero a
  else if bool_decide (n ≤ 128)%nat then
    let '(r, rest) := acc8 (take 8 a) (drop 8 a) in
    foldl add (tree8 r) rest
  else
    match fuel with
    | O => zero
    | S fuel =>
        let n2 := (n / 2)%nat in
        let n2 := (n2 - n2 `mod` 8)%nat in
        add (pairwise_sum fuel (take n2 a)) (pairwise_sum fuel (drop n2 a))
    end.

End Pairwise.

(** [np.add.reduce(l)] on doubles: the reduction starts from the identity
    of the addition. *)
Definition np_sum (l : list pyfloat) : pyfloat :=
  fadd64 fzero (pairwise_sum fadd64 fzero (length l) l).

(** [np.average(l)] of a Python list of floats, without weights: the sum
    divided by the number of elements; NaN (with a warning) on the empty
    list. *)
Definition np_average (l : list pyfloat) : pyfloat :=
  match l with
  | [] => FNaN
  | _ => fdiv_count (np_sum l) (length l)
  end.

(** The arithmetic mean of a list of rationals, as a formula. *)
Definition arithmetic_mean (qs : list Qc) : Qc :=
  (foldr Qcplus (Qc_of_Z 0) qs / Qc_of_Z (Z.of_nat (length qs)))%Qc.

(** The sum of a list of integers. *)
Definition sumZ (zs : list Z) : Z := foldr Z.add 0 zs.

(** ** Paths *)

Fixpoint ends_with_sep (s : string) : bool :=
  match s with
  | EmptyString => false
  | String c EmptyString => bool_decide (c = "/"%char)
  | String _ s' => ends_with_sep s'
  end.

(** [os.path.join(a, b)] on a POSIX system. *)
Definition path_join (a b : string) : string :=
  if String.prefix "/" b then b
  else if bool_decide (a = "") || ends_with_sep a then a +:+ b
  else a +:+ "/" +:+ b.

(** ** Command-line arguments (the fields the driver's control flow reads) *)

Record args : Type := Args {
  num_decoder_layers : Z;
  start_epoch : Z;
  max_epoch : Z;
  clip_norm : pyfloat;
  checkpoint_path : option string;
  log_dir : string;
  print_freq : Z;
  save_freq : Z;
  val_freq : Z;
  train_eval_freq : Z;
  ap_iou_thresholds : list pyfloat;
}.

Definition set_start_epoch (e : Z) (a : args) : args :=
  Args (num_decoder_layers a) e (max_epoch a) (clip_norm a)
       (checkpoint_path a) (log_dir a) (print_freq a) (save_freq a)
       (val_freq a) (train_eval_freq a) (ap_iou_thresholds a).

(** The [epoch] argument of [save_checkpoint]: an integer from the epoch
    loop, or the string ['last'] passed after the loop. *)
Inductive epoch_id : Type :=
  | EpochNum (n : Z)
  | EpochLast.

(** [f'{epoch}'] *)
Definition epoch_str (e : epoch_id) : string :=
  match e with
  | EpochNum n => pretty n
  | EpochLast => "last"
  end.

(** [epoch % k]: on the string ['last'] the operator is string formatting,
    which rejects the unused argument. *)
Definition epoch_mod {W} (w : W) (e : epoch_id) (k : Z) : result W Z :=
  match e with
  | EpochNum n => py_mod w n k
  | EpochLast => Raise TypeError w
  end.

Definition ckpt_name (e : epoch_id) : string :=
  "ckpt_epoch_" +:+ epoch_str e +:+ ".pth".

(** ** External collaborators *)

(** The detector, the loss, the optimiser and the scheduler live outside the
    driver.  The driver sees them through these operations:
    - [batch_loss m b]: the forward pass on batch [b] followed by the
      criterion, read back with [loss.item()];
    - [clip_grad_norm_ m b c]: the total gradient norm returned by
      [torch.nn.utils.clip_grad_norm_] with maximal norm [c];
    - [optim_step clip b m o s]: [loss.backward()], the clipping when [clip]
      is [Some c], [optimizer.step()] and [scheduler.step()]. *)
Class Collab : Type := {
  Batch : Type;
  ModelState : Type;
  OptimState : Type;
  SchedState : Type;
  batch_loss : ModelState → Batch → pyfloat;
  clip_grad_norm_ : ModelState → Batch → pyfloat → pyfloat;
  optim_step : option pyfloat → Batch → ModelState → OptimState → SchedState →
               ModelState * OptimState * SchedState;
}.

(** A small concrete collaborator, used to run the driver on examples: a
    batch is an integer, the model state counts the optimiser steps taken,
    and the loss of a batch grows with that count. *)
Definition toy : Collab := {|
  Batch := Z;
  ModelState := Z;
  OptimState := Z;
  SchedState := Z;
  batch_loss := λ m b, FNum (Qc_of_Z (b + m));
  clip_grad_norm_ := λ _ _ c, c;
  optim_step := λ _ _ m o s, (m + 1, o + 1, s + 1);
|}.

Section Driver.
Context `{C : Collab}.

(** The three stateful objects handed around by the driver, each identified
    with its [state_dict()]. *)
Record learner : Type := Learner {
  model : ModelState;
  optimizer : OptimState;
  scheduler : SchedState;
}.

(** The dictionary written by [torch.save]. *)
Record checkpoint : Type := Checkpoint {
  ck_config : args;
  ck_save_path : string;
  ck_model : ModelState;
  ck_optimizer : OptimState;
  ck_scheduler : SchedState;
  ck_epoch : epoch_id;
}.

Inductive pickled : Type :=
  | TrainLossDict
  | TrainMetricsDict
  | ValMetricsDict.

Inductive file : Type :=
  | CkptFile (c : checkpoint)
  | PickleFile (d : pickled).

(** What the outside world sees, in order: the files written ([Wrote]) and
    the lines sent to the logger or printed.  A group of lines that always
    come together is one event: [LogTrainStats] stands for the statistics
    printed by [train_one_epoch] at a validation epoch, [LogEvalProgress]
    for those printed every [print_freq] batches of an evaluation, [LogAP]
    for the block printed per prefix and IoU threshold, [LogEpoch] for the
    line 'epoch ..., total time ...' that follows each training pass.  The
    banner lines at the start of [main] are left out. *)
Inductive event : Type :=
  | Wrote (p : string)
  | LogSaving
  | LogSavedIn (p : string)
  | PrintNotSaving
  | LogValLossDecreased (old new : pyfloat)
  | LogSavingModel
  | PrintCounter (counter patience : Z)
  | LogLoading (p : option string)
  | LogLoaded (p : string) (e : epoch_id)
  | LogTrainStats (epoch : Z)
  | LogEpoch (epoch : Z)
  | PrintPickled (p : string)
  | LogEvalProgress (batches : Z)
  | LogAP (prefix : string) (iou_thresh : pyfloat)
  | LogValidationLoss (v : pyfloat)
  | LogEarlyStopping.

Record io : Type := IO {
  fs : gmap string file;
  trace : list event;
}.

Definition emit (ev : event) (w : io) : io := IO (fs w) (trace w ++ [ev]).
Definition write_file (p : string) (f : file) (w : io) : io :=
  IO (<[p := f]> (fs w)) (trace w ++ [Wrote p]).

(** The paths written, read off a trace. *)
Definition writes (tr : list event) : list string :=
  omap (λ ev, match ev with Wrote p => Some p | _ => None end) tr.

(** The epochs whose training pass completed, read off a trace: [main] logs
    one [LogEpoch] line right after each return of [train_one_epoch]. *)
Definition trained_epochs (tr : list event) : list Z :=
  omap (λ ev, match ev with LogEpoch e => Some e | _ => None end) tr.

(** [w'] extends [w] by events none of which is a [LogEpoch] line. *)
Definition quiet (w w' : io) : Prop :=
  ∃ tr, trace w' = trace w ++ tr ∧ trained_epochs tr = [].

(** The world a computation leaves behind, whether it returned or raised. *)
Definition world_after {A} (r : result io (A * io)) : io :=
  match r with
  | Ok (_, w) => w
  | Raise _ w => w
  end.

(** ** Checkpoints *)

Definition ckpt_path (a : args) (epoch : epoch_id) : string :=
  path_join (log_dir a) (ckpt_name epoch).

Definition save_checkpoint (a : args) (epoch : epoch_id) (l : learner)
    (save_cur : bool) (w : io) : result io (unit * io) :=
  let w := emit LogSaving w in
  let state := Checkpoint a "" (model l) (optimizer l) (scheduler l) epoch in
  cond ← (if save_cur then Ok true
          else r ← epoch_mod w epoch (save_freq a); Ok (bool_decide (r = 0)));
  if (cond : bool) then
    let p := ckpt_path a epoch in
    let state := Checkpoint a p (model l) (optimizer l) (scheduler l) epoch in
    Ok ((), emit (LogSavedIn p) (write_file p (CkptFile state) w))
  else
    Ok ((), emit PrintNotSaving w).

(** The dictionary that [save_checkpoint] hands to [torch.save] when it
    saves, and the world after that branch; both are read off the branch, for
    use in statements. *)
Definition saved_state (a : args) (epoch : epoch_id) (l : learner) : checkpoint :=
  Checkpoint a (ckpt_path a epoch) (model l) (optimizer l) (scheduler l) epoch.

Definition saved_world (a : args) (epoch : epoch_id) (l : learner) (w : io) : io :=
  emit (LogSavedIn (ckpt_path a epoch))
       (write_file (ckpt_path a epoch) (CkptFile (saved_state a epoch l))
                   (emit LogSaving w)).

Definition load_checkpoint (a : args) (l : learner) (w : io)
    : result io (args * learner * io) :=
  let w := emit (LogLoading (checkpoint_path a)) w in
  match checkpoint_path a with
  | None => Raise TypeError w
  | Some p =>
      match fs w !! p with
      | None => Raise (FileNotFoundError p) w
      | Some (PickleFile _) => Raise TypeError w
      | Some (CkptFile ck) =>
          match ck_epoch ck with
          | EpochLast => Raise TypeError w
          | EpochNum e =>
              let a := set_start_epoch (e + 1) a in
              let l := Learner (ck_model ck) (ck_optimizer ck) (ck_scheduler ck) in
              Ok (a, l, emit (LogLoaded p (ck_epoch ck)) w)
          end
      end
  end.

(** ** EarlyStopping *)

Record EarlyStopping : Type := ES {
  patience : Z;
  verbose : bool;
  counter : Z;
  best_score : option pyfloat;
  early_stop : bool;
  val_loss_min : pyfloat;
  delta : pyfloat;
  path : string;
}.

(** [EarlyStopping.__init__]; [trace_func] is [print], recorded in the trace. *)
Definition es_init (patience : Z) (verbose : bool) (delta : pyfloat)
    (path : string) : EarlyStopping :=
  ES patience verbose 0 None false np_Inf delta path.

Definition set_counter (c : Z) (s : EarlyStopping) : EarlyStopping :=
  ES (patience s) (verbose s) c (best_score s) (early_stop s)
     (val_loss_min s) (delta s) (path s).
Definition set_best_score (b : pyfloat) (s : EarlyStopping) : EarlyStopping :=
  ES (patience s) (verbose s) (counter s) (Some b) (early_stop s)
     (val_loss_min s) (delta s) (path s).
Definition set_early_stop (s : EarlyStopping) : EarlyStopping :=
  ES (patience s) (verbose s) (counter s) (best_score s) true
     (val_loss_min s) (delta s) (path s).
Definition set_val_loss_min (v : pyfloat) (s : EarlyStopping) : EarlyStopping :=
  ES (patience s) (verbose s) (counter s) (best_score s) (early_stop s)
     v (delta s) (path s).

(** [EarlyStopping.save_checkpoint]; [opt] is the module-level option
    object the method reads. *)
Definition es_save_checkpoint (opt : args) (val_loss : pyfloat) (l : learner)
    (epoch : Z) (self : EarlyStopping) (w : io)
    : result io (EarlyStopping * io) :=
  let w := emit (LogValLossDecreased (val_loss_min self) val_loss) w in
  r ← py_mod w epoch (save_freq opt);
  '(_, w) ← (if bool_decide (r ≠ 0)
             then save_checkpoint opt (EpochNum epoch) l true
                                  (emit LogSavingModel w)
             else Ok ((), w));
  Ok (set_val_loss_min val_loss self, w).

(** [EarlyStopping.__call__] *)
Definition es_call (opt : args) (val_loss : pyfloat) (l : learner)
    (epoch : Z) (self : EarlyStopping) (w : io)
    : result io (EarlyStopping * io) :=
  let score := fneg val_loss in
  match best_score self with
  | None =>
      es_save_checkpoint opt val_loss l epoch (set_best_score score self) w
  | Some best =>
      if fltb score (fadd best (delta self)) then
        let self := set_counter (counter self + 1) self in
        let w := emit (PrintCounter (counter self) (patience self)) w in
        let self := if bool_decide (patience self ≤ counter self)
                    then set_early_stop self else self in
        Ok (self, w)
      else
        '(self, w) ← es_save_checkpoint opt val_loss l epoch
                        (set_best_score score self) w;
        Ok (set_counter 0 self, w)
  end.

(** A sequence of calls on one [EarlyStopping] object, each with its
    validation loss and epoch, as a caller makes them one after the other. *)
Fixpoint es_calls (opt : args) (l : learner) (calls : list (pyfloat * Z))
    (self : EarlyStopping) (w : io) : result io (EarlyStopping * io) :=
  match calls with
  | [] => Ok (self, w)
  | (val_loss, epoch) :: rest =>
      '(self, w) ← es_call opt val_loss l epoch self w;
      es_calls opt l rest self w
  end.

(** The world after [EarlyStopping.save_checkpoint] returns. *)
Definition es_saved_world (opt : args) (val_loss : pyfloat) (l : learner)
    (epoch : Z) (self : EarlyStopping) (w : io) : io :=
  let w := emit (LogValLossDecreased (val_loss_min self) val_loss) w in
  if bool_decide (epoch `mod` save_freq opt ≠ 0)
  then saved_world opt (EpochNum epoch) l (emit LogSavingModel w)
  else w.

(** ** One training epoch *)

(** One iteration of the batch loop of [train_one_epoch].  The local variable
    [grad_total_norm] is unbound until the clipping branch assigns it. *)
Definition train_batch (config : args) (w : io) (b : Batch)
    (st : learner * option pyfloat)
    : result io (learner * option pyfloat) :=
  let '(l, grad_total_norm) := st in
  let clipped := fgtb (clip_norm config) fzero in
  let grad_total_norm :=
    if clipped then Some (clip_grad_norm_ (model l) b (clip_norm config))
    else grad_total_norm in
  let '(m, o, s) :=
    optim_step (if clipped then Some (clip_norm config) else None) b
               (model l) (optimizer l) (scheduler l) in
  match grad_total_norm with
  | None => Raise (NameError "grad_total_norm") w
  | Some g => Ok (Learner m o s, Some g)
  end.

Fixpoint train_batches (config : args) (w : io) (loader : list Batch)
    (st : learner * option pyfloat)
    : result io (learner * option pyfloat) :=
  match loader with
  | [] => Ok st
  | b :: rest =>
      st ← train_batch config w b st; train_batches config w rest st
  end.

(** [train_one_epoch].  The statistics dictionaries, whose keys come from
    the loss, are not part of the embedding; the log line that reports them
    is. *)
Definition train_one_epoch (epoch : Z) (train_loader : list Batch)
    (config : args) (l : learner) (w : io) : result io (learner * io) :=
  '(l, _) ← train_batches config w train_loader (l, None);
  r ← py_mod w epoch (val_freq config);
  Ok (l, if bool_decide (r = 0) then emit (LogTrainStats epoch) w else w).

(** ** Evaluation *)

(** The prediction heads that are evaluated. *)
Definition eval_prefixes (config : args) : list string :=
  if bool_decide (0 < num_decoder_layers config) then
    ["last_"; "proposal_"] ++
    ((λ i : Z, pretty i +:+ "head_") <$> py_range 0 (num_decoder_layers config - 1))
  else ["proposal_"].

(** The batch loop of [evaluate_one_epoch]: one loss appended per batch, a
    progress line every [print_freq] batches. *)
Fixpoint eval_batches (config : args) (m : ModelState) (batch_idx : Z)
    (loader : list Batch) (valid_losses : list pyfloat) (w : io)
    : result io (list pyfloat * io) :=
  match loader with
  | [] => Ok (valid_losses, w)
  | b :: rest =>
      let valid_losses := valid_losses ++ [batch_loss m b] in
      r ← py_mod w (batch_idx + 1) (print_freq config);
      let w := if bool_decide (r = 0)
               then emit (LogEvalProgress (batch_idx + 1)) w else w in
      eval_batches config m (batch_idx + 1) rest valid_losses w
  end.

(** The average-precision report: one block per prefix and IoU threshold. *)
Definition log_ap (config : args) (w : io) : io :=
  foldl (λ w prefix,
           foldl (λ w t, emit (LogAP prefix t) w) w (ap_iou_thresholds config))
        w (eval_prefixes config).

(** [evaluate_one_epoch]; the second component of the Python result. *)
Definition evaluate_one_epoch (test_loader : list Batch) (m : ModelState)
    (config : args) (w : io) : result io (pyfloat * io) :=
  '(valid_losses, w) ← eval_batches config m 0 test_loader [] w;
  let w := log_ap config w in
  let valid_loss := np_average valid_losses in
  Ok (valid_loss, w).

(** ** The epoch loop of [main] *)

Record run : Type := Run {
  r_learner : learner;
  r_es : EarlyStopping;
  r_io : io;
}.

Inductive flow : Type := Continue | Break.

Definition dump (a : args) (name : string) (d : pickled) (w : io) : io :=
  let p := path_join (log_dir a) name in
  emit (PrintPickled p) (write_file p (PickleFile d) w).

(** The body of [for epoch in range(args.start_epoch, args.max_epoch + 1)];
    [rank] is [dist.get_rank()]. *)
Definition epoch_body (a opt : args) (rank : Z)
    (train_loader train_eval_loader test_loader : list Batch)
    (epoch : Z) (s : run) : result io (flow * run) :=
  let es := r_es s in
  '(l, w) ← train_one_epoch epoch train_loader a (r_learner s) (r_io s);
  let w := emit (LogEpoch epoch) w in
  let w := dump a "train_loss_dict.pkl" TrainLossDict w in
  if bool_decide (rank = 0) then
    r ← py_mod w epoch (train_eval_freq a);
    w ← (if bool_decide (r = 0) || bool_decide (epoch = val_freq a) then
           '(_, w) ← evaluate_one_epoch train_eval_loader (model l) a w;
           Ok (dump a "train_metrics_dict.pkl" TrainMetricsDict w)
         else Ok w);
    r ← py_mod w epoch (val_freq a);
    if bool_decide (r = 0) then
      '(valid_loss, w) ← evaluate_one_epoch test_loader (model l) a w;
      let w := dump a "val_metrics_dict.pkl" ValMetricsDict w in
      '(es, w) ← es_call opt valid_loss l epoch es w;
      let w := emit (LogValidationLoss valid_loss) w in
      if early_stop es then
        Ok (Break, Run l es (emit LogEarlyStopping w))
      else
        '(_, w) ← save_checkpoint a (EpochNum epoch) l false w;
        Ok (Continue, Run l es w)
    else
      '(_, w) ← save_checkpoint a (EpochNum epoch) l false w;
      Ok (Continue, Run l es w)
  else Ok (Continue, Run l es w).

Fixpoint epoch_loop (a opt : args) (rank : Z)
    (train_loader train_eval_loader test_loader : list Batch)
    (epochs : list Z) (s : run) : result io run :=
  match epochs with
  | [] => Ok s
  | epoch :: rest =>
      '(f, s) ← epoch_body a opt rank train_loader train_eval_loader
                           test_loader epoch s;
      match f with
      | Break => Ok s
      | Continue =>
          epoch_loop a opt rank train_loader train_eval_loader test_loader
                     rest s
      end
  end.

(** [if args.checkpoint_path:] followed by the assertion and the load. *)
Definition resume (a : args) (l : learner) (w : io)
    : result io (args * learner * io) :=
  match checkpoint_path a with
  | None => Ok (a, l, w)
  | Some p =>
      if bool_decide (p = "") then Ok (a, l, w)
      else match fs w !! p with
           | None => Raise AssertionError w
           | Some _ => load_checkpoint a l w
           end
  end.

(** [main]: the loaders and the freshly built learner are its inputs here;
    the result is the returned path and the final state. *)
Definition main (a opt : args) (rank : Z)
    (train_loader train_eval_loader test_loader : list Batch)
    (l : learner) (w : io) : result io (string * run) :=
  '(a, l, w) ← resume a l w;
  let early_stopping := es_init 20 true fzero "checkpoint.pt" in
  s ← epoch_loop a opt rank train_loader train_eval_loader test_loader
                 (py_range (start_epoch a) (max_epoch a + 1))
                 (Run l early_stopping w);
  '(_, w) ← evaluate_one_epoch test_loader (model (r_learner s)) a (r_io s);
  '(_, w) ← save_checkpoint a EpochLast (r_learner s) true w;
  let p := path_join (log_dir a) "ckpt_epoch_last.pth" in
  Ok (p, Run (r_learner s) (r_es s) (emit (LogSavedIn p) w)).

(** A configuration under which no operator of the driver raises: the four
    frequencies are non-zero and gradient clipping is on. *)
Definition well_configured (a opt : args) : Prop :=
  val_freq a ≠ 0 ∧ train_eval_freq a ≠ 0 ∧ print_freq a ≠ 0 ∧
  save_freq a ≠ 0 ∧ save_freq opt ≠ 0 ∧ fgtb (clip_norm a) fzero = true.

End Driver.

(** ** Observations used by further properties *)

Section Observations.
Context `{C : Collab}.

(** [w'] has the files of [w] except, possibly, at the paths in [P]. *)
Definition touches (P : string → Prop) (w w' : io) : Prop :=
  ∀ q, ¬ P q → fs w' !! q = fs w !! q.

(** The paths one pass of the loop of [main] may write at epoch [e]. *)
Definition pass_paths (a opt : args) (e : Z) (q : string) : Prop :=
  q = path_join (log_dir a) "train_loss_dict.pkl" ∨
  q = path_join (log_dir a) "train_metrics_dict.pkl" ∨
  q = path_join (log_dir a) "val_metrics_dict.pkl" ∨
  q = ckpt_path a (EpochNum e) ∨
  q = ckpt_path opt (EpochNum e).

(** The number of calls an [EarlyStopping] object can have seen at least:
    one for the call that set [best_score], one per unit of [counter]. *)
Definition es_progress (s : EarlyStopping) : Z :=
  counter s + match best_score s with Some _ => 1 | None => 0 end.

(** The epochs of a list at which [main] validates. *)
Definition validation_epochs (a : args) (epochs : list Z) : list Z :=
  filter (λ e, e `mod` val_freq a = 0) epochs.

(** [trains a tl epochs s s']: from the state [s] on, [train_one_epoch] is
    called once for each epoch of [epochs], in order, and [s'] is the state
    after the last pass.  The call for an epoch is made on the learner and in
    the world of the state in which the epoch is reached; the learner it
    returns is the learner of the state after the pass, and the world of that
    state continues the world it returns with the line of the epoch and then
    with what the rest of the pass logs, none of it the line of an epoch. *)
Inductive trains (a : args) (tl : list Batch) : list Z → run → run → Prop :=
  | trains_nil s : trains a tl [] s s
  | trains_cons e rest s w1 s1 s' :
      train_one_epoch e tl a (r_learner s) (r_io s) = Ok (r_learner s1, w1) →
      quiet (emit (LogEpoch e) w1) (r_io s1) →
      trains a tl rest s1 s' →
      trains a tl (e :: rest) s s'.

(** [w'] holds, beside files that [w] holds with the same content, only
    files that [G] allows. *)
Definition adds (G : string → file → Prop) (w w' : io) : Prop :=
  ∀ q f, fs w' !! q = Some f → fs w !! q = Some f ∨ G q f.

(** The files the pass of epoch [e] may leave: a pickled dictionary under
    one of the three names, or the state of some learner at epoch [e] under
    the checkpoint name of [e]. *)
Definition pass_files (a opt : args) (e : Z) (q : string) (f : file) : Prop :=
  (∃ name d,
     (name = "train_loss_dict.pkl" ∨ name = "train_metrics_dict.pkl" ∨
      name = "val_metrics_dict.pkl") ∧
     q = path_join (log_dir a) name ∧ f = PickleFile d) ∨
  (∃ x l, (x = a ∨ x = opt) ∧ q = ckpt_path x (EpochNum e) ∧
          f = CkptFile (saved_state x (EpochNum e) l)).

End Observations.

(** ** [plot_metrics] *)

(** One [plt.plot] call and one saved figure.  A dictionary walked with
    [.items()] is a list of pairs in insertion order; a dictionary only
    looked up is a finite map. *)
Record curve : Type := Curve {
  cv_x : list Z;
  cv_y : list pyfloat;
  cv_color : string;
  cv_label : option string;
}.

Record figure : Type := Figure {
  fig_title : string;
  fig_curves : list curve;
  fig_legend : bool;
  fig_file : string;
}.

(** [[(i + 1) * val_freq for i in range(len(metrics_list))]] *)
Definition plot_xs (val_freq : Z) (metrics_list : list pyfloat) : list Z :=
  (λ i : Z, (i + 1) * val_freq) <$> py_range 0 (Z.of_nat (length metrics_list)).

Definition plot_file (save_dir key : string) : string :=
  save_dir +:+ "/" +:+ key +:+ ".jpg".

(** The body of the loop of [plot_metrics]: the figure drawn and saved for
    one item of the first dictionary. *)
Definition plot_figure (val_freq : Z) (save_dir : string)
    (plots_dict_2 : option (gmap string (list pyfloat)))
    (label_1 label_2 : option string) (item : string * list pyfloat) : figure :=
  let '(key, metrics_list) := item in
  let c1 := Curve (plot_xs val_freq metrics_list) metrics_list "r" label_1 in
  match plots_dict_2 ≫= (λ d, d !! key) with
  | Some metrics_list_2 =>
      let c2 := Curve (plot_xs val_freq metrics_list_2) metrics_list_2 "g"
                      label_2 in
      Figure key [c1; c2] true (plot_file save_dir key)
  | None => Figure key [c1] false (plot_file save_dir key)
  end.

(** [plot_metrics]: the directory it creates, if any, and the figures it
    saves, in order. *)
Definition plot_metrics (plots_dict_1 : list (string * list pyfloat))
    (val_freq : Z) (save_dir : string) (dir_exists : bool)
    (plots_dict_2 : option (gmap string (list pyfloat)))
    (label_1 label_2 : option string) : option string * list figure :=
  let made := if dir_exists then None else Some save_dir in
  (made, plot_figure val_freq save_dir plots_dict_2 label_1 label_2
           <$> plots_dict_1).

(** ** Concrete inputs *)

(** A command line: the options that vary between the examples below; the
    others are at their defaults ([log_dir] is ['log'], [print_freq] is 1,
    the IoU thresholds are 0.25 and 0.5). *)
Definition cli (layers start_ep max_ep : Z) (clip : pyfloat)
    (ckpt : option string) (save val train_eval : Z) : args := {|
  num_decoder_layers := layers;
  start_epoch := start_ep;
  max_epoch := max_ep;
  clip_norm := clip;
  checkpoint_path := ckpt;
  log_dir := "log";
  print_freq := 1;
  save_freq := save;
  val_freq := val;
  train_eval_freq := train_eval;
  ap_iou_thresholds := [FNum (Q2Qc (1 # 4)); FNum (Q2Qc (1 # 2))];
|}.

(** The defaults of [parse_option]. *)
Definition default_args : args :=
  cli 8 1 700 (FNum (Q2Qc (1 # 10))) None 10 10 40.

(** A run of 30 epochs with validation at every epoch. *)
Definition quick_args : args :=
  cli 2 1 30 (FNum (Q2Qc (1 # 10))) None 2 1 5.

(** The same with 5 epochs only. *)
Definition short_args : args :=
  cli 2 1 5 (FNum (Q2Qc (1 # 10))) None 2 1 5.

(** The defaults with [--save_freq 0], with [--clip_norm 0], with
    [--num_decoder_layers 0], and with the checkpoint of epoch 20 to resume
    from. *)
Definition no_save_args : args :=
  cli 8 1 700 (FNum (Q2Qc (1 # 10))) None 0 10 40.
Definition no_clip_args : args :=
  cli 8 1 700 fzero None 10 10 40.
Definition no_layer_args : args :=
  cli 0 1 700 (FNum (Q2Qc (1 # 10))) None 10 10 40.
Definition resume_args : args :=
  cli 8 1 700 (FNum (Q2Qc (1 # 10))) (Some "log/ckpt_epoch_20.pth") 10 10 40.

Definition toy_learner : @learner toy := @Learner toy 0 0 0.
Definition other_learner : @learner toy := @Learner toy 7 8 9.
Definition toy_loader : list (@Batch toy) := [1; 2].
Definition empty_world : @io toy := IO ∅ [].
Definition fresh_es : EarlyStopping := es_init 20 true fzero "checkpoint.pt".
Definition num (n : Z) : pyfloat := FNum (Qc_of_Z n).

(** The five-epoch run resumed from the checkpoint of epoch 3, the world
    that holds this checkpoint, the same run started again from the file
    written at its end, and a run whose range is empty. *)
Definition resume_short_args : args :=
  cli 2 1 5 (FNum (Q2Qc (1 # 10))) (Some "log/ckpt_epoch_3.pth") 2 1 5.
Definition ckpt3_world : @io toy :=
  IO {["log/ckpt_epoch_3.pth" :=
         CkptFile (saved_state short_args (EpochNum 3) other_learner)]} [].
Definition resume_last_args : args :=
  cli 2 1 5 (FNum (Q2Qc (1 # 10))) (Some "log/ckpt_epoch_last.pth") 2 1 5.
Definition done_args : args :=
  cli 2 6 5 (FNum (Q2Qc (1 # 10))) None 2 1 5.

(** The five-epoch run resumed from the checkpoint of epoch 2. *)
Definition resume2_args : args :=
  cli 2 1 5 (FNum (Q2Qc (1 # 10))) (Some "log/ckpt_epoch_2.pth") 2 1 5.

(** The five-epoch run with [--print_freq 2], and with [--print_freq 0]. *)
Definition sparse_print_args : args := {|
  num_decoder_layers := 2; start_epoch := 1; max_epoch := 5;
  clip_norm := FNum (Q2Qc (1 # 10)); checkpoint_path := None;
  log_dir := "log"; print_freq := 2; save_freq := 2; val_freq := 1;
  train_eval_freq := 5;
  ap_iou_thresholds := [FNum (Q2Qc (1 # 4)); FNum (Q2Qc (1 # 2))];
|}.
Definition no_print_args : args := {|
  num_decoder_layers := 2; start_epoch := 1; max_epoch := 5;
  clip_norm := FNum (Q2Qc (1 # 10)); checkpoint_path := None;
  log_dir := "log"; print_freq := 0; save_freq := 2; val_freq := 1;
  train_eval_freq := 5;
  ap_iou_thresholds := [FNum (Q2Qc (1 # 4)); FNum (Q2Qc (1 # 2))];
|}.
Definition long_loader : list (@Batch toy) := [1; 2; 3; 4; 5].

(** Loaders whose losses do not average exactly: 9, 9 and 10, whose mean
    28/3 is no double; and twice the double written [1e308], whose sum
    overflows. *)
Definition uneven_loader : list (@Batch toy) := [9; 9; 10].
Definition huge_loss : Z := 5010420900022432 * 2 ^ 971.
Definition huge_loader : list (@Batch toy) := [huge_loss; huge_loss].

(** Two metric dictionaries as [main] hands them to [plot_metrics]: the
    second lacks one key of the first and has a key of its own. *)
Definition train_plots : list (string * list pyfloat) :=
  [("loss", [num 3; num 2; num 1]); ("mAP", [num 1; num 2])].
Definition val_plots : gmap string (list pyfloat) :=
  {["loss" := [num 4; num 3]; "recall" := [num 1]]}.
Definition loss_figure : figure :=
  plot_figure 10 "log/plots" (Some val_plots) (Some "train") (Some "val")
              ("loss", [num 3; num 2; num 1]).

(** * Properties *)

Section Properties.
Context `{C : Collab}.

(** ** Arithmetic and the world *)

Lemma py_mod_ok {W} (w : W) (a b : Z) :
  b ≠ 0 → py_mod w a b = Ok (a `mod` b).
Proof. intros Hb. unfold py_mod. by rewrite bool_decide_eq_false_2. Qed.

Lemma py_mod_zero {W} (w : W) (a : Z) :
  py_mod w a 0 = Raise ZeroDivisionError w.
Proof. done. Qed.

Lemma writes_app (t1 t2 : list event) :
  writes (t1 ++ t2) = writes t1 ++ writes t2.
Proof. unfold writes. apply omap_app. Qed.

Lemma writes_emit (ev : event) (w : io) :
  (∀ p, ev ≠ Wrote p) → writes (trace (emit ev w)) = writes (trace w).
Proof.
  intros Hev. unfold emit; simpl. rewrite writes_app.
  destruct ev; simpl; try apply app_nil_r. by destruct (Hev p).
Qed.

Lemma writes_write_file (p : string) (f : file) (w : io) :
  writes (trace (write_file p f w)) = writes (trace w) ++ [p].
Proof. unfold write_file; simpl. by rewrite writes_app. Qed.

Lemma fs_emit (ev : event) (w : io) : fs (emit ev w) = fs w.
Proof. done. Qed.

(** ** [save_checkpoint] *)

Lemma save_checkpoint_cur a epoch l w :
  save_checkpoint a epoch l true w = Ok ((), saved_world a epoch l w).
Proof. done. Qed.

Lemma save_checkpoint_periodic a n l w :
  save_freq a ≠ 0 →
  save_checkpoint a (EpochNum n) l false w =
    Ok ((), if bool_decide (n `mod` save_freq a = 0)
            then saved_world a (EpochNum n) l w
            else emit PrintNotSaving (emit LogSaving w)).
Proof.
  intros Hf. unfold save_checkpoint; simpl.
  rewrite py_mod_ok by done; simpl. by case_bool_decide.
Qed.

Lemma saved_world_fs a epoch l w :
  fs (saved_world a epoch l w) =
    <[ckpt_path a epoch := CkptFile (saved_state a epoch l)]> (fs w).
Proof. done. Qed.

Lemma saved_world_writes a epoch l w :
  writes (trace (saved_world a epoch l w)) =
    writes (trace w) ++ [ckpt_path a epoch].
Proof.
  unfold saved_world. rewrite writes_emit by done.
  rewrite writes_write_file. by rewrite writes_emit.
Qed.

(** C5.  [save_checkpoint] writes [ckpt_epoch_{epoch}.pth] under
    [args.log_dir] when [save_cur] is true or [epoch] is a multiple of
    [args.save_freq], and then the file holds the state dictionary; in every
    other case, a raise included, no file is written and the files are as
    before.  "Multiple" is the code's test [epoch % save_freq == 0], which
    has no value for [save_freq = 0]: there the test raises. *)
Theorem save_checkpoint_writes_iff a epoch l save_cur w :
  let r := save_checkpoint a epoch l save_cur w in
  let multiple :=
    ∃ n, epoch = EpochNum n ∧ save_freq a ≠ 0 ∧ (save_freq a | n) in
  (save_cur = true ∨ multiple →
     ∃ w', r = Ok ((), w') ∧
       fs w' = <[ckpt_path a epoch := CkptFile (saved_state a epoch l)]> (fs w) ∧
       writes (trace w') = writes (trace w) ++ [ckpt_path a epoch]) ∧
  (¬ (save_cur = true ∨ multiple) →
     fs (world_after r) = fs w ∧
     writes (trace (world_after r)) = writes (trace w)).
Proof.
  simpl. split.
  - intros [-> | (n & -> & Hf & Hdiv)].
    + eexists. rewrite save_checkpoint_cur.
      split; [done|]. split; [apply saved_world_fs | apply saved_world_writes].
    + destruct save_cur.
      * eexists. rewrite save_checkpoint_cur.
        split; [done|]. split; [apply saved_world_fs | apply saved_world_writes].
      * eexists. rewrite save_checkpoint_periodic by done.
        apply Z.mod_divide in Hdiv; [|done].
        rewrite bool_decide_eq_true_2 by done.
        split; [done|]. split; [apply saved_world_fs | apply saved_world_writes].
  - intros Hno. destruct save_cur; [destruct Hno; by left|].
    destruct epoch as [n|]; [|split; [done|apply writes_emit; done]].
    destruct (decide (save_freq a = 0)) as [Hz|Hf].
    + unfold save_checkpoint; simpl. rewrite Hz; simpl.
      split; [done|apply writes_emit; done].
    + rewrite save_checkpoint_periodic by done.
      case_bool_decide as Hm.
      * destruct Hno. right. exists n. repeat split; [done|].
        by apply Z.mod_divide.
      * split; [done|]. cbn [world_after]. rewrite !writes_emit; done.
Qed.

Lemma string_app_nil (s : string) : "" +:+ s = s.
Proof. reflexivity. Qed.

Lemma string_app_cons (c : ascii) (s t : string) :
  String c s +:+ t = String c (s +:+ t).
Proof. reflexivity. Qed.

Lemma string_length_app (s1 s2 : string) :
  String.length (s1 +:+ s2) = (String.length s1 + String.length s2)%nat.
Proof.
  induction s1 as [|c s1 IH]; [done|].
  rewrite string_app_cons. simpl. by rewrite IH.
Qed.

(** Two concatenations that agree and end in parts of equal length agree
    part by part. *)
Lemma string_app_inj_suffix (a b c d : string) :
  String.length b = String.length d → a +:+ b = c +:+ d → a = c ∧ b = d.
Proof.
  intros Hlen. revert c.
  induction a as [|x a IH]; intros [|y c];
    rewrite ?string_app_nil, ?string_app_cons; intros Heq.
  - done.
  - subst b. simpl in Hlen. rewrite string_length_app in Hlen. lia.
  - subst d. simpl in Hlen. rewrite string_length_app in Hlen. lia.
  - injection Heq as -> Heq. destruct (IH _ Heq) as [-> ->]. done.
Qed.

(** ** Order on [pyfloat] *)

Lemma fleb_not_fltb x y : fleb y x = true → fltb x y = false.
Proof.
  destruct x as [|s|p], y as [|t|q]; simpl; try done.
  - by destruct s, t.
  - by destruct s.
  - by destruct t.
  - intros Hle%bool_decide_eq_true. apply bool_decide_eq_false.
    by apply Qcle_not_lt.
Qed.

Lemma not_fltb_fleb x y :
  x ≠ FNaN → y ≠ FNaN → fltb x y = false → fleb y x = true.
Proof.
  destruct x as [|s|p], y as [|t|q]; simpl; try done.
  - by destruct s, t.
  - intros _ _ ->. done.
  - intros _ _. by destruct t.
  - intros _ _ Hlt%bool_decide_eq_false. apply bool_decide_eq_true.
    by apply Qcnot_lt_le.
Qed.

Lemma fneg_not_nan x : x ≠ FNaN → fneg x ≠ FNaN.
Proof. by destruct x. Qed.

(** With a non-negative [delta], a score that is not below
    [best + delta] is at least [best]. *)
Lemma not_below_threshold best d score :
  best ≠ FNaN → score ≠ FNaN → fleb fzero d = true →
  fltb score (fadd best d) = false → fleb best score = true.
Proof.
  destruct best as [|s|p]; [done| |]; intros _.
  - destruct score as [|t|r]; [done| |]; intros _.
    + destruct d as [|u|q]; [done| |]; simpl.
      * destruct u; [done|]. intros _. by destruct s, t.
      * intros _. by destruct s, t.
    + destruct d as [|u|q]; [done| |]; simpl.
      * destruct u; [done|]. intros _. by destruct s.
      * intros _. by destruct s.
  - destruct score as [|t|r]; [done| |]; intros _.
    + destruct d as [|u|q]; [done| |]; simpl.
      * destruct u; [done|]. intros _. by destruct t.
      * intros _. by destruct t.
    + destruct d as [|u|q]; [done| |]; simpl.
      * by destruct u.
      * intros Hq%bool_decide_eq_true Hlt%bool_decide_eq_false.
        apply bool_decide_eq_true. apply Qcnot_lt_le in Hlt.
        trans (p + q)%Qc; [|done].
        rewrite <-(Qcplus_0_r p) at 1. by apply Qcplus_le_mono_l.
Qed.

(** ** [EarlyStopping] *)

Lemma es_save_checkpoint_ok opt v l e s w :
  save_freq opt ≠ 0 →
  es_save_checkpoint opt v l e s w =
    Ok (set_val_loss_min v s, es_saved_world opt v l e s w).
Proof.
  intros Hf. unfold es_save_checkpoint, es_saved_world.
  rewrite py_mod_ok by done. simpl.
  case_bool_decide; [by rewrite save_checkpoint_cur|done].
Qed.

Lemma es_saved_world_fs opt v l e s w :
  fs (es_saved_world opt v l e s w) =
    if bool_decide (e `mod` save_freq opt = 0) then fs w
    else <[ckpt_path opt (EpochNum e) :=
             CkptFile (saved_state opt (EpochNum e) l)]> (fs w).
Proof.
  unfold es_saved_world. repeat case_bool_decide; try done.
Qed.

Lemma es_saved_world_writes opt v l e s w :
  writes (trace (es_saved_world opt v l e s w)) =
    writes (trace w) ++
      (if bool_decide (e `mod` save_freq opt = 0) then []
       else [ckpt_path opt (EpochNum e)]).
Proof.
  unfold es_saved_world. cbv zeta.
  destruct (decide (e `mod` save_freq opt = 0)) as [Hm|Hm].
  - rewrite bool_decide_eq_false_2 by (by intros []).
    rewrite bool_decide_eq_true_2 by done.
    rewrite writes_emit by done. by rewrite app_nil_r.
  - rewrite bool_decide_eq_true_2 by done.
    rewrite bool_decide_eq_false_2 by done.
    rewrite saved_world_writes. by rewrite !writes_emit.
Qed.

Lemma es_call_first opt v l e s w :
  best_score s = None → save_freq opt ≠ 0 →
  es_call opt v l e s w =
    Ok (set_val_loss_min v (set_best_score (fneg v) s),
        es_saved_world opt v l e s w).
Proof.
  intros Hb Hf. unfold es_call. rewrite Hb.
  by rewrite es_save_checkpoint_ok.
Qed.

Lemma es_call_worse opt v l e s w b :
  best_score s = Some b → fltb (fneg v) (fadd b (delta s)) = true →
  es_call opt v l e s w =
    Ok (let s1 := set_counter (counter s + 1) s in
        if bool_decide (patience s ≤ counter s + 1) then set_early_stop s1 else s1,
        emit (PrintCounter (counter s + 1) (patience s)) w).
Proof. intros Hb Hlt. unfold es_call. by rewrite Hb, Hlt. Qed.

Lemma es_call_better opt v l e s w b :
  best_score s = Some b → fltb (fneg v) (fadd b (delta s)) = false →
  save_freq opt ≠ 0 →
  es_call opt v l e s w =
    Ok (set_counter 0 (set_val_loss_min v (set_best_score (fneg v) s)),
        es_saved_world opt v l e s w).
Proof.
  intros Hb Hlt Hf. unfold es_call. rewrite Hb, Hlt.
  by rewrite es_save_checkpoint_ok.
Qed.

(** Outside the degenerate [save_freq = 0], a call always returns. *)
Lemma es_call_returns opt v l e s w :
  save_freq opt ≠ 0 → ∃ s' w', es_call opt v l e s w = Ok (s', w').
Proof.
  intros Hf. destruct (best_score s) as [b|] eqn:Hb.
  - destruct (fltb (fneg v) (fadd b (delta s))) eqn:Hlt.
    + rewrite (es_call_worse _ _ _ _ _ _ b) by done. eauto.
    + rewrite (es_call_better _ _ _ _ _ _ b) by done. eauto.
  - rewrite es_call_first by done. eauto.
Qed.

(** C1, as the code has it.  With [save_freq <> 0]: the first call sets
    [best_score] to [-val_loss] and runs the object's [save_checkpoint]
    method; a later call with [-val_loss < best_score + delta] adds one to
    [counter], sets [early_stop] exactly when the new [counter] has reached
    [patience], and touches nothing else; a later call with
    [-val_loss >= best_score + delta] sets [best_score] to [-val_loss], runs
    the [save_checkpoint] method and resets [counter] to 0.  The method
    records [val_loss] in [val_loss_min], and writes the checkpoint file only
    when [epoch] is not a multiple of [save_freq]. *)
Theorem es_call_cases opt v l e s w :
  save_freq opt ≠ 0 →
  ∃ s' w', es_call opt v l e s w = Ok (s', w') ∧
    patience s' = patience s ∧ delta s' = delta s ∧
    (best_score s = None →
       best_score s' = Some (fneg v) ∧ counter s' = counter s ∧
       early_stop s' = early_stop s ∧ val_loss_min s' = v ∧
       writes (trace w') = writes (trace w) ++
         (if bool_decide (e `mod` save_freq opt = 0) then []
          else [ckpt_path opt (EpochNum e)])) ∧
    (∀ b, best_score s = Some b → fltb (fneg v) (fadd b (delta s)) = true →
       best_score s' = Some b ∧ counter s' = counter s + 1 ∧
       early_stop s' = early_stop s || bool_decide (patience s ≤ counter s') ∧
       val_loss_min s' = val_loss_min s ∧
       fs w' = fs w ∧ writes (trace w') = writes (trace w)) ∧
    (∀ b, best_score s = Some b → fgeb (fneg v) (fadd b (delta s)) = true →
       best_score s' = Some (fneg v) ∧ counter s' = 0 ∧
       early_stop s' = early_stop s ∧ val_loss_min s' = v ∧
       writes (trace w') = writes (trace w) ++
         (if bool_decide (e `mod` save_freq opt = 0) then []
          else [ckpt_path opt (EpochNum e)])).
Proof.
  intros Hf. destruct (best_score s) as [b|] eqn:Hb.
  - destruct (fltb (fneg v) (fadd b (delta s))) eqn:Hlt.
    + rewrite (es_call_worse _ _ _ _ _ _ b) by done.
      eexists _, _. split; [done|].
      split; [by case_bool_decide|]. split; [by case_bool_decide|].
      split; [done|]. split.
      * intros b' [= <-] _. cbv zeta.
        assert (writes (trace (emit (PrintCounter (counter s + 1) (patience s)) w))
                = writes (trace w)) as Hw by (by apply writes_emit).
        destruct (decide (patience s ≤ counter s + 1)) as [Hp|Hp].
        -- rewrite bool_decide_eq_true_2 by done. simpl.
           rewrite bool_decide_eq_true_2 by done. by rewrite orb_true_r.
        -- rewrite bool_decide_eq_false_2 by done. simpl.
           rewrite bool_decide_eq_false_2 by done. by rewrite orb_false_r.
      * intros b' [= <-] Hge. apply fleb_not_fltb in Hge. congruence.
    + rewrite (es_call_better _ _ _ _ _ _ b) by done.
      eexists _, _. split; [done|]. split; [done|]. split; [done|].
      split; [done|]. split.
      * intros b' [= <-] Hlt'. congruence.
      * intros b' [= <-] _. repeat split; try done.
        apply es_saved_world_writes.
  - rewrite es_call_first by done.
    eexists _, _. split; [done|]. split; [done|]. split; [done|].
    split; [|split; by intros b' [=]].
    intros _. repeat split; try done. apply es_saved_world_writes.
Qed.

(** C4, as the code has it.  On every call where the monitored loss
    improves (the first call, or [-val_loss >= best_score + delta]), with
    [save_freq <> 0], [EarlyStopping] sets [val_loss_min] to the new loss for
    every epoch, and writes the checkpoint of that epoch exactly when the
    epoch is not a multiple of [opt.save_freq]; at a multiple it writes
    nothing and the files are unchanged. *)
Theorem es_improvement_checkpoint opt v l e s w :
  save_freq opt ≠ 0 →
  best_score s = None ∨
    (∃ b, best_score s = Some b ∧ fgeb (fneg v) (fadd b (delta s)) = true) →
  ∃ s' w', es_call opt v l e s w = Ok (s', w') ∧
    val_loss_min s' = v ∧
    (e `mod` save_freq opt ≠ 0 →
       fs w' = <[ckpt_path opt (EpochNum e) :=
                   CkptFile (saved_state opt (EpochNum e) l)]> (fs w) ∧
       writes (trace w') = writes (trace w) ++ [ckpt_path opt (EpochNum e)]) ∧
    (e `mod` save_freq opt = 0 →
       fs w' = fs w ∧ writes (trace w') = writes (trace w)).
Proof.
  intros Hf Himp.
  assert (es_call opt v l e s w =
            Ok (set_val_loss_min v (set_best_score (fneg v) s),
                es_saved_world opt v l e s w) ∨
          es_call opt v l e s w =
            Ok (set_counter 0 (set_val_loss_min v (set_best_score (fneg v) s)),
                es_saved_world opt v l e s w)) as Hcall.
  { destruct Himp as [Hb | (b & Hb & Hge)].
    - left. by apply es_call_first.
    - right. apply (es_call_better _ _ _ _ _ _ b); [done| |done].
      by apply fleb_not_fltb. }
  assert (∃ s', es_call opt v l e s w = Ok (s', es_saved_world opt v l e s w) ∧
                val_loss_min s' = v) as (s' & -> & Hv).
  { destruct Hcall as [-> | ->]; eauto. }
  exists s', (es_saved_world opt v l e s w).
  split; [done|]. split; [done|].
  rewrite es_saved_world_fs, es_saved_world_writes.
  split; intros Hm.
  - by rewrite !bool_decide_eq_false_2 by done.
  - rewrite !bool_decide_eq_true_2 by done. by rewrite app_nil_r.
Qed.

(** What one call keeps, with [save_freq <> 0]. *)
Lemma es_call_step opt v l e s w :
  save_freq opt ≠ 0 →
  ∃ s' w', es_call opt v l e s w = Ok (s', w') ∧
    patience s' = patience s ∧ delta s' = delta s ∧
    (early_stop s = true → early_stop s' = true) ∧
    (∀ b, best_score s = Some b → b ≠ FNaN → v ≠ FNaN →
          fleb fzero (delta s) = true →
          ∃ b', best_score s' = Some b' ∧ b' ≠ FNaN ∧ fleb b b' = true) ∧
    (early_stop s = false → 0 ≤ counter s < patience s →
       0 ≤ counter s' ≤ patience s' ∧
       (early_stop s' = false → counter s' < patience s')).
Proof.
  intros Hf. destruct (best_score s) as [b|] eqn:Hb.
  - destruct (fltb (fneg v) (fadd b (delta s))) eqn:Hlt.
    + rewrite (es_call_worse _ _ _ _ _ _ b) by done. cbv zeta.
      eexists _, _. split; [done|].
      destruct (decide (patience s ≤ counter s + 1)) as [Hp|Hp].
      * rewrite bool_decide_eq_true_2 by done. simpl.
        split; [done|]. split; [done|]. split; [done|]. split.
        -- intros b' [= <-] Hnan _ _. exists b. split; [done|]. split; [done|].
           destruct b as [|t|q]; [done|by destruct t|simpl].
           by apply bool_decide_eq_true.
        -- intros _ Hc. split; [lia|done].
      * rewrite bool_decide_eq_false_2 by done. simpl.
        split; [done|]. split; [done|]. split; [done|]. split.
        -- intros b' [= <-] Hnan _ _. exists b. split; [done|]. split; [done|].
           destruct b as [|t|q]; [done|by destruct t|simpl].
           by apply bool_decide_eq_true.
        -- intros _ Hc. split; lia.
    + rewrite (es_call_better _ _ _ _ _ _ b) by done.
      eexists _, _. split; [done|]. simpl.
      split; [done|]. split; [done|]. split; [done|]. split.
      * intros b' [= <-] Hnan Hv Hd. exists (fneg v). split; [done|].
        split; [by apply fneg_not_nan|].
        apply (not_below_threshold _ (delta s)); auto using fneg_not_nan.
      * intros _ Hc. split; lia.
  - rewrite es_call_first by done.
    eexists _, _. split; [done|]. simpl.
    split; [done|]. split; [done|]. split; [done|]. split; [by intros b' [=]|].
    intros _ Hc. split; lia.
Qed.

Lemma fleb_trans x y z : fleb x y = true → fleb y z = true → fleb x z = true.
Proof.
  destruct x as [|[]|p], y as [|[]|q], z as [|[]|r]; simpl; try done.
  intros Hpq%bool_decide_eq_true Hqr%bool_decide_eq_true.
  apply bool_decide_eq_true. by trans q.
Qed.

(** Across a sequence of calls with [delta >= 0] and no NaN loss, the stored
    score does not decrease and a set [early_stop] stays set. *)
Lemma es_calls_monotone opt l calls : ∀ s w b,
  save_freq opt ≠ 0 → fleb fzero (delta s) = true →
  Forall (λ c : pyfloat * Z, c.1 ≠ FNaN) calls →
  best_score s = Some b → b ≠ FNaN →
  ∃ s' w' b', es_calls opt l calls s w = Ok (s', w') ∧
    best_score s' = Some b' ∧ b' ≠ FNaN ∧ fleb b b' = true ∧
    (early_stop s = true → early_stop s' = true).
Proof.
  induction calls as [|[v e] rest IH]; intros s w b Hf Hd Hcalls Hb Hnan.
  - exists s, w, b. repeat split; try done.
    destruct b as [|t|q]; [done|by destruct t|simpl].
    by apply bool_decide_eq_true.
  - apply Forall_cons in Hcalls as [Hv Hrest]. cbn [es_calls].
    destruct (es_call_step opt v l e s w Hf)
      as (s1 & w1 & -> & _ & Hdelta & Hstop & Hbest & _).
    destruct (Hbest b Hb Hnan Hv Hd) as (b1 & Hb1 & Hnan1 & Hle1).
    cbn [mbind result_bind]. rewrite <-Hdelta in Hd.
    destruct (IH s1 w1 b1 Hf Hd Hrest Hb1 Hnan1)
      as (s' & w' & b' & Hcalls' & Hb' & Hnan' & Hle' & Hstop').
    exists s', w', b'. repeat split; try done; [by eapply fleb_trans|auto].
Qed.

(** C10, as the code has it.  With [save_freq <> 0] every call returns and
    leaves [patience] and [delta] as they were, and: [early_stop], once
    true, stays true; [best_score], once set, does not decrease, provided
    [delta >= 0] and neither the stored score nor the new loss is NaN (the
    new score is then not NaN either); [counter] does not exceed [patience]
    after a call made while [early_stop] is still false and
    [0 <= counter < patience], and that bound on the state is kept as long
    as [early_stop] stays false. *)
Theorem es_call_invariants opt v l e s w :
  save_freq opt ≠ 0 →
  ∃ s' w', es_call opt v l e s w = Ok (s', w') ∧
    patience s' = patience s ∧ delta s' = delta s ∧
    (early_stop s = true → early_stop s' = true) ∧
    (∀ b, best_score s = Some b → b ≠ FNaN → v ≠ FNaN →
          fleb fzero (delta s) = true →
          ∃ b', best_score s' = Some b' ∧ b' ≠ FNaN ∧ fleb b b' = true) ∧
    (early_stop s = false → 0 ≤ counter s < patience s →
       0 ≤ counter s' ≤ patience s' ∧
       (early_stop s' = false → counter s' < patience s')).
Proof. apply es_call_step. Qed.

(** ** Checkpoint round trip *)

(** C3.  When [save_checkpoint] writes the checkpoint of the integer epoch
    [e], [load_checkpoint] on that file returns; it sets [start_epoch] to
    [e + 1] and restores the saved model, optimizer and scheduler states,
    whatever the learner held before, so that the resumed epoch range starts
    at [e + 1]. *)
Theorem checkpoint_roundtrip a e l save_cur w a' l0 :
  save_cur = true ∨ (save_freq a ≠ 0 ∧ (save_freq a | e)) →
  checkpoint_path a' = Some (ckpt_path a (EpochNum e)) →
  ∃ w1 w2,
    save_checkpoint a (EpochNum e) l save_cur w = Ok ((), w1) ∧
    load_checkpoint a' l0 w1 = Ok (set_start_epoch (e + 1) a', l, w2) ∧
    start_epoch (set_start_epoch (e + 1) a') = e + 1 ∧
    fs w2 = fs w1.
Proof.
  intros Hsave Hpath.
  assert (save_checkpoint a (EpochNum e) l save_cur w =
            Ok ((), saved_world a (EpochNum e) l w)) as Hs.
  { destruct save_cur; [apply save_checkpoint_cur|].
    destruct Hsave as [|[Hf Hdiv]]; [done|].
    rewrite save_checkpoint_periodic by done.
    apply Z.mod_divide in Hdiv; [|done].
    by rewrite bool_decide_eq_true_2. }
  eexists _, _. split; [exact Hs|].
  unfold load_checkpoint. rewrite Hpath. cbv zeta.
  rewrite fs_emit, saved_world_fs, lookup_insert_eq. simpl.
  by destruct l.
Qed.

(** ** Evaluation *)

Lemma head_name_inj (i j : Z) :
  pretty i +:+ "head_" = pretty j +:+ "head_" → i = j.
Proof.
  intros Heq. apply string_app_inj_suffix in Heq as [Heq _]; [|done].
  by apply (inj pretty).
Qed.

Lemma head_name_not_fixed (i : Z) :
  pretty i +:+ "head_" ≠ "last_" ∧ pretty i +:+ "head_" ≠ "proposal_".
Proof.
  split; intros Heq.
  - apply (string_app_inj_suffix _ _ "" "last_") in Heq as [_ Heq]; done.
  - apply (string_app_inj_suffix _ _ "prop" "osal_") in Heq as [_ Heq]; done.
Qed.

(** C6.  With [num_decoder_layers > 0] the evaluated prefixes are
    ['last_'], ['proposal_'] and [f'{i}head_'] for [0 <= i <=
    num_decoder_layers - 2], each once, [num_decoder_layers + 1] in all;
    otherwise the list is [['proposal_']]. *)
Theorem eval_prefixes_spec config :
  (0 < num_decoder_layers config →
     (∀ p, p ∈ eval_prefixes config ↔
             p = "last_" ∨ p = "proposal_" ∨
             ∃ i, 0 ≤ i ≤ num_decoder_layers config - 2 ∧
                  p = pretty i +:+ "head_") ∧
     NoDup (eval_prefixes config) ∧
     Z.of_nat (length (eval_prefixes config)) = num_decoder_layers config + 1) ∧
  (num_decoder_layers config ≤ 0 → eval_prefixes config = ["proposal_"]).
Proof.
  unfold eval_prefixes, py_range. split; intros Hn.
  - rewrite bool_decide_eq_true_2 by done. split; [|split].
    + intros p. rewrite elem_of_app, !elem_of_cons, elem_of_nil, list_elem_of_fmap.
      setoid_rewrite elem_of_seqZ. split.
      * intros [[->|[->|[]]]|(i & -> & Hi)]; [by left|by right; left|].
        right; right. exists i. split; [lia|done].
      * intros [->|[->|(i & Hi & ->)]]; [by left; left|by left; right; left|].
        right. exists i. split; [done|lia].
    + apply NoDup_app. split; [|split].
      * apply NoDup_cons. split; [|apply NoDup_singleton].
        by intros ?%list_elem_of_singleton.
      * intros p Hp (i & -> & _)%list_elem_of_fmap.
        destruct (head_name_not_fixed i) as [H1 H2].
        apply elem_of_cons in Hp as [?|?%list_elem_of_singleton]; done.
      * apply NoDup_fmap_2; [|apply NoDup_seqZ].
        intros i j. apply head_name_inj.
    + rewrite length_app, length_fmap, length_seqZ. simpl. lia.
  - by rewrite bool_decide_eq_false_2 by lia.
Qed.

Lemma eval_batches_ok config m loader : ∀ batch_idx valid_losses w,
  print_freq config ≠ 0 →
  ∃ w', eval_batches config m batch_idx loader valid_losses w =
          Ok (valid_losses ++ (batch_loss m <$> loader), w') ∧
        fs w' = fs w ∧ writes (trace w') = writes (trace w).
Proof.
  induction loader as [|b rest IH]; intros i acc w Hf; simpl.
  - exists w. by rewrite app_nil_r.
  - rewrite py_mod_ok by done. simpl.
    set (w1 := if bool_decide _ then _ else w).
    destruct (IH (i + 1) (acc ++ [batch_loss m b]) w1 Hf) as (w' & -> & Hfs & Hwr).
    exists w'. rewrite <-app_assoc. split; [done|].
    subst w1. case_bool_decide; [|done].
    split; [done|]. rewrite Hwr. by apply writes_emit.
Qed.

Lemma log_ap_quiet config w :
  fs (log_ap config w) = fs w ∧
  writes (trace (log_ap config w)) = writes (trace w).
Proof.
  unfold log_ap. generalize (eval_prefixes config). intros ps. revert w.
  induction ps as [|p ps IH]; intros w; [done|]. simpl.
  destruct (IH (foldl (λ w t, emit (LogAP p t) w) w (ap_iou_thresholds config)))
    as [-> ->].
  generalize (ap_iou_thresholds config). intros ts. revert w.
  induction ts as [|t ts IHt]; intros w; [done|]. simpl.
  destruct (IHt (emit (LogAP p t) w)) as [-> ->].
  split; [done|]. by apply writes_emit.
Qed.

(** ** Rounding and summation in [np.average] *)

Lemma Qc_of_Z_add (a b : Z) : (Qc_of_Z a + Qc_of_Z b)%Qc = Qc_of_Z (a + b).
Proof.
  apply Qc_is_canon. unfold Qc_of_Z, Qcplus, Q2Qc. cbn [this].
  rewrite !Qred_correct. unfold Qeq, Qplus, inject_Z. simpl. lia.
Qed.

Lemma this_Qc_of_Z (z : Z) : this (Qc_of_Z z) = inject_Z z.
Proof.
  reflexivity.
Qed.

(** An integer below [2 ^ 53] in magnitude is a double. *)
Lemma round64_Z (z : Z) :
  Z.abs z < 2 ^ 53 → round64 (inject_Z z) = FNum (Qc_of_Z z).
Proof.
  intros Hz.
  assert (∀ neg n, Z.pos n < 2 ^ 53 →
            round_pos neg n 1 =
              FNum (Qc_of_Z (if neg then Z.neg n else Z.pos n))) as Hpos.
  { intros neg n Hn. unfold round_pos, floor_log2.
    pose proof (Z.log2_nonneg (Z.pos n)) as HL0.
    assert (Z.log2 (Z.pos n) < 53) as HL by (apply Z.log2_lt_pow2; lia).
    destruct (Z.log2_spec (Z.pos n)) as [Hlo _]; [lia|].
    change (Z.log2 1) with 0. rewrite Z.sub_0_r.
    set (L := Z.log2 (Z.pos n)) in *.
    rewrite (Z.max_l L 0), (Z.max_r (- L) 0) by lia.
    rewrite (bool_decide_eq_true_2 (1 * 2 ^ L ≤ Z.pos n * 2 ^ 0))
      by (change (2 ^ 0) with 1; lia).
    rewrite (Z.max_l (L - 52) (-1074)) by lia.
    rewrite (Z.max_l (- (L - 52)) 0), (Z.max_r (L - 52) 0) by lia.
    set (P := 2 ^ (- (L - 52))).
    assert (0 < P) as HP by (apply Z.pow_pos_nonneg; lia).
    change (2 ^ 0) with 1. rewrite !Z.mul_1_r.
    assert (round_half_even (Z.pos n * P) 1 = Z.pos n * P) as ->.
    { unfold round_half_even. rewrite Z.mod_1_r, Z.div_1_r. done. }
    assert (2 ^ 53 < 2 ^ 1024) as HB by (apply Z.pow_lt_mono_r; lia).
    rewrite bool_decide_eq_false_2 by nia.
    f_equal. apply Qc_is_canon. unfold Qc_of_Z, Q2Qc, this.
    rewrite !Qred_correct. unfold Qeq, inject_Z. cbn [Qnum Qden].
    rewrite Z2Pos.id by done. destruct neg; lia. }
  unfold round64. destruct z as [|n|n]; cbn [inject_Z Qnum Qden].
  - done.
  - apply (Hpos false). lia.
  - apply (Hpos true). lia.
Qed.

Lemma fadd64_Z (a b : Z) :
  Z.abs (a + b) < 2 ^ 53 →
  fadd64 (FNum (Qc_of_Z a)) (FNum (Qc_of_Z b)) = FNum (Qc_of_Z (a + b)).
Proof.
  intros Hab. unfold fadd64, fadd.
  rewrite Qc_of_Z_add, this_Qc_of_Z. by apply round64_Z.
Qed.

(** The summation scheme carries a relation between summands that the two
    additions preserve over to the sums. *)
Section PairwiseRel.
Context {A B : Type} (R : A → B → Prop).
Context (addA : A → A → A) (zA : A) (addB : B → B → B) (zB : B).
Hypothesis R_zero : R zA zB.
Hypothesis R_add : ∀ x y x' y', R x x' → R y y' → R (addA x y) (addB x' y').

Lemma foldl_rel xs ys : ∀ x y,
  R x y → Forall2 R xs ys → R (foldl addA x xs) (foldl addB y ys).
Proof.
  intros x y Hxy Hl. revert x y Hxy.
  induction Hl as [|a b xs ys Hab _ IH]; intros x y Hxy; cbn [foldl]; auto.
Qed.

Lemma zip_with_rel r s xs ys :
  Forall2 R r s → Forall2 R xs ys →
  Forall2 R (zip_with addA r xs) (zip_with addB s ys).
Proof.
  intros Hr. revert xs ys.
  induction Hr as [|a b r s Hab _ IH]; intros xs ys Hl; [constructor|].
  destruct Hl; cbn [zip_with]; constructor; auto.
Qed.

Lemma acc8_rel (n : nat) : ∀ xs ys r s,
  (length xs ≤ n)%nat → Forall2 R r s → Forall2 R xs ys →
  Forall2 R (acc8 addA r xs).1 (acc8 addB s ys).1 ∧
  Forall2 R (acc8 addA r xs).2 (acc8 addB s ys).2.
Proof.
  induction n as [|n IH]; intros xs ys r s Hn Hr Hl.
  { destruct Hl; [by split|]. simpl in Hn. lia. }
  do 8 (destruct Hl as [|? ? ? ? ? Hl];
        [cbn [acc8 fst snd]; split; [done|by repeat constructor]|]).
  cbn [acc8]. apply IH.
  - cbn [length] in Hn. lia.
  - apply zip_with_rel; [done|]. by repeat constructor.
  - done.
Qed.

Lemma tree8_rel r s : Forall2 R r s → R (tree8 addA zA r) (tree8 addB zB s).
Proof.
  intros Hl.
  do 8 (destruct Hl as [|? ? ? ? ? Hl]; [exact R_zero|]).
  destruct Hl; cbn [tree8]; auto.
Qed.

Lemma pairwise_sum_rel (fuel : nat) : ∀ a b,
  Forall2 R a b →
  R (pairwise_sum addA zA fuel a) (pairwise_sum addB zB fuel b).
Proof.
  assert (∀ a b, Forall2 R a b →
            R (let '(r, rest) := acc8 addA (take 8 a) (drop 8 a) in
               foldl addA (tree8 addA zA r) rest)
              (let '(r, rest) := acc8 addB (take 8 b) (drop 8 b) in
               foldl addB (tree8 addB zB r) rest)) as Hblock.
  { intros a b Hl.
    destruct (acc8_rel (length (drop 8 a)) (drop 8 a) (drop 8 b)
                (take 8 a) (take 8 b)) as [H1 H2];
      [done|by apply Forall2_take|by apply Forall2_drop|].
    destruct (acc8 addA _ _) as [r rest], (acc8 addB _ _) as [r' rest'].
    apply foldl_rel; [by apply tree8_rel|done]. }
  induction fuel as [|fuel IH]; intros a b Hl; cbn [pairwise_sum];
    rewrite <-(Forall2_length _ _ _ Hl);
    (case_bool_decide; [by apply foldl_rel|]);
    (case_bool_decide; [by apply Hblock|]); [done|].
  apply R_add; apply IH; [by apply Forall2_take|by apply Forall2_drop].
Qed.

End PairwiseRel.

Lemma foldl_sumZ zs : ∀ a, foldl Z.add a zs = a + sumZ zs.
Proof.
  induction zs as [|z zs IH]; intros a; cbn [foldl sumZ foldr]; [lia|].
  rewrite IH. unfold sumZ. lia.
Qed.

Lemma sumZ_app xs ys : sumZ (xs ++ ys) = sumZ xs + sumZ ys.
Proof. unfold sumZ. induction xs; cbn [app foldr]; lia. Qed.

Lemma acc8_sumZ (n : nat) : ∀ xs r,
  (length xs ≤ n)%nat → length r = 8%nat →
  sumZ (acc8 Z.add r xs).1 + sumZ (acc8 Z.add r xs).2 = sumZ r + sumZ xs ∧
  length (acc8 Z.add r xs).1 = 8%nat.
Proof.
  induction n as [|n IH]; intros xs r Hn Hr.
  { destruct xs; [by split|]. simpl in Hn. lia. }
  do 8 (destruct xs as [|? xs]; [by split|]).
  cbn [acc8]. cbn [length] in Hn.
  do 8 (destruct r as [|? r]; [done|]). destruct r; [|done].
  destruct (IH xs (zip_with Z.add [z7; z8; z9; z10; z11; z12; z13; z14]
                            [z; z0; z1; z2; z3; z4; z5; z6])) as [Hs Hl];
    [lia|done|].
  split; [|done]. rewrite Hs. unfold sumZ. cbn [zip_with foldr]. lia.
Qed.

(** Over the integers the scheme computes the sum. *)
Lemma pairwise_sum_Z (fuel : nat) : ∀ zs,
  (length zs ≤ fuel)%nat → pairwise_sum Z.add 0 fuel zs = sumZ zs.
Proof.
  induction fuel as [|fuel IH]; intros zs Hn; cbn [pairwise_sum].
  - destruct zs; [done|]. simpl in Hn. lia.
  - case_bool_decide as H8; [by rewrite foldl_sumZ|].
    case_bool_decide as H128.
    + destruct (acc8_sumZ (length (drop 8 zs)) (drop 8 zs) (take 8 zs))
        as [Hs Hl]; [done|rewrite length_take; lia|].
      destruct (acc8 Z.add _ _) as [r rest]. cbn [fst snd] in Hs, Hl.
      rewrite foldl_sumZ.
      assert (tree8 Z.add 0 r = sumZ r) as ->.
      { do 8 (destruct r as [|? r]; [done|]). destruct r; [|done].
        unfold sumZ. cbn [tree8 foldr]. lia. }
      rewrite Hs, <-sumZ_app. by rewrite take_drop.
    + set (n2 := (_ - _)%nat).
      assert (0 < n2 < length zs)%nat as Hn2.
      { subst n2. pose proof (Nat.mod_upper_bound (length zs / 2) 8).
        pose proof (Nat.div_mod_eq (length zs) 2).
        pose proof (Nat.mod_upper_bound (length zs) 2). lia. }
      rewrite !IH.
      * rewrite <-sumZ_app. by rewrite take_drop.
      * rewrite length_drop. lia.
      * rewrite length_take. lia.
Qed.

Lemma foldr_Qc_of_Z (zs : list Z) :
  foldr Qcplus (Qc_of_Z 0) (Qc_of_Z <$> zs) = Qc_of_Z (sumZ zs).
Proof.
  induction zs as [|z zs IH]; [done|].
  cbn [fmap list_fmap foldr]. fold (Qc_of_Z <$> zs). rewrite IH.
  apply Qc_of_Z_add.
Qed.

(** While the magnitudes of integer summands add up to less than [2 ^ 53],
    no addition of the scheme rounds. *)
Lemma np_sum_integers (zs : list Z) :
  sumZ (Z.abs <$> zs) < 2 ^ 53 →
  np_sum (FNum ∘ Qc_of_Z <$> zs) = FNum (Qc_of_Z (sumZ zs)).
Proof.
  intros Hb.
  set (R := λ (x : pyfloat) (p : Z * Z),
              Z.abs p.1 ≤ p.2 ∧ (p.2 < 2 ^ 53 → x = FNum (Qc_of_Z p.1))).
  set (addP := λ p q : Z * Z, (p.1 + q.1, p.2 + q.2)).
  set (ps := (λ z, (z, Z.abs z)) <$> zs).
  assert (pairwise_sum addP (0, 0) (length zs) ps =
            (sumZ zs, sumZ (Z.abs <$> zs))) as Hps.
  { pose proof (pairwise_sum_rel (λ (p : Z * Z) z, p.1 = z) addP (0, 0)
                  Z.add 0 eq_refl) as H1.
    pose proof (pairwise_sum_rel (λ (p : Z * Z) z, p.2 = z) addP (0, 0)
                  Z.add 0 eq_refl) as H2.
    specialize (H1 ltac:(by intros ???? <- <-) (length zs) ps zs).
    specialize (H2 ltac:(by intros ???? <- <-) (length zs) ps (Z.abs <$> zs)).
    rewrite pairwise_sum_Z in H1 by done.
    rewrite pairwise_sum_Z in H2 by (by rewrite length_fmap).
    rewrite (surjective_pairing (pairwise_sum addP (0, 0) (length zs) ps)).
    f_equal.
    - apply H1. subst ps. apply Forall2_fmap_l, Forall_Forall2_diag, Forall_forall.
      by intros.
    - apply H2. subst ps. apply Forall2_fmap, Forall_Forall2_diag, Forall_forall.
      by intros. }
  assert (R (pairwise_sum fadd64 fzero (length zs) (FNum ∘ Qc_of_Z <$> zs))
            (pairwise_sum addP (0, 0) (length zs) ps)) as [Habs Hval].
  { apply pairwise_sum_rel.
    - by split.
    - intros x y [v1 w1] [v2 w2] [Ha1 Hv1] [Ha2 Hv2]. unfold R, addP.
      cbn [fst snd] in *. split; [lia|]. intros Hw. rewrite Hv1, Hv2 by lia.
      apply fadd64_Z. lia.
    - subst ps. apply Forall2_fmap, Forall_Forall2_diag, Forall_forall.
      intros z _. split; cbn [fst snd]; [lia|done]. }
  rewrite Hps in Habs, Hval. cbn [fst snd] in Habs, Hval.
  unfold np_sum. rewrite length_fmap, Hval by done.
  change fzero with (FNum (Qc_of_Z 0)). rewrite fadd64_Z by (simpl; lia).
  done.
Qed.

(** On such losses [np.average] is the arithmetic mean rounded once. *)
Lemma np_average_integers (zs : list Z) :
  zs ≠ [] → sumZ (Z.abs <$> zs) < 2 ^ 53 →
  np_average (FNum ∘ Qc_of_Z <$> zs) =
    round64 (arithmetic_mean (Qc_of_Z <$> zs)).
Proof.
  intros Hne Hb. unfold np_average.
  destruct (FNum ∘ Qc_of_Z <$> zs) as [|x xs] eqn:Hl.
  { by destruct zs. }
  rewrite <-Hl. rewrite np_sum_integers by done.
  unfold fdiv_count, arithmetic_mean.
  by rewrite foldr_Qc_of_Z, !length_fmap.
Qed.

(** With [print_freq <> 0], [evaluate_one_epoch] returns; the list it
    averages holds one loss per batch of the loader, in order; no file is
    touched. *)
Lemma evaluate_one_epoch_ok test_loader m config w :
  print_freq config ≠ 0 →
  ∃ w', evaluate_one_epoch test_loader m config w =
          Ok (np_average (batch_loss m <$> test_loader), w') ∧
        fs w' = fs w ∧ writes (trace w') = writes (trace w).
Proof.
  intros Hf. unfold evaluate_one_epoch.
  destruct (eval_batches_ok config m test_loader 0 [] w Hf) as (w1 & -> & Hfs & Hwr).
  simpl. eexists. split; [done|].
  destruct (log_ap_quiet config w1) as [-> ->]. done.
Qed.

(** ** Training *)

Lemma train_batch_clipped config w b l g :
  fgtb (clip_norm config) fzero = true →
  ∃ l' g', train_batch config w b (l, g) = Ok (l', Some g').
Proof.
  intros Hc. unfold train_batch. rewrite Hc.
  destruct (optim_step _ _ _ _ _) as [[m o] sc]. eauto.
Qed.

Lemma train_batch_unclipped config w b l :
  fgtb (clip_norm config) fzero = false →
  train_batch config w b (l, None) = Raise (NameError "grad_total_norm") w.
Proof.
  intros Hc. unfold train_batch. rewrite Hc.
  by destruct (optim_step _ _ _ _ _) as [[m o] sc].
Qed.

Lemma train_batches_ok config w loader : ∀ l g,
  fgtb (clip_norm config) fzero = true →
  ∃ l' g', train_batches config w loader (l, g) = Ok (l', g').
Proof.
  induction loader as [|b rest IH]; intros l g Hc; cbn [train_batches]; [eauto|].
  destruct (train_batch_clipped config w b l g Hc) as (l1 & g1 & ->).
  by apply IH.
Qed.

Lemma train_one_epoch_ok epoch loader config l w :
  fgtb (clip_norm config) fzero = true → val_freq config ≠ 0 →
  ∃ l' w', train_one_epoch epoch loader config l w = Ok (l', w').
Proof.
  intros Hc Hv. unfold train_one_epoch.
  destruct (train_batches_ok config w loader l None Hc) as (l' & g' & ->).
  simpl. rewrite py_mod_ok by done. simpl. eauto.
Qed.

(** C9.  A batch of [train_one_epoch] completes only when
    [config.clip_norm > 0] holds.  When [clip_norm <= 0] and the train loader
    is not empty, the first batch raises [NameError] on [grad_total_norm],
    and so does the epoch, before anything is logged or written. *)
Theorem train_needs_clip_norm config epoch b rest l w :
  (∀ st, train_batch config w b (l, None) = Ok st →
         fgtb (clip_norm config) fzero = true) ∧
  (fleb (clip_norm config) fzero = true →
     train_batch config w b (l, None) = Raise (NameError "grad_total_norm") w ∧
     train_one_epoch epoch (b :: rest) config l w =
       Raise (NameError "grad_total_norm") w).
Proof.
  split.
  - intros st Hst. destruct (fgtb (clip_norm config) fzero) eqn:Hc; [done|].
    by rewrite train_batch_unclipped in Hst.
  - intros Hle. apply fleb_not_fltb in Hle.
    assert (train_batch config w b (l, None) =
              Raise (NameError "grad_total_norm") w) as Hb
      by (by apply train_batch_unclipped).
    split; [done|]. unfold train_one_epoch. cbn [train_batches]. by rewrite Hb.
Qed.

(** ** Traces *)

Lemma trained_epochs_app (t1 t2 : list event) :
  trained_epochs (t1 ++ t2) = trained_epochs t1 ++ trained_epochs t2.
Proof. unfold trained_epochs. apply omap_app. Qed.

Lemma quiet_refl w : quiet w w.
Proof. exists []. by rewrite app_nil_r. Qed.

Lemma quiet_trans w1 w2 w3 : quiet w1 w2 → quiet w2 w3 → quiet w1 w3.
Proof.
  intros (t1 & H1 & Hq1) (t2 & H2 & Hq2). exists (t1 ++ t2).
  rewrite H2, H1, <-app_assoc. split; [done|].
  by rewrite trained_epochs_app, Hq1, Hq2.
Qed.

Lemma quiet_emit ev w : (∀ e, ev ≠ LogEpoch e) → quiet w (emit ev w).
Proof.
  intros Hev. exists [ev]. split; [done|].
  destruct ev; try done. by destruct (Hev epoch).
Qed.

Lemma quiet_write_file p f w : quiet w (write_file p f w).
Proof. by exists [Wrote p]. Qed.

Lemma quiet_trained w w' :
  quiet w w' → trained_epochs (trace w') = trained_epochs (trace w).
Proof.
  intros (tr & -> & Hq). by rewrite trained_epochs_app, Hq, app_nil_r.
Qed.

Lemma quiet_saved_world a epoch l w : quiet w (saved_world a epoch l w).
Proof.
  unfold saved_world.
  eapply quiet_trans; [by apply (quiet_emit LogSaving)|].
  eapply quiet_trans; [apply quiet_write_file|]. by apply quiet_emit.
Qed.

Lemma quiet_save_checkpoint a epoch l save_cur w u w' :
  save_checkpoint a epoch l save_cur w = Ok (u, w') → quiet w w'.
Proof.
  unfold save_checkpoint. destruct save_cur; simpl.
  - intros [= _ <-]. apply quiet_saved_world.
  - destruct (epoch_mod _ epoch (save_freq a)) as [r|]; simpl; [|done].
    case_bool_decide; intros [= _ <-]; [apply quiet_saved_world|].
    eapply quiet_trans; by apply quiet_emit.
Qed.

Lemma quiet_dump a name d w : quiet w (dump a name d w).
Proof.
  unfold dump. eapply quiet_trans; [apply quiet_write_file|]. by apply quiet_emit.
Qed.

Lemma quiet_es_saved_world opt v l e s w : quiet w (es_saved_world opt v l e s w).
Proof.
  unfold es_saved_world. cbv zeta.
  case_bool_decide; [|by apply quiet_emit].
  eapply quiet_trans; [|apply quiet_saved_world].
  eapply quiet_trans; by apply quiet_emit.
Qed.

Lemma quiet_es_call opt v l e s w s' w' :
  es_call opt v l e s w = Ok (s', w') → quiet w w'.
Proof.
  destruct (decide (save_freq opt = 0)) as [Hz|Hf].
  - unfold es_call, es_save_checkpoint. rewrite Hz.
    destruct (best_score s) as [b|]; [|done].
    destruct (fltb _ _); [|done].
    intros [= _ <-]. by apply quiet_emit.
  - destruct (best_score s) as [b|] eqn:Hb.
    + destruct (fltb (fneg v) (fadd b (delta s))) eqn:Hlt.
      * rewrite (es_call_worse _ _ _ _ _ _ b) by done.
        intros [= _ <-]. by apply quiet_emit.
      * rewrite (es_call_better _ _ _ _ _ _ b) by done.
        intros [= _ <-]. apply quiet_es_saved_world.
    + rewrite es_call_first by done.
      intros [= _ <-]. apply quiet_es_saved_world.
Qed.

Lemma quiet_eval_batches config m loader : ∀ i acc w acc' w',
  eval_batches config m i loader acc w = Ok (acc', w') → quiet w w'.
Proof.
  induction loader as [|b rest IH]; intros i acc w acc' w'; simpl.
  - intros [= _ <-]. apply quiet_refl.
  - destruct (py_mod w (i + 1) (print_freq config)) as [r|]; simpl; [|done].
    intros Hrest%IH. eapply quiet_trans; [|exact Hrest].
    case_bool_decide; [by apply quiet_emit|apply quiet_refl].
Qed.

Lemma quiet_log_ap config w : quiet w (log_ap config w).
Proof.
  unfold log_ap. generalize (eval_prefixes config). intros ps. revert w.
  induction ps as [|p ps IH]; intros w; [apply quiet_refl|]. simpl.
  eapply quiet_trans; [|apply IH].
  generalize (ap_iou_thresholds config). intros ts. revert w.
  induction ts as [|t ts IHt]; intros w; [apply quiet_refl|]. simpl.
  eapply quiet_trans; [|apply IHt]. by apply quiet_emit.
Qed.

Lemma quiet_evaluate loader m config w v w' :
  evaluate_one_epoch loader m config w = Ok (v, w') → quiet w w'.
Proof.
  unfold evaluate_one_epoch.
  destruct (eval_batches config m 0 loader [] w) as [[acc w1]|] eqn:Hb;
    simpl; [|done].
  intros [= _ <-]. eapply quiet_trans; [|apply quiet_log_ap].
  by eapply quiet_eval_batches.
Qed.

Lemma quiet_train epoch loader config l w l' w' :
  train_one_epoch epoch loader config l w = Ok (l', w') → quiet w w'.
Proof.
  unfold train_one_epoch.
  destruct (train_batches config w loader (l, None)) as [[l1 g1]|]; simpl; [|done].
  destruct (py_mod w epoch (val_freq config)) as [r|]; simpl; [|done].
  intros [= _ <-]. case_bool_decide; [by apply quiet_emit|apply quiet_refl].
Qed.

(** ** The epoch loop *)

Lemma py_mod_inv {W} (w : W) (a b r : Z) :
  py_mod w a b = Ok r → b ≠ 0 ∧ r = a `mod` b.
Proof. unfold py_mod. case_bool_decide; [done|]. by intros [= <-]. Qed.

Lemma train_one_epoch_inv epoch loader config l w l' w' :
  train_one_epoch epoch loader config l w = Ok (l', w') → val_freq config ≠ 0.
Proof.
  unfold train_one_epoch.
  destruct (train_batches config w loader (l, None)) as [[l1 g1]|]; simpl; [|done].
  destruct (py_mod w epoch (val_freq config)) as [r|] eqn:Hr; simpl; [|done].
  intros _. by apply py_mod_inv in Hr as [? _].
Qed.

(** One pass through the loop body, read backwards from its result: the
    training pass returned and is logged once; on rank 0 at a validation
    epoch the early-stopping object was called with the loss returned by
    [evaluate_one_epoch] on the test loader, and the body asks to leave the
    loop exactly when [early_stop] is then set; in every other case the
    early-stopping object is untouched and the loop goes on. *)
Lemma epoch_body_inv a opt rank tl tel tsl e s f s' :
  epoch_body a opt rank tl tel tsl e s = Ok (f, s') →
  ∃ w1, train_one_epoch e tl a (r_learner s) (r_io s) = Ok (r_learner s', w1) ∧
    trained_epochs (trace (r_io s')) = trained_epochs (trace (r_io s)) ++ [e] ∧
    val_freq a ≠ 0 ∧
    ((rank ≠ 0 ∨ e `mod` val_freq a ≠ 0) ∧ f = Continue ∧ r_es s' = r_es s
     ∨ rank = 0 ∧ e `mod` val_freq a = 0 ∧
       (∃ w2 v w3 w4,
          evaluate_one_epoch tsl (model (r_learner s')) a w2 = Ok (v, w3) ∧
          v = np_average (batch_loss (model (r_learner s')) <$> tsl) ∧
          es_call opt v (r_learner s') e (r_es s)
                  (dump a "val_metrics_dict.pkl" ValMetricsDict w3)
            = Ok (r_es s', w4) ∧
          if early_stop (r_es s')
          then r_io s' = emit LogEarlyStopping (emit (LogValidationLoss v) w4)
          else save_checkpoint a (EpochNum e) (r_learner s') false
                               (emit (LogValidationLoss v) w4)
               = Ok ((), r_io s')) ∧
       f = if early_stop (r_es s') then Break else Continue).
Proof.
  unfold epoch_body.
  destruct (train_one_epoch e tl a (r_learner s) (r_io s)) as [[l' w1]|] eqn:Ht;
    [|done].
  pose proof (train_one_epoch_inv _ _ _ _ _ _ _ Ht) as Hvf.
  pose proof (quiet_train _ _ _ _ _ _ _ Ht) as Hq1.
  cbn [mbind result_bind].
  set (w1' := dump a "train_loss_dict.pkl" TrainLossDict (emit (LogEpoch e) w1)).
  assert (∀ w', quiet w1' w' →
            trained_epochs (trace w') = trained_epochs (trace (r_io s)) ++ [e])
    as Htr.
  { intros w' Hq. rewrite (quiet_trained _ _ Hq). subst w1'.
    rewrite (quiet_trained _ _ (quiet_dump _ _ _ _)).
    unfold emit; simpl. rewrite trained_epochs_app. simpl.
    by rewrite (quiet_trained _ _ Hq1). }
  case_bool_decide as Hrank; [subst rank|]; cycle 1.
  { intros [= <- <-]. exists w1. cbn [r_learner r_es r_io]. split; [done|].
    split; [apply Htr, quiet_refl|]. split; [done|]. left. by split; [left|]. }
  destruct (py_mod w1' e (train_eval_freq a)) as [r|] eqn:Hr;
    cbn [mbind result_bind]; [|done].
  match goal with
  | |- context [mbind _ ?m] => destruct m as [w2|] eqn:Hw2
  end; cbn [mbind result_bind]; [|done].
  assert (quiet w1' w2) as Hq2.
  { destruct (_ || _) in Hw2.
    - destruct (evaluate_one_epoch tel (model l') a w1') as [[v' wv]|] eqn:Hev;
        cbn [mbind result_bind] in Hw2; [|done].
      injection Hw2 as <-. eapply quiet_trans; [|apply quiet_dump].
      by eapply quiet_evaluate.
    - injection Hw2 as <-. apply quiet_refl. }
  clear Hw2 Hr. rewrite py_mod_ok by done. cbn [mbind result_bind].
  case_bool_decide as Hm.
  - destruct (evaluate_one_epoch tsl (model l') a w2) as [[v w3]|] eqn:Hev;
      cbn [mbind result_bind]; [|done].
    pose proof (quiet_evaluate _ _ _ _ _ _ Hev) as Hq3.
    destruct (es_call opt v l' e (r_es s) _) as [[es w4]|] eqn:Hes;
      cbn [mbind result_bind]; [|done].
    pose proof (quiet_es_call _ _ _ _ _ _ _ _ Hes) as Hq4.
    assert (quiet w1' w4) as Hq14.
    { eapply quiet_trans; [exact Hq2|]. eapply quiet_trans; [exact Hq3|].
      eapply quiet_trans; [apply quiet_dump|exact Hq4]. }
    assert (v = np_average (batch_loss (model l') <$> tsl)) as Hv.
    { destruct (decide (print_freq a = 0)) as [Hz|Hpf].
      - unfold evaluate_one_epoch in Hev. destruct tsl as [|b tsl].
        + simpl in Hev. by injection Hev as <- _.
        + cbn [eval_batches] in Hev. by rewrite Hz in Hev.
      - destruct (evaluate_one_epoch_ok tsl (model l') a w2 Hpf) as (w' & Hok & _).
        rewrite Hok in Hev. by injection Hev as <- _. }
    destruct (early_stop es) eqn:Hstop.
    + intros [= <- <-]. exists w1. cbn [r_learner r_es r_io]. split; [done|]. split.
      { apply Htr. eapply quiet_trans; [exact Hq14|].
        eapply quiet_trans; by apply quiet_emit. }
      split; [done|]. right. rewrite Hstop. repeat split; try done.
      by exists w2, v, w3, w4.
    + destruct (save_checkpoint a (EpochNum e) l' false _) as [[[] w5]|] eqn:Hsv;
        cbn [mbind result_bind]; [|done].
      pose proof (quiet_save_checkpoint _ _ _ _ _ _ _ Hsv) as Hq5.
      intros [= <- <-]. exists w1. cbn [r_learner r_es r_io]. split; [done|]. split.
      { apply Htr. eapply quiet_trans; [exact Hq14|].
        eapply quiet_trans; [|exact Hq5]. by apply quiet_emit. }
      split; [done|]. right. rewrite Hstop. repeat split; try done.
      by exists w2, v, w3, w4.
  - destruct (save_checkpoint a (EpochNum e) l' false w2) as [[u w5]|] eqn:Hsv;
      cbn [mbind result_bind]; [|done].
    pose proof (quiet_save_checkpoint _ _ _ _ _ _ _ Hsv) as Hq5.
    intros [= <- <-]. exists w1. cbn [r_learner r_es r_io]. split; [done|]. split.
    { apply Htr. by eapply quiet_trans. }
    split; [done|]. left. by split; [right|].
Qed.

(** When the loss improves at a validation epoch and the loop goes on, the
    checkpoint of that epoch is on disk at the end of the pass: written by
    the early-stopping object when the epoch is not a multiple of
    [save_freq], and by the periodic save when it is. *)
Lemma improved_epoch_checkpoint_on_disk a tl tel tsl e s s' :
  epoch_body a a 0 tl tel tsl e s = Ok (Continue, s') →
  e `mod` val_freq a = 0 →
  (best_score (r_es s) = None ∨
   ∃ b, best_score (r_es s) = Some b ∧
        fltb (fneg (np_average (batch_loss (model (r_learner s')) <$> tsl)))
             (fadd b (delta (r_es s))) = false) →
  fs (r_io s') !! ckpt_path a (EpochNum e) =
    Some (CkptFile (saved_state a (EpochNum e) (r_learner s'))).
Proof.
  intros Hbody Hm Himp.
  pose proof (epoch_body_inv _ _ _ _ _ _ _ _ _ _ Hbody) as (_ & _ & _ & _ & Hc).
  destruct Hc
    as [([?|?] & _) | (_ & _ & (w2 & v & w3 & w4 & _ & -> & Hes & Hio) & Hf)];
    [done..|].
  destruct (early_stop (r_es s')); [done|].
  set (v := np_average _) in *. set (wd := dump _ _ _ _) in *.
  destruct (decide (save_freq a = 0)) as [Hz|Hsf].
  { exfalso. unfold es_call, es_save_checkpoint in Hes. rewrite Hz in Hes.
    destruct Himp as [Hb | (b & Hb & Hlt)]; rewrite Hb in Hes; [done|].
    by rewrite Hlt in Hes. }
  assert (w4 = es_saved_world a v (r_learner s') e (r_es s) wd) as ->.
  { destruct Himp as [Hb | (b & Hb & Hlt)].
    - rewrite es_call_first in Hes by done. by injection Hes as _ <-.
    - rewrite (es_call_better _ _ _ _ _ _ b) in Hes by done.
      by injection Hes as _ <-. }
  rewrite save_checkpoint_periodic in Hio by done. injection Hio as <-.
  case_bool_decide as Hmod.
  - rewrite saved_world_fs. apply lookup_insert_eq.
  - rewrite !fs_emit, es_saved_world_fs.
    rewrite bool_decide_eq_false_2 by done. apply lookup_insert_eq.
Qed.

Lemma epoch_body_returns a opt rank tl tel tsl e s :
  well_configured a opt →
  ∃ f s', epoch_body a opt rank tl tel tsl e s = Ok (f, s').
Proof.
  intros (Hvf & Htf & Hpf & Hsf & Hof & Hclip). unfold epoch_body.
  destruct (train_one_epoch_ok e tl a (r_learner s) (r_io s) Hclip Hvf)
    as (l' & w1 & ->).
  cbn [mbind result_bind].
  case_bool_decide as Hrank; [|eauto].
  rewrite py_mod_ok by done. cbn [mbind result_bind].
  set (w1' := dump a "train_loss_dict.pkl" TrainLossDict (emit (LogEpoch e) w1)).
  assert (∃ w2, (if bool_decide (e `mod` train_eval_freq a = 0)
                    || bool_decide (e = val_freq a)
                 then evaluate_one_epoch tel (model l') a w1' ≫=
                        λ '(_, w), Ok (dump a "train_metrics_dict.pkl"
                                           TrainMetricsDict w)
                 else Ok w1') = Ok w2) as (w2 & ->).
  { destruct (_ || _); [|eauto].
    destruct (evaluate_one_epoch_ok tel (model l') a w1' Hpf) as (wv & -> & _).
    cbn [mbind result_bind]. eauto. }
  cbn [mbind result_bind]. rewrite py_mod_ok by done. cbn [mbind result_bind].
  assert (∀ w, ∃ s', save_checkpoint a (EpochNum e) l' false w ≫=
                       (λ '(_, w0), Ok (Continue, Run l' (r_es s) w0))
                     = Ok (Continue, s')) as Hsave.
  { intros w. rewrite save_checkpoint_periodic by done.
    cbn [mbind result_bind]. eauto. }
  case_bool_decide as Hm.
  - destruct (evaluate_one_epoch_ok tsl (model l') a w2 Hpf) as (w3 & -> & _).
    cbn [mbind result_bind].
    match goal with
    | |- context [es_call opt ?v l' e (r_es s) ?w] =>
        destruct (es_call_returns opt v l' e (r_es s) w Hof) as (es & w4 & ->)
    end.
    cbn [mbind result_bind]. destruct (early_stop es); [eauto|].
    rewrite save_checkpoint_periodic by done. cbn [mbind result_bind]. eauto.
  - destruct (Hsave w2) as (s' & ->). eauto.
Qed.

Lemma epoch_body_break a opt rank tl tel tsl e s f s' :
  epoch_body a opt rank tl tel tsl e s = Ok (f, s') →
  (f = Break → early_stop (r_es s') = true ∧ rank = 0 ∧ e `mod` val_freq a = 0) ∧
  (f = Continue → early_stop (r_es s) = false → early_stop (r_es s') = false).
Proof.
  intros (w1 & _ & _ & _ & Hcase)%epoch_body_inv.
  destruct Hcase as [(_ & -> & ->) | (-> & Hm & _ & ->)]; [done|].
  destruct (early_stop (r_es s')); done.
Qed.

Lemma epoch_loop_returns a opt rank tl tel tsl epochs : ∀ s,
  well_configured a opt →
  ∃ s', epoch_loop a opt rank tl tel tsl epochs s = Ok s'.
Proof.
  induction epochs as [|e rest IH]; intros s Hwf; cbn [epoch_loop]; [eauto|].
  destruct (epoch_body_returns a opt rank tl tel tsl e s Hwf) as (f & s1 & ->).
  cbn [mbind result_bind]. destruct f; eauto.
Qed.

(** A run of the loop that ends with [early_stop] unset has gone through
    every epoch of its list. *)
Lemma epoch_loop_complete a opt rank tl tel tsl epochs : ∀ s s',
  epoch_loop a opt rank tl tel tsl epochs s = Ok s' →
  early_stop (r_es s') = false →
  trained_epochs (trace (r_io s')) = trained_epochs (trace (r_io s)) ++ epochs ∧
  ∀ rest, epoch_loop a opt rank tl tel tsl (epochs ++ rest) s =
          epoch_loop a opt rank tl tel tsl rest s'.
Proof.
  induction epochs as [|e more IH]; intros s s'; cbn [epoch_loop].
  - intros [= <-] _. by rewrite app_nil_r.
  - destruct (epoch_body a opt rank tl tel tsl e s) as [[f s1]|] eqn:Hbody;
      cbn [mbind result_bind]; [|done].
    pose proof (epoch_body_break _ _ _ _ _ _ _ _ _ _ Hbody) as [Hbrk _].
    pose proof (epoch_body_inv _ _ _ _ _ _ _ _ _ _ Hbody) as (_ & _ & Htr & _).
    destruct f.
    + intros Hrest Hstop. destruct (IH _ _ Hrest Hstop) as [Htr' Happ].
      split.
      * rewrite Htr', Htr, <-app_assoc. done.
      * intros rest. cbn [app epoch_loop]. rewrite Hbody.
        cbn [mbind result_bind]. apply Happ.
    + intros [= <-] Hstop. destruct Hbrk as [Hbrk _]; [done|]. congruence.
Qed.

(** The training call of a pass: it is made on the state the pass starts
    in, its learner is the learner the pass ends with, and the pass logs the
    line of the epoch right after it. *)
Lemma epoch_body_pass a opt rank tl tel tsl e s f s' :
  epoch_body a opt rank tl tel tsl e s = Ok (f, s') →
  ∃ w1, train_one_epoch e tl a (r_learner s) (r_io s) = Ok (r_learner s', w1) ∧
        quiet (emit (LogEpoch e) w1) (r_io s').
Proof.
  unfold epoch_body.
  destruct (train_one_epoch e tl a (r_learner s) (r_io s)) as [[l' w1]|] eqn:Ht;
    [|done].
  cbn [mbind result_bind].
  set (w1' := dump a "train_loss_dict.pkl" TrainLossDict (emit (LogEpoch e) w1)).
  assert (quiet (emit (LogEpoch e) w1) w1') as Hq1 by apply quiet_dump.
  case_bool_decide as Hrank; [subst rank|]; cycle 1.
  { intros [= _ <-]. by exists w1. }
  destruct (py_mod w1' e (train_eval_freq a)) as [r|] eqn:Hr;
    cbn [mbind result_bind]; [|done].
  match goal with
  | |- context [mbind _ ?m] => destruct m as [w2|] eqn:Hw2
  end; cbn [mbind result_bind]; [|done].
  assert (quiet (emit (LogEpoch e) w1) w2) as Hq2.
  { eapply quiet_trans; [exact Hq1|]. destruct (_ || _) in Hw2.
    - destruct (evaluate_one_epoch tel (model l') a w1') as [[v' wv]|] eqn:Hev;
        cbn [mbind result_bind] in Hw2; [|done].
      injection Hw2 as <-. eapply quiet_trans; [|apply quiet_dump].
      by eapply quiet_evaluate.
    - injection Hw2 as <-. apply quiet_refl. }
  clear Hw2 Hr.
  destruct (py_mod w2 e (val_freq a)) as [r2|] eqn:Hr2;
    cbn [mbind result_bind]; [|done].
  destruct (bool_decide (r2 = 0)).
  - destruct (evaluate_one_epoch tsl (model l') a w2) as [[v w3]|] eqn:Hev;
      cbn [mbind result_bind]; [|done].
    pose proof (quiet_evaluate _ _ _ _ _ _ Hev) as Hq3.
    destruct (es_call opt v l' e (r_es s) _) as [[es w4]|] eqn:Hes;
      cbn [mbind result_bind]; [|done].
    pose proof (quiet_es_call _ _ _ _ _ _ _ _ Hes) as Hq4.
    assert (quiet (emit (LogEpoch e) w1) (emit (LogValidationLoss v) w4))
      as Hq14.
    { eapply quiet_trans; [exact Hq2|]. eapply quiet_trans; [exact Hq3|].
      eapply quiet_trans; [apply quiet_dump|].
      eapply quiet_trans; [exact Hq4|]. by apply quiet_emit. }
    destruct (early_stop es).
    + intros [= _ <-]. exists w1. cbn [r_learner r_io]. split; [done|].
      eapply quiet_trans; [exact Hq14|]. by apply quiet_emit.
    + destruct (save_checkpoint a (EpochNum e) l' false _) as [[u w5]|] eqn:Hsv;
        cbn [mbind result_bind]; [|done].
      pose proof (quiet_save_checkpoint _ _ _ _ _ _ _ Hsv) as Hq5.
      intros [= _ <-]. exists w1. cbn [r_learner r_io]. split; [done|].
      by eapply quiet_trans.
  - destruct (save_checkpoint a (EpochNum e) l' false w2) as [[u w5]|] eqn:Hsv;
      cbn [mbind result_bind]; [|done].
    pose proof (quiet_save_checkpoint _ _ _ _ _ _ _ Hsv) as Hq5.
    intros [= _ <-]. exists w1. cbn [r_learner r_io]. split; [done|].
    by eapply quiet_trans.
Qed.

(** A run of the loop that ends with [early_stop] unset has called
    [train_one_epoch] for each epoch of its list, each call on the learner
    the pass before ended with. *)
Lemma epoch_loop_trains a opt rank tl tel tsl epochs : ∀ s s',
  epoch_loop a opt rank tl tel tsl epochs s = Ok s' →
  early_stop (r_es s') = false →
  trains a tl epochs s s'.
Proof.
  induction epochs as [|e more IH]; intros s s'; cbn [epoch_loop].
  - intros [= <-] _. constructor.
  - destruct (epoch_body a opt rank tl tel tsl e s) as [[f s1]|] eqn:Hbody;
      cbn [mbind result_bind]; [|done].
    pose proof (epoch_body_break _ _ _ _ _ _ _ _ _ _ Hbody) as [Hbrk _].
    destruct (epoch_body_pass _ _ _ _ _ _ _ _ _ _ Hbody) as (w1 & Ht & Hq).
    destruct f.
    + intros Hrest Hstop. econstructor; [exact Ht|exact Hq|by apply IH].
    + intros [= <-] Hstop. destruct Hbrk as [Hbrk _]; [done|]. congruence.
Qed.

(** A chain over no epoch leaves the state as it is. *)
Lemma trains_nil_inv a tl s s' : trains a tl [] s s' → s' = s.
Proof. by inversion 1. Qed.

(** A pass that asks to leave the loop ends it, whatever epochs remain. *)
Lemma epoch_loop_break a opt rank tl tel tsl e rest s s' :
  epoch_body a opt rank tl tel tsl e s = Ok (Break, s') →
  epoch_loop a opt rank tl tel tsl (e :: rest) s = Ok s'.
Proof. intros Hbody. cbn [epoch_loop]. by rewrite Hbody. Qed.

(** On a rank other than 0 the early-stopping object is never called. *)
Lemma epoch_loop_other_rank a opt rank tl tel tsl epochs : ∀ s s',
  rank ≠ 0 →
  epoch_loop a opt rank tl tel tsl epochs s = Ok s' → r_es s' = r_es s.
Proof.
  induction epochs as [|e more IH]; intros s s' Hrank; cbn [epoch_loop].
  - by intros [= <-].
  - destruct (epoch_body a opt rank tl tel tsl e s) as [[f s1]|] eqn:Hbody;
      cbn [mbind result_bind]; [|done].
    pose proof (epoch_body_inv _ _ _ _ _ _ _ _ _ _ Hbody) as (_ & _ & _ & _ & Hc).
    destruct Hc as [(_ & -> & Hes) | (? & _)]; [|done].
    intros Hrest. by rewrite (IH _ _ Hrank Hrest).
Qed.

Lemma py_range_elem (a b e : Z) : e ∈ py_range a b ↔ a ≤ e < b.
Proof. unfold py_range. rewrite elem_of_seqZ. lia. Qed.

Lemma py_range_NoDup (a b : Z) : NoDup (py_range a b).
Proof. apply NoDup_seqZ. Qed.

Lemma py_range_empty (a b : Z) : b ≤ a → py_range a b = [].
Proof. intros. unfold py_range. apply seqZ_nil. lia. Qed.

(** ** [main] *)

Lemma evaluate_one_epoch_inv loader m config w v w' :
  evaluate_one_epoch loader m config w = Ok (v, w') →
  print_freq config ≠ 0 ∨ loader = [].
Proof.
  destruct (decide (print_freq config = 0)) as [Hz|]; [|by left].
  destruct loader as [|b rest]; [by right|].
  unfold evaluate_one_epoch. cbn [eval_batches]. by rewrite Hz.
Qed.

Lemma evaluate_one_epoch_ok_alt loader m config w :
  print_freq config ≠ 0 ∨ loader = [] →
  ∃ w', evaluate_one_epoch loader m config w =
          Ok (np_average (batch_loss m <$> loader), w') ∧
        quiet w w' ∧
        fs w' = fs w ∧ writes (trace w') = writes (trace w).
Proof.
  intros Hcond.
  assert (∃ w', evaluate_one_epoch loader m config w =
                  Ok (np_average (batch_loss m <$> loader), w') ∧
                fs w' = fs w ∧ writes (trace w') = writes (trace w))
    as (w' & Hev & Hfs & Hwr).
  { destruct Hcond as [Hpf | ->]; [by apply evaluate_one_epoch_ok|].
    unfold evaluate_one_epoch. cbn [eval_batches mbind result_bind fmap list_fmap].
    eexists. split; [done|]. apply log_ap_quiet. }
  exists w'. split; [done|]. split; [|done]. by eapply quiet_evaluate.
Qed.

Lemma resume_inv a l w a1 l1 w1 :
  resume a l w = Ok (a1, l1, w1) →
  quiet w w1 ∧ (a1 = a ∨ ∃ e, a1 = set_start_epoch e a).
Proof.
  unfold resume. destruct (checkpoint_path a) as [p|] eqn:Hp; cycle 1.
  { intros [= <- <- <-]. split; [apply quiet_refl|by left]. }
  case_bool_decide.
  { intros [= <- <- <-]. split; [apply quiet_refl|by left]. }
  destruct (fs w !! p) as [f0|] eqn:Hf; [|done].
  unfold load_checkpoint. rewrite Hp. cbv zeta. rewrite fs_emit, Hf.
  destruct f0 as [ck|]; [|done]. destruct (ck_epoch ck) as [e|]; [|done].
  intros [= <- <- <-]. split; [|right; by exists (e + 1)].
  eapply quiet_trans; by apply quiet_emit.
Qed.

Lemma well_configured_resume a opt a1 :
  well_configured a opt → (a1 = a ∨ ∃ e, a1 = set_start_epoch e a) →
  well_configured a1 opt.
Proof. intros Hwf [-> | (e & ->)]; done. Qed.

(** The tail of [main], after the loop: the final evaluation and the save
    of ['last']. *)
Lemma main_tail a opt rank tl tel tsl l w a1 l1 w1 s :
  resume a l w = Ok (a1, l1, w1) →
  epoch_loop a1 opt rank tl tel tsl
             (py_range (start_epoch a1) (max_epoch a1 + 1))
             (Run l1 (es_init 20 true fzero "checkpoint.pt") w1) = Ok s →
  print_freq a1 ≠ 0 ∨ tsl = [] →
  ∃ wE,
    evaluate_one_epoch tsl (model (r_learner s)) a1 (r_io s) =
      Ok (np_average (batch_loss (model (r_learner s)) <$> tsl), wE) ∧
    main a opt rank tl tel tsl l w =
      Ok (path_join (log_dir a1) "ckpt_epoch_last.pth",
          Run (r_learner s) (r_es s)
              (emit (LogSavedIn (path_join (log_dir a1) "ckpt_epoch_last.pth"))
                    (saved_world a1 EpochLast (r_learner s) wE))) ∧
    quiet (r_io s) wE ∧ fs wE = fs (r_io s) ∧
    writes (trace wE) = writes (trace (r_io s)).
Proof.
  intros Hres Hloop Hpf. unfold main. rewrite Hres.
  cbn [mbind result_bind]. rewrite Hloop. cbn [mbind result_bind].
  destruct (evaluate_one_epoch_ok_alt tsl (model (r_learner s)) a1 (r_io s) Hpf)
    as (wE & Hev & Hq & Hfs & Hwr).
  exists wE. rewrite Hev. cbn [mbind result_bind].
  by rewrite save_checkpoint_cur.
Qed.

(** C2.  Let the loop of [main] reach epoch [e] on rank 0 with [early_stop]
    unset, let [e] be divisible by [val_freq], and let [early_stop] be set
    after the pass of epoch [e].  Then the loop ends there, in the state that
    pass left: [main] returns, the epochs trained are those up to [e] and
    none of the later ones, the final evaluation over the test loader is
    performed on the learner of epoch [e] in the world the loop left, the
    checkpoint [ckpt_epoch_last.pth] is written with that learner in the
    world the evaluation left, which is how the world of the result comes
    about, and the path of the checkpoint is the result. *)
Theorem early_stop_ends_main a opt tl tel tsl l w a1 l1 w1 before e after s1 f sb :
  resume a l w = Ok (a1, l1, w1) →
  py_range (start_epoch a1) (max_epoch a1 + 1) = before ++ e :: after →
  epoch_loop a1 opt 0 tl tel tsl before
             (Run l1 (es_init 20 true fzero "checkpoint.pt") w1) = Ok s1 →
  early_stop (r_es s1) = false →
  epoch_body a1 opt 0 tl tel tsl e s1 = Ok (f, sb) →
  e `mod` val_freq a1 = 0 →
  early_stop (r_es sb) = true →
  ∃ wE w',
    epoch_loop a1 opt 0 tl tel tsl (before ++ e :: after)
               (Run l1 (es_init 20 true fzero "checkpoint.pt") w1) = Ok sb ∧
    evaluate_one_epoch tsl (model (r_learner sb)) a1 (r_io sb) =
      Ok (np_average (batch_loss (model (r_learner sb)) <$> tsl), wE) ∧
    main a opt 0 tl tel tsl l w =
      Ok (path_join (log_dir a1) "ckpt_epoch_last.pth",
          Run (r_learner sb) (r_es sb) w') ∧
    w' = emit (LogSavedIn (path_join (log_dir a1) "ckpt_epoch_last.pth"))
              (saved_world a1 EpochLast (r_learner sb) wE) ∧
    trained_epochs (trace w') = trained_epochs (trace w) ++ before ++ [e] ∧
    fs w' !! path_join (log_dir a1) "ckpt_epoch_last.pth" =
      Some (CkptFile (saved_state a1 EpochLast (r_learner sb))) ∧
    writes (trace w') =
      writes (trace (r_io sb)) ++ [path_join (log_dir a1) "ckpt_epoch_last.pth"].
Proof.
  intros Hres Hrange Hbefore Hs1 Hbody Hm Hstop.
  destruct (epoch_loop_complete _ _ _ _ _ _ _ _ _ Hbefore Hs1) as [Htr1 Happ].
  pose proof (epoch_body_inv _ _ _ _ _ _ _ _ _ _ Hbody)
    as (wt & _ & Htr2 & Hvf & Hcase).
  destruct Hcase as [([?|?] & _) | (_ & _ & (w2 & v & w3 & w4 & Hev & _) & Hf)];
    [done..|].
  rewrite Hstop in Hf. subst f.
  assert (epoch_loop a1 opt 0 tl tel tsl (before ++ e :: after)
            (Run l1 (es_init 20 true fzero "checkpoint.pt") w1) = Ok sb) as Hloop.
  { rewrite Happ. by apply epoch_loop_break. }
  apply evaluate_one_epoch_inv in Hev.
  rewrite <-Hrange in Hloop.
  destruct (main_tail _ _ _ _ _ _ _ _ _ _ _ _ Hres Hloop Hev)
    as (wE & HevE & Hmain & Hq & Hfs & Hwr).
  rewrite Hrange in Hloop.
  eexists wE, _. split; [done|]. split; [done|]. split; [exact Hmain|].
  split; [done|]. split; [|split].
  - rewrite (quiet_trained (r_io sb)).
    + rewrite Htr2, Htr1. cbn [r_io].
      destruct (resume_inv _ _ _ _ _ _ Hres) as [Hq0 _].
      by rewrite (quiet_trained _ _ Hq0), <-app_assoc.
    + eapply quiet_trans; [exact Hq|].
      eapply quiet_trans; [apply quiet_saved_world|]. by apply quiet_emit.
  - rewrite fs_emit, saved_world_fs. apply lookup_insert_eq.
  - rewrite writes_emit by done. by rewrite saved_world_writes, Hwr.
Qed.

(** C7 (amended).  [evaluate_one_epoch] collects one loss per batch of the
    loader it is given and returns, as second result, [np.average] of them:
    the sum of the losses computed in binary64 divided by their number and
    rounded again, which is the arithmetic mean up to this rounding; it is
    the arithmetic mean rounded once when the losses are integers whose
    magnitudes add up to less than [2 ^ 53].  On rank 0 at a validation epoch
    the early-stopping object is called with that value over the test
    loader, taken on the model just trained. *)
Theorem validation_loss_is_mean a opt tl tel tsl :
  (∀ m w, print_freq a ≠ 0 →
     ∃ w', evaluate_one_epoch tsl m a w =
             Ok (np_average (batch_loss m <$> tsl), w') ∧
           length (batch_loss m <$> tsl) = length tsl) ∧
  (∀ m, tsl ≠ [] →
     np_average (batch_loss m <$> tsl) =
       fdiv_count (np_sum (batch_loss m <$> tsl)) (length tsl)) ∧
  (∀ m zs, batch_loss m <$> tsl = FNum ∘ Qc_of_Z <$> zs → zs ≠ [] →
     sumZ (Z.abs <$> zs) < 2 ^ 53 →
     np_average (batch_loss m <$> tsl) =
       round64 (arithmetic_mean (Qc_of_Z <$> zs))) ∧
  (∀ e s f s',
     epoch_body a opt 0 tl tel tsl e s = Ok (f, s') →
     e `mod` val_freq a = 0 →
     ∃ w w',
       es_call opt (np_average (batch_loss (model (r_learner s')) <$> tsl))
               (r_learner s') e (r_es s) w = Ok (r_es s', w')).
Proof.
  split; [|split; [|split]].
  - intros m w Hpf.
    destruct (evaluate_one_epoch_ok tsl m a w Hpf) as (w' & Hev & _).
    exists w'. split; [done|]. apply length_fmap.
  - intros m Hne. rewrite <-(length_fmap (batch_loss m) tsl).
    by destruct tsl.
  - intros m zs -> Hne Hb. by apply np_average_integers.
  - intros e s f s' Hbody Hm.
    pose proof (epoch_body_inv _ _ _ _ _ _ _ _ _ _ Hbody) as (_ & _ & _ & _ & Hc).
    destruct Hc
      as [([?|?] & _) | (_ & _ & (w2 & v & w3 & w4 & _ & -> & Hes & _) & _)];
      [done..|].
    eauto.
Qed.

(** What a returning [main] has done, read backwards from its result. *)
Lemma main_inv a opt rank tl tel tsl l w a1 l1 w1 p s' :
  resume a l w = Ok (a1, l1, w1) →
  main a opt rank tl tel tsl l w = Ok (p, s') →
  ∃ s, epoch_loop a1 opt rank tl tel tsl
                  (py_range (start_epoch a1) (max_epoch a1 + 1))
                  (Run l1 (es_init 20 true fzero "checkpoint.pt") w1) = Ok s ∧
       r_es s' = r_es s ∧ quiet (r_io s) (r_io s').
Proof.
  intros Hres Hmain.
  destruct (epoch_loop a1 opt rank tl tel tsl
              (py_range (start_epoch a1) (max_epoch a1 + 1))
              (Run l1 (es_init 20 true fzero "checkpoint.pt") w1))
    as [s|] eqn:Hloop; cycle 1.
  { unfold main in Hmain. rewrite Hres in Hmain.
    cbn [mbind result_bind] in Hmain. by rewrite Hloop in Hmain. }
  assert (print_freq a1 ≠ 0 ∨ tsl = []) as Hpf.
  { unfold main in Hmain. rewrite Hres in Hmain.
    cbn [mbind result_bind] in Hmain. rewrite Hloop in Hmain.
    cbn [mbind result_bind] in Hmain.
    destruct (evaluate_one_epoch tsl (model (r_learner s)) a1 (r_io s))
      as [[v wE]|] eqn:Hev; [|done].
    by eapply evaluate_one_epoch_inv. }
  destruct (main_tail _ _ _ _ _ _ _ _ _ _ _ _ Hres Hloop Hpf)
    as (wE & _ & Hmain' & Hq & _).
  rewrite Hmain' in Hmain. injection Hmain as _ <-.
  exists s. split; [done|]. split; [done|]. cbn [r_io].
  eapply quiet_trans; [exact Hq|].
  eapply quiet_trans; [apply quiet_saved_world|]. by apply quiet_emit.
Qed.

(** The learner [main] ends with is the learner its loop ended with. *)
Lemma main_inv_learner a opt rank tl tel tsl l w a1 l1 w1 p s' :
  resume a l w = Ok (a1, l1, w1) →
  main a opt rank tl tel tsl l w = Ok (p, s') →
  ∃ s, epoch_loop a1 opt rank tl tel tsl
                  (py_range (start_epoch a1) (max_epoch a1 + 1))
                  (Run l1 (es_init 20 true fzero "checkpoint.pt") w1) = Ok s ∧
       r_learner s' = r_learner s.
Proof.
  intros Hres Hmain.
  destruct (main_inv _ _ _ _ _ _ _ _ _ _ _ _ _ Hres Hmain) as (s & Hloop & _).
  exists s. split; [done|].
  unfold main in Hmain. rewrite Hres in Hmain.
  cbn [mbind result_bind] in Hmain. rewrite Hloop in Hmain.
  cbn [mbind result_bind] in Hmain.
  destruct (evaluate_one_epoch tsl (model (r_learner s)) a1 (r_io s))
    as [[v wE]|]; cbn [mbind result_bind] in Hmain; [|done].
  destruct (save_checkpoint a1 EpochLast (r_learner s) true wE)
    as [[u wS]|]; cbn [mbind result_bind] in Hmain; [|done].
  by injection Hmain as _ <-.
Qed.

(** What "trained" means for a returning [main] that did not stop early:
    the chain of training calls over the whole range, from the learner and
    the world the resume step left, ends with the learner [main] ends
    with. *)
Lemma main_trains a opt rank tl tel tsl l w a1 l1 w1 p s' :
  resume a l w = Ok (a1, l1, w1) →
  main a opt rank tl tel tsl l w = Ok (p, s') →
  early_stop (r_es s') = false →
  ∃ s, trains a1 tl (py_range (start_epoch a1) (max_epoch a1 + 1))
              (Run l1 (es_init 20 true fzero "checkpoint.pt") w1) s ∧
       r_learner s' = r_learner s ∧ r_es s' = r_es s ∧
       quiet (r_io s) (r_io s').
Proof.
  intros Hres Hmain Hstop.
  destruct (main_inv _ _ _ _ _ _ _ _ _ _ _ _ _ Hres Hmain) as (s & Hloop & Hes & Hq).
  destruct (main_inv_learner _ _ _ _ _ _ _ _ _ _ _ _ _ Hres Hmain)
    as (s2 & Hloop2 & Hl).
  rewrite Hloop in Hloop2. injection Hloop2 as <-.
  exists s. split; [|done].
  apply (epoch_loop_trains _ _ _ _ _ _ _ _ _ Hloop). by rewrite <-Hes.
Qed.

Lemma main_returns a opt rank tl tel tsl l w a1 l1 w1 :
  resume a l w = Ok (a1, l1, w1) → well_configured a opt →
  ∃ p s', main a opt rank tl tel tsl l w = Ok (p, s').
Proof.
  intros Hres Hwf.
  destruct (resume_inv _ _ _ _ _ _ Hres) as [_ Ha1].
  pose proof (well_configured_resume _ _ _ Hwf Ha1) as Hwf1.
  destruct (epoch_loop_returns a1 opt rank tl tel tsl
              (py_range (start_epoch a1) (max_epoch a1 + 1))
              (Run l1 (es_init 20 true fzero "checkpoint.pt") w1) Hwf1)
    as (s & Hloop).
  assert (print_freq a1 ≠ 0 ∨ tsl = []) as Hpf by (left; apply Hwf1).
  destruct (main_tail _ _ _ _ _ _ _ _ _ _ _ _ Hres Hloop Hpf)
    as (wE & _ & Hmain & _).
  eauto.
Qed.

(** C8.  Once the resume step has returned: a well-configured [main]
    returns; and whenever [main] returns with [early_stop] unset (always so
    on a rank other than 0), [train_one_epoch] has been called once for each
    epoch of [range(start_epoch, max_epoch + 1)], in order, that is for the
    integers from [start_epoch] to [max_epoch], each once: every call on the
    learner the pass before ended with, the first on the learner the resume
    step left, and the learner of the last call is the one [main] ends with;
    the lines of the epochs in the log are those of the range.  When
    [start_epoch > max_epoch] no call is made and the learner is
    untouched. *)
Theorem main_trains_every_epoch a opt rank tl tel tsl l w a1 l1 w1 :
  resume a l w = Ok (a1, l1, w1) →
  (well_configured a opt →
     ∃ p s', main a opt rank tl tel tsl l w = Ok (p, s')) ∧
  (∀ p s', main a opt rank tl tel tsl l w = Ok (p, s') →
     (early_stop (r_es s') = false →
        trained_epochs (trace (r_io s')) =
          trained_epochs (trace w) ++
            py_range (start_epoch a1) (max_epoch a1 + 1) ∧
        ∃ s, trains a1 tl (py_range (start_epoch a1) (max_epoch a1 + 1))
                    (Run l1 (es_init 20 true fzero "checkpoint.pt") w1) s ∧
             r_learner s' = r_learner s ∧ quiet (r_io s) (r_io s')) ∧
     (rank ≠ 0 → early_stop (r_es s') = false) ∧
     (max_epoch a1 < start_epoch a1 →
        trained_epochs (trace (r_io s')) = trained_epochs (trace w) ∧
        r_learner s' = l1)) ∧
  (∀ e, e ∈ py_range (start_epoch a1) (max_epoch a1 + 1) ↔
        start_epoch a1 ≤ e ≤ max_epoch a1) ∧
  NoDup (py_range (start_epoch a1) (max_epoch a1 + 1)).
Proof.
  intros Hres. split; [by apply (main_returns _ _ _ _ _ _ _ _ a1 l1 w1)|].
  split; [|split; [intros e; rewrite py_range_elem; lia|apply py_range_NoDup]].
  intros p s' Hmain.
  destruct (main_inv _ _ _ _ _ _ _ _ _ _ _ _ _ Hres Hmain) as (s & Hloop & Hes & Hq).
  destruct (resume_inv _ _ _ _ _ _ Hres) as [Hq0 _].
  assert (early_stop (r_es s') = false →
          trained_epochs (trace (r_io s')) =
            trained_epochs (trace w) ++
              py_range (start_epoch a1) (max_epoch a1 + 1)) as Hall.
  { rewrite Hes. intros Hstop.
    destruct (epoch_loop_complete _ _ _ _ _ _ _ _ _ Hloop Hstop) as [Htr _].
    rewrite (quiet_trained _ _ Hq), Htr. cbn [r_io].
    by rewrite (quiet_trained _ _ Hq0). }
  split; [|split].
  - intros Hstop. split; [by apply Hall|].
    destruct (main_trains _ _ _ _ _ _ _ _ _ _ _ _ _ Hres Hmain Hstop)
      as (s2 & Htrains & Hl & _ & Hq2).
    by exists s2.
  - intros Hrank. rewrite Hes.
    by rewrite (epoch_loop_other_rank _ _ _ _ _ _ _ _ _ Hrank Hloop).
  - intros Hlt.
    assert (py_range (start_epoch a1) (max_epoch a1 + 1) = []) as Hnil
      by (apply py_range_empty; lia).
    destruct (main_inv_learner _ _ _ _ _ _ _ _ _ _ _ _ _ Hres Hmain)
      as (s2 & Hloop2 & Hl).
    rewrite Hnil in Hloop, Hloop2, Hall. cbn [epoch_loop] in Hloop, Hloop2.
    injection Hloop as <-. injection Hloop2 as <-.
    split; [|done]. rewrite Hall by (by rewrite Hes). apply app_nil_r.
Qed.

(** * Further properties of the driver *)

(** ** More on [EarlyStopping] *)

(** A returning call, read backwards: which branch it took. *)
Lemma es_call_inv opt v l e s w s' w' :
  es_call opt v l e s w = Ok (s', w') →
  (best_score s = None ∧
   s' = set_val_loss_min v (set_best_score (fneg v) s)) ∨
  (∃ b, best_score s = Some b ∧ fltb (fneg v) (fadd b (delta s)) = true ∧
        s' = (let s1 := set_counter (counter s + 1) s in
              if bool_decide (patience s ≤ counter s + 1)
              then set_early_stop s1 else s1)) ∨
  (∃ b, best_score s = Some b ∧ fltb (fneg v) (fadd b (delta s)) = false ∧
        s' = set_counter 0 (set_val_loss_min v (set_best_score (fneg v) s))).
Proof.
  intros Hcall. destruct (best_score s) as [b|] eqn:Hb.
  - destruct (fltb (fneg v) (fadd b (delta s))) eqn:Hlt.
    + rewrite (es_call_worse _ _ _ _ _ _ b) in Hcall by done.
      injection Hcall as <- _. right; left. by exists b.
    + destruct (decide (save_freq opt = 0)) as [Hz|Hf].
      { unfold es_call, es_save_checkpoint in Hcall.
        by rewrite Hb, Hlt, Hz in Hcall. }
      rewrite (es_call_better _ _ _ _ _ _ b) in Hcall by done.
      injection Hcall as <- _. right; right. by exists b.
  - destruct (decide (save_freq opt = 0)) as [Hz|Hf].
    { unfold es_call, es_save_checkpoint in Hcall.
      by rewrite Hb, Hz in Hcall. }
    rewrite es_call_first in Hcall by done.
    injection Hcall as <- _. by left.
Qed.

(** X1.  Calls whose score [-val_loss] stays below the stored score plus
    [delta] only count: after [n] of them in a row [counter] has grown
    by [n], [best_score] and the files are as before, nothing was written,
    and [early_stop] has been set exactly if [counter] reached [patience] on
    the way.  No condition on [save_freq] is needed. *)
Theorem es_consecutive_worse opt l calls : ∀ s w b,
  best_score s = Some b →
  Forall (λ c : pyfloat * Z, fltb (fneg c.1) (fadd b (delta s)) = true) calls →
  ∃ s' w', es_calls opt l calls s w = Ok (s', w') ∧
    best_score s' = Some b ∧
    counter s' = counter s + Z.of_nat (length calls) ∧
    early_stop s' =
      early_stop s ||
      (bool_decide (calls ≠ []) &&
       bool_decide (patience s ≤ counter s + Z.of_nat (length calls))) ∧
    patience s' = patience s ∧ delta s' = delta s ∧
    val_loss_min s' = val_loss_min s ∧
    fs w' = fs w ∧ writes (trace w') = writes (trace w).
Proof.
  induction calls as [|[v e] rest IH]; intros s w b Hb Hall.
  - exists s, w. cbn [es_calls length]. rewrite Z.add_0_r.
    rewrite bool_decide_eq_false_2 by (by intros []).
    by rewrite orb_false_r.
  - apply Forall_cons in Hall as [Hv Hrest]. cbn [es_calls fst] in *.
    rewrite (es_call_worse opt v l e s w b Hb Hv). cbn [mbind result_bind].
    set (s1 := let s1 := set_counter (counter s + 1) s in
               if bool_decide (patience s ≤ counter s + 1)
               then set_early_stop s1 else s1).
    assert (best_score s1 = Some b ∧ counter s1 = counter s + 1 ∧
            patience s1 = patience s ∧ delta s1 = delta s ∧
            val_loss_min s1 = val_loss_min s ∧
            early_stop s1 =
              early_stop s || bool_decide (patience s ≤ counter s + 1))
      as (Hb1 & Hc1 & Hp1 & Hd1 & Hv1 & He1).
    { subst s1. cbv zeta.
      destruct (bool_decide (patience s ≤ counter s + 1)); simpl;
        rewrite ?orb_true_r, ?orb_false_r; repeat split; done. }
    rewrite <-Hd1 in Hrest.
    destruct (IH s1 (emit (PrintCounter (counter s + 1) (patience s)) w) b
                 Hb1 Hrest)
      as (s' & w' & -> & Hb' & Hc' & He' & Hp' & Hd' & Hv' & Hfs & Hwr).
    exists s', w'. split; [done|]. split; [done|].
    split; [rewrite Hc', Hc1; cbn [length]; lia|].
    split; [|split; [congruence|]; split; [congruence|]; split; [congruence|];
              split; [by rewrite Hfs|]; rewrite Hwr; by apply writes_emit].
    rewrite He', He1, Hp1, Hc1.
    rewrite (bool_decide_eq_true_2 (_ :: _ ≠ [])) by done.
    cbn [length andb]. rewrite <-orb_assoc. f_equal.
    destruct rest as [|c rest'].
    + rewrite (bool_decide_eq_false_2 (@nil (pyfloat * Z) ≠ []))
        by (by intros []).
      cbn [length andb]. rewrite orb_false_r. apply bool_decide_ext. lia.
    + rewrite (bool_decide_eq_true_2 (_ :: _ ≠ [])) by done. cbn [andb].
      destruct (decide (patience s ≤ counter s + 1)) as [Hp|Hp].
      * rewrite !bool_decide_eq_true_2 by (cbn [length]; lia). done.
      * rewrite (bool_decide_eq_false_2 _ Hp). cbn [orb].
        apply bool_decide_ext. cbn [length]. lia.
Qed.

(** X2.  From construction on, [val_loss_min] and [best_score] tell the
    same thing: before the first call [best_score] is [None] and
    [val_loss_min] is infinite, afterwards [best_score] is [-val_loss_min],
    whatever calls are made. *)
Theorem es_best_mirrors_min opt l calls : ∀ s w s' w',
  match best_score s with
  | None => val_loss_min s = np_Inf
  | Some b => b = fneg (val_loss_min s)
  end →
  es_calls opt l calls s w = Ok (s', w') →
  match best_score s' with
  | None => val_loss_min s' = np_Inf ∧ calls = []
  | Some b => b = fneg (val_loss_min s')
  end.
Proof.
  induction calls as [|[v e] rest IH]; intros s w s' w' Hs; cbn [es_calls].
  - intros [= <- <-]. by destruct (best_score s).
  - destruct (es_call opt v l e s w) as [[s1 w1]|] eqn:Hcall;
      cbn [mbind result_bind]; [|done].
    intros Hrest.
    assert (∃ b, best_score s1 = Some b ∧ b = fneg (val_loss_min s1))
      as (b1 & Hb1 & Hm1).
    { apply es_call_inv in Hcall
        as [[Hb ->] | [(b & Hb & _ & ->) | (b & Hb & _ & ->)]].
      - by eexists.
      - rewrite Hb in Hs. exists b. cbv zeta. by case_bool_decide.
      - by eexists. }
    specialize (IH s1 w1 s' w'). rewrite Hb1 in IH.
    specialize (IH Hm1 Hrest). destruct (best_score s') eqn:Hb'; [done|].
    destruct IH as [_ ->]. cbn [es_calls] in Hrest.
    injection Hrest as <- _. congruence.
Qed.

(** X3.  A NaN is never below a threshold and no score is below a NaN
    threshold: a call with a NaN loss, or on an object whose stored score is
    NaN, takes the improvement branch whatever the other value is, so
    [counter] goes back to 0 and [early_stop] is left as it was. *)
Theorem es_nan_counts_as_improvement opt v l e s w b :
  save_freq opt ≠ 0 →
  best_score s = Some b →
  v = FNaN ∨ b = FNaN →
  ∃ s' w', es_call opt v l e s w = Ok (s', w') ∧
    counter s' = 0 ∧ best_score s' = Some (fneg v) ∧
    val_loss_min s' = v ∧ early_stop s' = early_stop s.
Proof.
  intros Hf Hb Hnan.
  assert (fltb (fneg v) (fadd b (delta s)) = false) as Hlt.
  { destruct Hnan as [-> | ->]; [done|]. by destruct (fneg v). }
  rewrite (es_call_better _ _ _ _ _ _ b) by done. by eexists _, _.
Qed.

(** ** How a training pass and an evaluation end *)

Lemma train_batches_unclipped config w b rest l :
  fgtb (clip_norm config) fzero = false →
  train_batches config w (b :: rest) (l, None) =
    Raise (NameError "grad_total_norm") w.
Proof.
  intros Hc. cbn [train_batches]. by rewrite train_batch_unclipped.
Qed.

(** X4.  [train_one_epoch] returns exactly when [val_freq] is not 0 and
    either clipping is on or the loader is empty; it then writes no file and
    logs the statistics line exactly at a validation epoch, and an empty
    loader leaves the learner as it was.  When it raises, nothing has been
    logged or written, and the unbound [grad_total_norm] is met before the
    division by a zero [val_freq]. *)
Theorem train_one_epoch_outcome epoch loader config l w :
  match train_one_epoch epoch loader config l w with
  | Ok (l', w') =>
      (fgtb (clip_norm config) fzero = true ∨ loader = []) ∧
      val_freq config ≠ 0 ∧
      (loader = [] → l' = l) ∧
      w' = (if bool_decide (epoch `mod` val_freq config = 0)
            then emit (LogTrainStats epoch) w else w)
  | Raise ex w' =>
      w' = w ∧
      (ex = NameError "grad_total_norm" ∧
       fgtb (clip_norm config) fzero = false ∧ loader ≠ []
       ∨ ex = ZeroDivisionError ∧ val_freq config = 0 ∧
         (fgtb (clip_norm config) fzero = true ∨ loader = []))
  end.
Proof.
  unfold train_one_epoch.
  destruct (fgtb (clip_norm config) fzero) eqn:Hc.
  - destruct (train_batches_ok config w loader l None Hc) as (l' & g' & Hb).
    rewrite Hb. cbn [mbind result_bind].
    assert (loader = [] → l' = l) as Hnil.
    { intros ->. cbn [train_batches] in Hb. by injection Hb as <- _. }
    destruct (decide (val_freq config = 0)) as [Hz|Hvf].
    + rewrite Hz. cbn. split; [done|]. right. repeat split; try done. by left.
    + rewrite py_mod_ok by done. cbn [mbind result_bind].
      split; [by left|]. done.
  - destruct loader as [|b rest].
    + cbn [train_batches mbind result_bind].
      destruct (decide (val_freq config = 0)) as [Hz|Hvf].
      * rewrite Hz. cbn. split; [done|]. right. repeat split; try done.
        by right.
      * rewrite py_mod_ok by done. cbn [mbind result_bind].
        split; [by right|]. done.
    + rewrite train_batches_unclipped by done. cbn [mbind result_bind].
      split; [done|]. left. done.
Qed.

Lemma eval_batches_trace config m loader : ∀ batch_idx valid_losses w,
  print_freq config ≠ 0 →
  ∃ w', eval_batches config m batch_idx loader valid_losses w =
          Ok (valid_losses ++ (batch_loss m <$> loader), w') ∧
        fs w' = fs w ∧
        trace w' = trace w ++
          (LogEvalProgress <$>
             filter (λ i, i `mod` print_freq config = 0)
                    (seqZ (batch_idx + 1) (Z.of_nat (length loader)))).
Proof.
  induction loader as [|b rest IH]; intros i acc w Hf.
  - exists w. cbn [eval_batches length]. rewrite seqZ_nil by done.
    by rewrite !app_nil_r.
  - cbn [eval_batches]. rewrite py_mod_ok by done. cbn [mbind result_bind].
    set (w1 := if bool_decide _ then _ else w).
    destruct (IH (i + 1) (acc ++ [batch_loss m b]) w1 Hf) as (w' & -> & Hfs & Htr).
    exists w'. rewrite <-app_assoc. split; [done|].
    rewrite seqZ_cons by (cbn [length]; lia).
    replace (Z.pred (Z.of_nat (length (b :: rest))))
      with (Z.of_nat (length rest)) by (cbn [length]; lia).
    replace (Z.succ (i + 1)) with (i + 1 + 1) by lia.
    rewrite Htr, Hfs. subst w1. rewrite filter_cons.
    destruct (decide ((i + 1) `mod` print_freq config = 0)) as [Hm|Hm].
    + rewrite bool_decide_eq_true_2 by done. split; [done|].
      unfold emit; cbn [trace fmap list_fmap]. by rewrite <-app_assoc.
    + rewrite bool_decide_eq_false_2 by done. done.
Qed.

Lemma log_ap_trace config w :
  trace (log_ap config w) =
    trace w ++ (eval_prefixes config ≫= λ prefix,
                  LogAP prefix <$> ap_iou_thresholds config).
Proof.
  unfold log_ap. generalize (eval_prefixes config). intros ps. revert w.
  induction ps as [|p ps IH]; intros w.
  - cbn. by rewrite app_nil_r.
  - cbn [foldl]. rewrite IH. rewrite bind_cons, app_assoc. f_equal.
    generalize (ap_iou_thresholds config). intros ts. revert w.
    induction ts as [|t ts IHt]; intros w.
    + cbn. by rewrite app_nil_r.
    + cbn [foldl]. rewrite IHt. unfold emit; cbn [trace].
      by rewrite <-app_assoc.
Qed.

(** X5.  The collaborators apart, [evaluate_one_epoch] raises only by a
    zero [print_freq] on a non-empty loader, at the first batch and before
    anything is logged; in every other case it returns [np.average] of the
    batch losses, which is NaN for an empty loader, and leaves the files as
    they are. *)
Theorem evaluate_one_epoch_outcome loader m config w :
  match evaluate_one_epoch loader m config w with
  | Ok (v, w') =>
      (print_freq config ≠ 0 ∨ loader = []) ∧
      v = np_average (batch_loss m <$> loader) ∧
      (loader = [] → v = FNaN) ∧
      fs w' = fs w ∧ writes (trace w') = writes (trace w)
  | Raise ex w' =>
      ex = ZeroDivisionError ∧ w' = w ∧ print_freq config = 0 ∧ loader ≠ []
  end.
Proof.
  destruct (decide (print_freq config = 0)) as [Hz|Hpf].
  - destruct loader as [|b rest].
    + destruct (evaluate_one_epoch_ok_alt [] m config w) as (w' & -> & _ & Hfs & Hwr);
        [by right|].
      split; [by right|]. done.
    + unfold evaluate_one_epoch. cbn [eval_batches]. rewrite Hz.
      cbn. done.
  - destruct (evaluate_one_epoch_ok_alt loader m config w)
      as (w' & -> & _ & Hfs & Hwr); [by left|].
    split; [by left|]. split; [done|]. split; [by intros ->|]. done.
Qed.

(** X6.  The progress blocks and the average-precision headers that an
    evaluation logs, with [print_freq] not 0: one progress block after each
    batch whose number (from 1) is a multiple of [print_freq], then one
    header per prefix and IoU threshold, prefix by prefix. *)
Theorem evaluate_one_epoch_trace loader m config w :
  print_freq config ≠ 0 →
  ∃ v w', evaluate_one_epoch loader m config w = Ok (v, w') ∧
    trace w' =
      trace w ++
      (LogEvalProgress <$>
         filter (λ i, i `mod` print_freq config = 0)
                (seqZ 1 (Z.of_nat (length loader)))) ++
      (eval_prefixes config ≫= λ prefix,
         LogAP prefix <$> ap_iou_thresholds config).
Proof.
  intros Hpf. unfold evaluate_one_epoch.
  destruct (eval_batches_trace config m loader 0 [] w Hpf) as (w1 & -> & _ & Htr).
  cbn [mbind result_bind]. eexists _, _. split; [done|].
  rewrite log_ap_trace, Htr. by rewrite <-app_assoc.
Qed.

(** ** File names *)

Lemma pretty_N_go_not_l (x : N) : ∀ s s',
  (∀ t, s ≠ String "l" t) → pretty_N_go x s ≠ String "l" s'.
Proof.
  induction (N.lt_wf_0 x) as [x _ IH]; intros s s' Hs.
  destruct (decide (x = 0%N)) as [->|Hx].
  - rewrite pretty_N_go_0. apply Hs.
  - rewrite pretty_N_go_step by lia. apply IH.
    + apply N.div_lt; lia.
    + intros t. unfold pretty_N_char. by repeat case_match.
Qed.

(** The decimal form of an integer is never the word [last]. *)
Lemma pretty_Z_not_last (n : Z) : pretty n ≠ "last".
Proof.
  destruct n as [|x|x]; [done| |done].
  unfold pretty, pretty_Z, pretty, pretty_positive, pretty, pretty_N.
  case_decide; [done|]. apply pretty_N_go_not_l. done.
Qed.

Lemma ckpt_name_inj (e1 e2 : epoch_id) : ckpt_name e1 = ckpt_name e2 → e1 = e2.
Proof.
  unfold ckpt_name. intros Heq. apply (inj (String.append _)) in Heq.
  apply string_app_inj_suffix in Heq as [Heq _]; [|done].
  destruct e1 as [n1|], e2 as [n2|]; cbn [epoch_str] in Heq.
  - f_equal. by apply (inj pretty).
  - by destruct (pretty_Z_not_last n1).
  - by destruct (pretty_Z_not_last n2).
  - done.
Qed.

Lemma ckpt_name_relative (e : epoch_id) : String.prefix "/" (ckpt_name e) = false.
Proof. reflexivity. Qed.

(** Joining one directory with two relative names gives two paths. *)
Lemma path_join_inj (a b b' : string) :
  String.prefix "/" b = false → String.prefix "/" b' = false →
  path_join a b = path_join a b' → b = b'.
Proof.
  unfold path_join. intros -> ->.
  destruct (_ || _).
  - apply (inj (String.append a)).
  - intros Heq. apply (inj (String.append a)) in Heq.
    by apply (inj (String.append "/")) in Heq.
Qed.

Lemma ckpt_path_inj (a : args) (e1 e2 : epoch_id) :
  ckpt_path a e1 = ckpt_path a e2 → e1 = e2.
Proof.
  unfold ckpt_path. intros Heq.
  apply path_join_inj in Heq; auto using ckpt_name_relative, ckpt_name_inj.
Qed.

Lemma ckpt_path_not_pickle (a : args) (e : epoch_id) (name : string) :
  name = "train_loss_dict.pkl" ∨ name = "train_metrics_dict.pkl" ∨
  name = "val_metrics_dict.pkl" →
  ckpt_path a e ≠ path_join (log_dir a) name.
Proof.
  unfold ckpt_path. intros Hname Heq.
  apply path_join_inj in Heq; [|apply ckpt_name_relative|by destruct Hname as [->|[->| ->]]].
  unfold ckpt_name in Heq. by destruct Hname as [->|[->| ->]].
Qed.

(** ** What a pass may write *)

Lemma touches_refl P w : touches P w w.
Proof. by intros q _. Qed.

Lemma touches_trans P w1 w2 w3 :
  touches P w1 w2 → touches P w2 w3 → touches P w1 w3.
Proof. intros H1 H2 q Hq. by rewrite H2, H1. Qed.

Lemma touches_weaken (P Q : string → Prop) w w' :
  (∀ q, P q → Q q) → touches P w w' → touches Q w w'.
Proof. intros HPQ H q Hq. apply H. naive_solver. Qed.

Lemma touches_same_fs P w w' : fs w' = fs w → touches P w w'.
Proof. intros Hfs q _. by rewrite Hfs. Qed.

Lemma touches_write_file (P : string → Prop) p f w :
  P p → touches P w (write_file p f w).
Proof.
  intros Hp q Hq. unfold write_file; cbn [fs].
  apply lookup_insert_ne. by intros ->.
Qed.

Lemma touches_saved_world (P : string → Prop) a epoch l w :
  P (ckpt_path a epoch) → touches P w (saved_world a epoch l w).
Proof.
  intros Hp q Hq. rewrite saved_world_fs. apply lookup_insert_ne.
  intros Heq. apply Hq. by rewrite <-Heq.
Qed.

Lemma touches_save_checkpoint (P : string → Prop) a epoch l save_cur w u w' :
  P (ckpt_path a epoch) →
  save_checkpoint a epoch l save_cur w = Ok (u, w') → touches P w w'.
Proof.
  intros Hp. unfold save_checkpoint. destruct save_cur; simpl.
  - intros [= _ <-]. by apply (touches_saved_world P).
  - destruct (epoch_mod _ epoch (save_freq a)) as [r|]; simpl; [|done].
    case_bool_decide; intros [= _ <-]; [by apply (touches_saved_world P)|].
    by apply touches_same_fs.
Qed.

Lemma touches_es_saved_world (P : string → Prop) opt v l e s w :
  P (ckpt_path opt (EpochNum e)) → touches P w (es_saved_world opt v l e s w).
Proof.
  intros Hp q Hq. rewrite es_saved_world_fs.
  case_bool_decide; [done|]. apply lookup_insert_ne.
  intros Heq. apply Hq. by rewrite <-Heq.
Qed.

Lemma touches_es_call (P : string → Prop) opt v l e s w s' w' :
  P (ckpt_path opt (EpochNum e)) →
  es_call opt v l e s w = Ok (s', w') → touches P w w'.
Proof.
  intros Hp. destruct (decide (save_freq opt = 0)) as [Hz|Hf].
  - unfold es_call, es_save_checkpoint. rewrite Hz.
    destruct (best_score s) as [b|]; [|done].
    destruct (fltb _ _); [|done].
    intros [= _ <-]. by apply touches_same_fs.
  - destruct (best_score s) as [b|] eqn:Hb.
    + destruct (fltb (fneg v) (fadd b (delta s))) eqn:Hlt.
      * rewrite (es_call_worse _ _ _ _ _ _ b) by done.
        intros [= _ <-]. by apply touches_same_fs.
      * rewrite (es_call_better _ _ _ _ _ _ b) by done.
        intros [= _ <-]. by apply touches_es_saved_world.
    + rewrite es_call_first by done.
      intros [= _ <-]. by apply touches_es_saved_world.
Qed.

Lemma touches_evaluate P loader m config w v w' :
  evaluate_one_epoch loader m config w = Ok (v, w') → touches P w w'.
Proof.
  intros Hev. pose proof (evaluate_one_epoch_inv _ _ _ _ _ _ Hev) as Hc.
  destruct (evaluate_one_epoch_ok_alt loader m config w Hc) as (w2 & Hev2 & _ & Hfs & _).
  rewrite Hev2 in Hev. injection Hev as _ <-. by apply touches_same_fs.
Qed.

Lemma touches_train P epoch loader config l w l' w' :
  train_one_epoch epoch loader config l w = Ok (l', w') → touches P w w'.
Proof.
  unfold train_one_epoch.
  destruct (train_batches config w loader (l, None)) as [[l1 g1]|]; simpl; [|done].
  destruct (py_mod w epoch (val_freq config)) as [r|]; simpl; [|done].
  intros [= _ <-]. apply touches_same_fs. by case_bool_decide.
Qed.

Lemma touches_dump (P : string → Prop) a name d w :
  P (path_join (log_dir a) name) → touches P w (dump a name d w).
Proof.
  intros Hp. unfold dump. cbv zeta.
  eapply touches_trans; [by apply touches_write_file|].
  by apply touches_same_fs.
Qed.

(** One pass of the loop writes at most the three metric files and the
    checkpoint of its own epoch. *)
Lemma touches_epoch_body a opt rank tl tel tsl e s f s' :
  epoch_body a opt rank tl tel tsl e s = Ok (f, s') →
  touches (pass_paths a opt e) (r_io s) (r_io s').
Proof.
  set (P := pass_paths a opt e).
  assert (P (path_join (log_dir a) "train_loss_dict.pkl")) as Hp1 by (by left).
  assert (P (path_join (log_dir a) "train_metrics_dict.pkl")) as Hp2
    by (right; by left).
  assert (P (path_join (log_dir a) "val_metrics_dict.pkl")) as Hp3
    by (right; right; by left).
  assert (P (ckpt_path a (EpochNum e))) as Hp4
    by (right; right; right; by left).
  assert (P (ckpt_path opt (EpochNum e))) as Hp5
    by (right; right; right; by right).
  unfold epoch_body.
  destruct (train_one_epoch e tl a (r_learner s) (r_io s)) as [[l' w1]|] eqn:Ht;
    [|done].
  pose proof (touches_train P _ _ _ _ _ _ _ Ht) as Hq1.
  cbn [mbind result_bind].
  set (w1' := dump a "train_loss_dict.pkl" TrainLossDict (emit (LogEpoch e) w1)).
  assert (touches P (r_io s) w1') as Hq1'.
  { eapply touches_trans; [exact Hq1|]. subst w1'.
    eapply touches_trans; [|by apply touches_dump]. by apply touches_same_fs. }
  case_bool_decide as Hrank; [subst rank|by intros [= _ <-]].
  destruct (py_mod w1' e (train_eval_freq a)) as [r|] eqn:Hr;
    cbn [mbind result_bind]; [|done].
  match goal with
  | |- context [mbind _ ?m] => destruct m as [w2|] eqn:Hw2
  end; cbn [mbind result_bind]; [|done].
  assert (touches P (r_io s) w2) as Hq2.
  { eapply touches_trans; [exact Hq1'|]. destruct (_ || _) in Hw2.
    - destruct (evaluate_one_epoch tel (model l') a w1') as [[v' wv]|] eqn:Hev;
        cbn [mbind result_bind] in Hw2; [|done].
      injection Hw2 as <-. eapply touches_trans; [|by apply touches_dump].
      by eapply touches_evaluate.
    - injection Hw2 as <-. apply touches_refl. }
  clear Hw2 Hr.
  destruct (py_mod w2 e (val_freq a)) as [r2|] eqn:Hr2;
    cbn [mbind result_bind]; [|done].
  destruct (bool_decide (r2 = 0)).
  - destruct (evaluate_one_epoch tsl (model l') a w2) as [[v w3]|] eqn:Hev;
      cbn [mbind result_bind]; [|done].
    pose proof (touches_evaluate P _ _ _ _ _ _ Hev) as Hq3.
    destruct (es_call opt v l' e (r_es s) _) as [[es w4]|] eqn:Hes;
      cbn [mbind result_bind]; [|done].
    pose proof (touches_es_call P _ _ _ _ _ _ _ _ Hp5 Hes) as Hq4.
    assert (touches P (r_io s) w4) as Hq14.
    { eapply touches_trans; [exact Hq2|]. eapply touches_trans; [exact Hq3|].
      eapply touches_trans; [|exact Hq4]. by apply touches_dump. }
    destruct (early_stop es).
    + intros [= _ <-]. cbn [r_io].
      eapply touches_trans; [exact Hq14|]. by apply touches_same_fs.
    + destruct (save_checkpoint a (EpochNum e) l' false _) as [[u w5]|] eqn:Hsv;
        cbn [mbind result_bind]; [|done].
      pose proof (touches_save_checkpoint P _ _ _ _ _ _ _ Hp4 Hsv) as Hq5.
      intros [= _ <-]. cbn [r_io].
      eapply touches_trans; [exact Hq14|].
      eapply touches_trans; [|exact Hq5].
      by apply touches_same_fs.
  - destruct (save_checkpoint a (EpochNum e) l' false w2) as [[u w5]|] eqn:Hsv;
      cbn [mbind result_bind]; [|done].
    pose proof (touches_save_checkpoint P _ _ _ _ _ _ _ Hp4 Hsv) as Hq5.
    intros [= _ <-]. cbn [r_io].
    by eapply touches_trans.
Qed.

Lemma touches_epoch_loop a opt rank tl tel tsl epochs : ∀ s s',
  epoch_loop a opt rank tl tel tsl epochs s = Ok s' →
  touches (λ q, ∃ e, e ∈ epochs ∧ pass_paths a opt e q) (r_io s) (r_io s').
Proof.
  induction epochs as [|e rest IH]; intros s s'; cbn [epoch_loop].
  - intros [= <-]. apply touches_refl.
  - destruct (epoch_body a opt rank tl tel tsl e s) as [[f s1]|] eqn:Hbody;
      cbn [mbind result_bind]; [|done].
    pose proof (touches_epoch_body _ _ _ _ _ _ _ _ _ _ Hbody) as Hb.
    assert (touches (λ q, ∃ e0, e0 ∈ e :: rest ∧ pass_paths a opt e0 q)
                    (r_io s) (r_io s1)) as Hb'.
    { eapply touches_weaken; [|exact Hb]. intros q Hq. exists e.
      split; [left|done]. }
    destruct f.
    + intros Hrest%IH. eapply touches_trans; [exact Hb'|].
      eapply touches_weaken; [|exact Hrest].
      intros q (e0 & He0 & Hq). exists e0. split; [by right|done].
    + by intros [= <-].
Qed.

(** ** More on [main] *)

(** The result of a returning [main], in terms of the state its loop ended
    in. *)
Lemma main_result a opt rank tl tel tsl l w a1 l1 w1 p s' :
  resume a l w = Ok (a1, l1, w1) →
  main a opt rank tl tel tsl l w = Ok (p, s') →
  ∃ s, epoch_loop a1 opt rank tl tel tsl
                  (py_range (start_epoch a1) (max_epoch a1 + 1))
                  (Run l1 (es_init 20 true fzero "checkpoint.pt") w1) = Ok s ∧
       p = ckpt_path a1 EpochLast ∧
       r_learner s' = r_learner s ∧ r_es s' = r_es s ∧
       quiet (r_io s) (r_io s') ∧
       fs (r_io s') =
         <[ckpt_path a1 EpochLast :=
             CkptFile (saved_state a1 EpochLast (r_learner s))]> (fs (r_io s)) ∧
       writes (trace (r_io s')) =
         writes (trace (r_io s)) ++ [ckpt_path a1 EpochLast].
Proof.
  intros Hres Hmain.
  destruct (main_inv _ _ _ _ _ _ _ _ _ _ _ _ _ Hres Hmain) as (s & Hloop & _ & Hq).
  exists s. split; [done|].
  assert (print_freq a1 ≠ 0 ∨ tsl = []) as Hpf.
  { unfold main in Hmain. rewrite Hres in Hmain.
    cbn [mbind result_bind] in Hmain. rewrite Hloop in Hmain.
    cbn [mbind result_bind] in Hmain.
    destruct (evaluate_one_epoch tsl (model (r_learner s)) a1 (r_io s))
      as [[v wE]|] eqn:Hev; [|done].
    by eapply evaluate_one_epoch_inv. }
  destruct (main_tail _ _ _ _ _ _ _ _ _ _ _ _ Hres Hloop Hpf)
    as (wE & _ & Hmain' & _ & Hfs & Hwr).
  rewrite Hmain' in Hmain. injection Hmain as <- <-. cbn [r_learner r_es r_io].
  split; [done|]. split; [done|]. split; [done|]. split; [done|]. split.
  - by rewrite fs_emit, saved_world_fs, Hfs.
  - rewrite writes_emit by done. by rewrite saved_world_writes, Hwr.
Qed.

Lemma resume_same_files a l w a1 l1 w1 :
  resume a l w = Ok (a1, l1, w1) →
  fs w1 = fs w ∧ writes (trace w1) = writes (trace w) ∧
  log_dir a1 = log_dir a ∧ max_epoch a1 = max_epoch a.
Proof.
  unfold resume. destruct (checkpoint_path a) as [p|] eqn:Hp; cycle 1.
  { by intros [= <- <- <-]. }
  case_bool_decide; [by intros [= <- <- <-]|].
  destruct (fs w !! p) as [f0|] eqn:Hf; [|done].
  unfold load_checkpoint. rewrite Hp. cbv zeta. rewrite fs_emit, Hf.
  destruct f0 as [ck|]; [|done]. destruct (ck_epoch ck) as [e|]; [|done].
  intros [= <- <- <-]. split; [done|]. split; [|done].
  rewrite !writes_emit; done.
Qed.

Lemma path_join_nonempty (a b : string) : b ≠ "" → path_join a b ≠ "".
Proof.
  intros Hb. unfold path_join. destruct (String.prefix "/" b); [done|].
  assert (∀ x : string, x +:+ b ≠ "") as Happ.
  { intros x Hx. apply (f_equal String.length) in Hx.
    rewrite string_length_app in Hx. destruct b; [done|]. simpl in Hx. lia. }
  destruct (_ || _); [apply Happ|].
  intros Hx. apply (f_equal String.length) in Hx.
  rewrite !string_length_app in Hx. destruct b; [done|]. simpl in Hx. lia.
Qed.

(** X7.  [main] never overwrites the checkpoint of an epoch outside the
    range it trains: when the early-stopping object saves under the same
    [log_dir], a numbered checkpoint of any other epoch, for instance the
    one a run was resumed from, is after [main] what it was before. *)
Theorem main_keeps_other_checkpoints a opt rank tl tel tsl l w a1 l1 w1 p s' e0 :
  resume a l w = Ok (a1, l1, w1) →
  log_dir opt = log_dir a →
  main a opt rank tl tel tsl l w = Ok (p, s') →
  ¬ (start_epoch a1 ≤ e0 ≤ max_epoch a1) →
  fs (r_io s') !! ckpt_path a (EpochNum e0) = fs w !! ckpt_path a (EpochNum e0).
Proof.
  intros Hres Hdir Hmain He0.
  destruct (main_result _ _ _ _ _ _ _ _ _ _ _ _ _ Hres Hmain)
    as (s & Hloop & _ & _ & _ & _ & Hfs & _).
  destruct (resume_same_files _ _ _ _ _ _ Hres) as (Hfs1 & _ & Hdir1 & _).
  assert (∀ e, ckpt_path a1 e = ckpt_path a e) as Hca
    by (intros e; unfold ckpt_path; by rewrite Hdir1).
  assert (∀ e, ckpt_path opt e = ckpt_path a e) as Hco
    by (intros e; unfold ckpt_path; by rewrite Hdir).
  rewrite Hfs, Hca. rewrite lookup_insert_ne; cycle 1.
  { intros Heq. by apply ckpt_path_inj in Heq. }
  rewrite <-Hfs1.
  apply (touches_epoch_loop _ _ _ _ _ _ _ _ _ Hloop).
  intros (e & He%py_range_elem & Hq).
  destruct Hq as [Hq|[Hq|[Hq|[Hq|Hq]]]].
  - rewrite Hdir1 in Hq. eapply ckpt_path_not_pickle; [|exact Hq]. by left.
  - rewrite Hdir1 in Hq. eapply ckpt_path_not_pickle; [|exact Hq].
    right; by left.
  - rewrite Hdir1 in Hq. eapply ckpt_path_not_pickle; [|exact Hq].
    right; by right.
  - rewrite Hca in Hq. apply ckpt_path_inj in Hq. injection Hq as ->. lia.
  - rewrite Hco in Hq. apply ckpt_path_inj in Hq. injection Hq as ->. lia.
Qed.

(** X8.  The checkpoint [main] writes at its end cannot be resumed from:
    its epoch is the string ['last'], and [main] started with that path as
    [checkpoint_path] raises [TypeError] in [load_checkpoint], before any
    training and without writing. *)
Theorem last_checkpoint_not_resumable a opt rank tl tel tsl l w p s'
    a' opt' rank' (tl' tel' tsl' : list Batch) l' :
  main a opt rank tl tel tsl l w = Ok (p, s') →
  checkpoint_path a' = Some p →
  main a' opt' rank' tl' tel' tsl' l' (r_io s') =
    Raise TypeError (emit (LogLoading (Some p)) (r_io s')).
Proof.
  intros Hmain Hpath.
  destruct (resume a l w) as [[[a1 l1] w1]|] eqn:Hres; cycle 1.
  { unfold main in Hmain. by rewrite Hres in Hmain. }
  destruct (main_result _ _ _ _ _ _ _ _ _ _ _ _ _ Hres Hmain)
    as (s & _ & -> & _ & _ & _ & Hfs & _).
  assert (fs (r_io s') !! ckpt_path a1 EpochLast =
            Some (CkptFile (saved_state a1 EpochLast (r_learner s)))) as Hlook
    by (rewrite Hfs; apply lookup_insert_eq).
  unfold main, resume. rewrite Hpath.
  rewrite bool_decide_eq_false_2 by (by apply path_join_nonempty).
  rewrite Hlook. unfold load_checkpoint. rewrite Hpath. cbv zeta.
  by rewrite fs_emit, Hlook.
Qed.

(** X9.  A run resumed from the checkpoint of the integer epoch [e]
    trains, absent early stopping, exactly the epochs from [e + 1] to
    [max_epoch], whatever [start_epoch] the command line gave:
    [train_one_epoch] is called once for each of them, in order, the first
    call on the learner of the checkpoint and every later one on the learner
    the pass before ended with, and the learner of the last call is the one
    [main] ends with.  When [max_epoch <= e] it trains none and ends with the
    learner of the checkpoint. *)
Theorem resumed_run_continues a opt rank tl tel tsl l w path ck e p s' :
  checkpoint_path a = Some path → path ≠ "" →
  fs w !! path = Some (CkptFile ck) → ck_epoch ck = EpochNum e →
  main a opt rank tl tel tsl l w = Ok (p, s') →
  (early_stop (r_es s') = false →
     trained_epochs (trace (r_io s')) =
       trained_epochs (trace w) ++ py_range (e + 1) (max_epoch a + 1) ∧
     ∃ s, trains (set_start_epoch (e + 1) a) tl
                 (py_range (e + 1) (max_epoch a + 1))
                 (Run (Learner (ck_model ck) (ck_optimizer ck) (ck_scheduler ck))
                      (es_init 20 true fzero "checkpoint.pt")
                      (emit (LogLoaded path (EpochNum e))
                            (emit (LogLoading (Some path)) w))) s ∧
          r_learner s' = r_learner s ∧ quiet (r_io s) (r_io s')) ∧
  (max_epoch a ≤ e →
     r_learner s' = Learner (ck_model ck) (ck_optimizer ck) (ck_scheduler ck) ∧
     trained_epochs (trace (r_io s')) = trained_epochs (trace w)).
Proof.
  intros Hpath Hne Hfile Hep Hmain.
  assert (resume a l w =
            Ok (set_start_epoch (e + 1) a,
                Learner (ck_model ck) (ck_optimizer ck) (ck_scheduler ck),
                emit (LogLoaded path (EpochNum e))
                     (emit (LogLoading (Some path)) w))) as Hres.
  { unfold resume. rewrite Hpath. rewrite bool_decide_eq_false_2 by done.
    rewrite Hfile. unfold load_checkpoint. rewrite Hpath. cbv zeta.
    by rewrite fs_emit, Hfile, Hep. }
  destruct (main_result _ _ _ _ _ _ _ _ _ _ _ _ _ Hres Hmain)
    as (s & Hloop & _ & Hl & Hes & Hq & _).
  destruct (resume_inv _ _ _ _ _ _ Hres) as [Hq0 _].
  cbn [set_start_epoch start_epoch max_epoch] in Hloop.
  assert (early_stop (r_es s') = false →
          trained_epochs (trace (r_io s')) =
            trained_epochs (trace w) ++ py_range (e + 1) (max_epoch a + 1))
    as Hall.
  { rewrite Hes. intros Hstop.
    destruct (epoch_loop_complete _ _ _ _ _ _ _ _ _ Hloop Hstop) as [Htr _].
    rewrite (quiet_trained _ _ Hq), Htr. cbn [r_io].
    by rewrite (quiet_trained _ _ Hq0). }
  split.
  { intros Hstop. split; [by apply Hall|].
    destruct (main_trains _ _ _ _ _ _ _ _ _ _ _ _ _ Hres Hmain Hstop)
      as (s2 & Htrains & Hl2 & _ & Hq2).
    by exists s2. }
  intros Hmax. rewrite py_range_empty in Hloop, Hall by lia.
  cbn [epoch_loop] in Hloop. injection Hloop as <-.
  split; [by rewrite Hl|]. rewrite Hall by (by rewrite Hes). apply app_nil_r.
Qed.

(** X10.  With an empty epoch range ([start_epoch > max_epoch] after the
    resume step) [main] trains nothing: it evaluates the learner it was
    given or resumed, writes the single file [ckpt_epoch_last.pth] holding
    that learner, and returns its path. *)
Theorem main_empty_range a opt rank tl tel tsl l w a1 l1 w1 :
  resume a l w = Ok (a1, l1, w1) →
  max_epoch a1 < start_epoch a1 →
  print_freq a1 ≠ 0 ∨ tsl = [] →
  ∃ s', main a opt rank tl tel tsl l w = Ok (ckpt_path a1 EpochLast, s') ∧
    r_learner s' = l1 ∧
    r_es s' = es_init 20 true fzero "checkpoint.pt" ∧
    trained_epochs (trace (r_io s')) = trained_epochs (trace w) ∧
    writes (trace (r_io s')) = writes (trace w) ++ [ckpt_path a1 EpochLast] ∧
    fs (r_io s') =
      <[ckpt_path a1 EpochLast := CkptFile (saved_state a1 EpochLast l1)]> (fs w).
Proof.
  intros Hres Hlt Hpf.
  assert (epoch_loop a1 opt rank tl tel tsl
            (py_range (start_epoch a1) (max_epoch a1 + 1))
            (Run l1 (es_init 20 true fzero "checkpoint.pt") w1) =
          Ok (Run l1 (es_init 20 true fzero "checkpoint.pt") w1)) as Hloop.
  { by rewrite py_range_empty by lia. }
  destruct (main_tail _ _ _ _ _ _ _ _ _ _ _ _ Hres Hloop Hpf)
    as (wE & _ & Hmain & Hq & Hfs & Hwr).
  destruct (resume_same_files _ _ _ _ _ _ Hres) as (Hfs1 & Hwr1 & _).
  destruct (resume_inv _ _ _ _ _ _ Hres) as [Hq0 _].
  eexists. split; [exact Hmain|]. cbn [r_learner r_es r_io] in *.
  split; [done|]. split; [done|]. split; [|split].
  - rewrite (quiet_trained w1); [by apply quiet_trained|].
    eapply quiet_trans; [exact Hq|].
    eapply quiet_trans; [apply quiet_saved_world|]. by apply quiet_emit.
  - rewrite writes_emit by done. by rewrite saved_world_writes, Hwr, Hwr1.
  - by rewrite fs_emit, saved_world_fs, Hfs, Hfs1.
Qed.

Lemma train_one_epoch_writes epoch loader config l w l' w' :
  train_one_epoch epoch loader config l w = Ok (l', w') →
  writes (trace w') = writes (trace w).
Proof.
  unfold train_one_epoch.
  destruct (train_batches config w loader (l, None)) as [[l1 g1]|]; simpl; [|done].
  destruct (py_mod w epoch (val_freq config)) as [r|]; simpl; [|done].
  intros [= _ <-]. case_bool_decide; [|done]. by apply writes_emit.
Qed.

Lemma epoch_body_other_rank a opt rank tl tel tsl e s f s' :
  rank ≠ 0 →
  epoch_body a opt rank tl tel tsl e s = Ok (f, s') →
  f = Continue ∧ r_es s' = r_es s ∧
  writes (trace (r_io s')) =
    writes (trace (r_io s)) ++ [path_join (log_dir a) "train_loss_dict.pkl"].
Proof.
  intros Hrank. unfold epoch_body.
  destruct (train_one_epoch e tl a (r_learner s) (r_io s)) as [[l' w1]|] eqn:Ht;
    [|done].
  cbn [mbind result_bind]. rewrite bool_decide_eq_false_2 by done.
  intros [= <- <-]. cbn [r_es r_io]. split; [done|]. split; [done|].
  unfold dump. cbv zeta. rewrite writes_emit by done.
  rewrite writes_write_file, writes_emit by done.
  by rewrite (train_one_epoch_writes _ _ _ _ _ _ _ Ht).
Qed.

Lemma epoch_loop_other_rank_writes a opt rank tl tel tsl epochs : ∀ s s',
  rank ≠ 0 →
  epoch_loop a opt rank tl tel tsl epochs s = Ok s' →
  writes (trace (r_io s')) =
    writes (trace (r_io s)) ++
    replicate (length epochs) (path_join (log_dir a) "train_loss_dict.pkl").
Proof.
  induction epochs as [|e rest IH]; intros s s' Hrank; cbn [epoch_loop].
  - intros [= <-]. cbn. by rewrite app_nil_r.
  - destruct (epoch_body a opt rank tl tel tsl e s) as [[f s1]|] eqn:Hbody;
      cbn [mbind result_bind]; [|done].
    destruct (epoch_body_other_rank _ _ _ _ _ _ _ _ _ _ Hrank Hbody)
      as (-> & _ & Hwr).
    intros Hrest. rewrite (IH _ _ Hrank Hrest), Hwr.
    cbn [length replicate]. by rewrite <-app_assoc.
Qed.

(** X11.  On a rank other than 0, [main] neither validates nor saves a
    checkpoint in its loop: the files it writes are [train_loss_dict.pkl],
    once per epoch of the range, and then [ckpt_epoch_last.pth]; its
    early-stopping object is never called. *)
Theorem other_ranks_only_dump_losses a opt rank tl tel tsl l w a1 l1 w1 p s' :
  rank ≠ 0 →
  resume a l w = Ok (a1, l1, w1) →
  main a opt rank tl tel tsl l w = Ok (p, s') →
  writes (trace (r_io s')) =
    writes (trace w) ++
    replicate (length (py_range (start_epoch a1) (max_epoch a1 + 1)))
              (path_join (log_dir a1) "train_loss_dict.pkl") ++
    [ckpt_path a1 EpochLast] ∧
  r_es s' = es_init 20 true fzero "checkpoint.pt".
Proof.
  intros Hrank Hres Hmain.
  destruct (main_result _ _ _ _ _ _ _ _ _ _ _ _ _ Hres Hmain)
    as (s & Hloop & _ & _ & Hes & _ & _ & Hwr).
  destruct (resume_same_files _ _ _ _ _ _ Hres) as (_ & Hwr1 & _).
  split.
  - rewrite Hwr, (epoch_loop_other_rank_writes _ _ _ _ _ _ _ _ _ Hrank Hloop).
    cbn [r_io]. by rewrite Hwr1, <-app_assoc.
  - by rewrite Hes, (epoch_loop_other_rank _ _ _ _ _ _ _ _ _ Hrank Hloop).
Qed.

Lemma es_call_nan_keeps_stop opt l e s w s' w' :
  es_call opt FNaN l e s w = Ok (s', w') → early_stop s' = early_stop s.
Proof.
  intros [[_ ->] | [(b & _ & Hlt & _) | (b & _ & _ & ->)]]%es_call_inv; done.
Qed.

Lemma epoch_loop_empty_test_loader a opt rank tl tel epochs : ∀ s s',
  epoch_loop a opt rank tl tel [] epochs s = Ok s' →
  early_stop (r_es s) = false → early_stop (r_es s') = false.
Proof.
  induction epochs as [|e rest IH]; intros s s'; cbn [epoch_loop].
  - by intros [= <-].
  - destruct (epoch_body a opt rank tl tel [] e s) as [[f s1]|] eqn:Hbody;
      cbn [mbind result_bind]; [|done].
    intros Hrest Hstop.
    assert (early_stop (r_es s1) = false) as Hstop1.
    { pose proof (epoch_body_inv _ _ _ _ _ _ _ _ _ _ Hbody) as (_ & _ & _ & _ & Hc).
      destruct Hc as [(_ & _ & ->) | (_ & _ & (w2 & v & w3 & w4 & _ & -> & Hes & _) & _)];
        [done|].
      cbn in Hes. by rewrite (es_call_nan_keeps_stop _ _ _ _ _ _ _ Hes). }
    destruct f; [by eapply IH|]. by injection Hrest as <-.
Qed.

(** X12.  With an empty test loader the validation loss is NaN at every
    validation, each call of the early-stopping object takes the improvement
    branch, and [main] never stops early: when it returns, [early_stop] is
    unset and every epoch of the range has been trained, that is
    [train_one_epoch] has been called once for each of them, in order, each
    call on the learner the pass before ended with, and the learner of the
    last call is the one [main] ends with. *)
Theorem empty_test_loader_never_stops a opt rank tl tel l w a1 l1 w1 p s' :
  resume a l w = Ok (a1, l1, w1) →
  main a opt rank tl tel [] l w = Ok (p, s') →
  early_stop (r_es s') = false ∧
  trained_epochs (trace (r_io s')) =
    trained_epochs (trace w) ++ py_range (start_epoch a1) (max_epoch a1 + 1) ∧
  ∃ s, trains a1 tl (py_range (start_epoch a1) (max_epoch a1 + 1))
              (Run l1 (es_init 20 true fzero "checkpoint.pt") w1) s ∧
       r_learner s' = r_learner s ∧ quiet (r_io s) (r_io s').
Proof.
  intros Hres Hmain.
  destruct (main_result _ _ _ _ _ _ _ _ _ _ _ _ _ Hres Hmain)
    as (s & Hloop & _ & _ & Hes & Hq & _).
  destruct (resume_inv _ _ _ _ _ _ Hres) as [Hq0 _].
  assert (early_stop (r_es s) = false) as Hstop
    by (by eapply epoch_loop_empty_test_loader).
  assert (early_stop (r_es s') = false) as Hstop' by (by rewrite Hes).
  split; [done|]. split.
  - destruct (epoch_loop_complete _ _ _ _ _ _ _ _ _ Hloop Hstop) as [Htr _].
    rewrite (quiet_trained _ _ Hq), Htr. cbn [r_io].
    by rewrite (quiet_trained _ _ Hq0).
  - destruct (main_trains _ _ _ _ _ _ _ _ _ _ _ _ _ Hres Hmain Hstop')
      as (s2 & Htrains & Hl2 & _ & Hq2).
    by exists s2.
Qed.

(** One call raises the progress of the object by at most one, and sets
    [early_stop] only with a [counter] that has reached [patience]. *)
Lemma es_call_progress opt v l e s w s' w' :
  es_call opt v l e s w = Ok (s', w') →
  0 ≤ counter s → (best_score s = None → counter s = 0) →
  0 ≤ counter s' ∧ (best_score s' = None → counter s' = 0) ∧
  es_progress s' ≤ es_progress s + 1 ∧
  patience s' = patience s ∧
  (early_stop s' = true → early_stop s = true ∨ patience s ≤ counter s').
Proof.
  unfold es_progress.
  intros [[Hb ->] | [(b & Hb & _ & ->) | (b & Hb & _ & ->)]]%es_call_inv Hc Hn.
  - cbn. rewrite Hb, (Hn Hb). repeat split; try done; try lia. by left.
  - cbv zeta. case_bool_decide; cbn; rewrite Hb;
      repeat split; try done; try lia; auto.
  - cbn. rewrite Hb. repeat split; try done; try lia. by left.
Qed.

Lemma epoch_loop_progress a opt rank tl tel tsl epochs : ∀ s s',
  epoch_loop a opt rank tl tel tsl epochs s = Ok s' →
  0 ≤ counter (r_es s) → (best_score (r_es s) = None → counter (r_es s) = 0) →
  early_stop (r_es s) = false →
  ∃ passed rest,
    epochs = passed ++ rest ∧
    trained_epochs (trace (r_io s')) = trained_epochs (trace (r_io s)) ++ passed ∧
    (best_score (r_es s') = None → counter (r_es s') = 0) ∧
    es_progress (r_es s') ≤
      es_progress (r_es s) + Z.of_nat (length (validation_epochs a passed)) ∧
    patience (r_es s') = patience (r_es s) ∧
    (early_stop (r_es s') = true → patience (r_es s) ≤ counter (r_es s')).
Proof.
  induction epochs as [|e more IH]; intros s s'; cbn [epoch_loop].
  - intros [= <-] _ Hn Hstop. exists [], []. rewrite app_nil_r.
    cbn. rewrite Z.add_0_r. repeat split; try done.
    + by rewrite app_nil_r.
    + intros Hs. by rewrite Hstop in Hs.
  - destruct (epoch_body a opt rank tl tel tsl e s) as [[f s1]|] eqn:Hbody;
      cbn [mbind result_bind]; [|done].
    intros Hrest Hc Hn Hstop.
    pose proof (epoch_body_inv _ _ _ _ _ _ _ _ _ _ Hbody)
      as (_ & _ & Htr & _ & Hcase).
    assert (0 ≤ counter (r_es s1) ∧
            (best_score (r_es s1) = None → counter (r_es s1) = 0) ∧
            es_progress (r_es s1) ≤
              es_progress (r_es s) + Z.of_nat (length (validation_epochs a [e])) ∧
            patience (r_es s1) = patience (r_es s) ∧
            (early_stop (r_es s1) = true → patience (r_es s) ≤ counter (r_es s1)) ∧
            (f = Break → early_stop (r_es s1) = true) ∧
            (f = Continue → early_stop (r_es s1) = false))
      as (Hc1 & Hn1 & Hp1 & Hpat1 & Hset1 & Hbrk & Hcont).
    { destruct Hcase as [(_ & -> & ->) | (_ & Hm & (w2 & v & w3 & w4 & _ & _ & Hes & _) & ->)].
      - repeat split; try done; [lia|congruence].
      - destruct (es_call_progress _ _ _ _ _ _ _ _ Hes Hc Hn)
          as (Hc1 & Hn1 & Hp1 & Hpat1 & Hset1).
        unfold validation_epochs. rewrite filter_cons, decide_True by done.
        cbn [filter length]. rewrite filter_nil. cbn [length].
        repeat split; try done; try lia.
        + intros Hs1. destruct (Hset1 Hs1); [congruence|done].
        + by destruct (early_stop (r_es s1)).
        + by destruct (early_stop (r_es s1)). }
    assert (Z.of_nat (length (validation_epochs a [e])) +
            Z.of_nat (length (validation_epochs a more)) =
            Z.of_nat (length (validation_epochs a (e :: more)))) as _ by
      (unfold validation_epochs; rewrite (filter_cons _ e more);
       rewrite (filter_cons _ e []), filter_nil; case_decide; cbn [length]; lia).
    destruct f.
    + destruct (IH _ _ Hrest Hc1 Hn1 (Hcont eq_refl))
        as (passed & rest & -> & Htr' & Hn' & Hp' & Hpat' & Hset').
      exists (e :: passed), rest. split; [done|].
      split; [by rewrite Htr', Htr, <-app_assoc|]. split; [done|].
      split; [|split; [congruence|]].
      * unfold validation_epochs in *. rewrite (filter_cons _ e passed).
        rewrite (filter_cons _ e []), filter_nil in Hp1.
        case_decide; cbn [length] in *; lia.
      * intros Hs'. rewrite <-Hpat1. by apply Hset'.
    + injection Hrest as <-. exists [e], more. split; [done|].
      repeat split; try done.
Qed.

(** X13.  [main] does not stop early before twenty-one validations: when
    it returns with [early_stop] set, it ran on rank 0 and at least 21 of the
    epochs it trained are multiples of [val_freq] (one validation to set
    [best_score], twenty to exhaust the patience of 20). *)
Theorem early_stop_needs_21_validations a opt rank tl tel tsl l w a1 l1 w1 p s' :
  resume a l w = Ok (a1, l1, w1) →
  main a opt rank tl tel tsl l w = Ok (p, s') →
  early_stop (r_es s') = true →
  rank = 0 ∧
  ∃ passed rest,
    py_range (start_epoch a1) (max_epoch a1 + 1) = passed ++ rest ∧
    trained_epochs (trace (r_io s')) = trained_epochs (trace w) ++ passed ∧
    21 ≤ Z.of_nat (length (validation_epochs a1 passed)).
Proof.
  intros Hres Hmain Hstop.
  destruct (main_result _ _ _ _ _ _ _ _ _ _ _ _ _ Hres Hmain)
    as (s & Hloop & _ & _ & Hes & Hq & _).
  destruct (resume_inv _ _ _ _ _ _ Hres) as [Hq0 _].
  rewrite Hes in Hstop. split.
  { destruct (decide (rank = 0)) as [|Hrank]; [done|].
    by rewrite (epoch_loop_other_rank _ _ _ _ _ _ _ _ _ Hrank Hloop) in Hstop. }
  destruct (epoch_loop_progress _ _ _ _ _ _ _ _ _ Hloop)
    as (passed & rest & Hsplit & Htr & Hn & Hp & Hpat & Hset); [done..|].
  exists passed, rest. split; [done|]. split.
  { rewrite (quiet_trained _ _ Hq), Htr. cbn [r_io].
    by rewrite (quiet_trained _ _ Hq0). }
  specialize (Hset Hstop). cbn in Hset.
  unfold es_progress, es_init in Hp. cbn [r_es counter best_score] in Hp.
  destruct (best_score (r_es s)); [lia|]. specialize (Hn eq_refl). lia.
Qed.

(** ** What a pass leaves in the files it writes *)

Lemma adds_refl G w : adds G w w.
Proof. intros q f Hf. by left. Qed.

Lemma adds_trans G w1 w2 w3 : adds G w1 w2 → adds G w2 w3 → adds G w1 w3.
Proof.
  intros H1 H2 q f Hf. destruct (H2 q f Hf) as [Hf2|HG]; [|by right].
  by apply H1.
Qed.

Lemma adds_weaken (G G' : string → file → Prop) w w' :
  (∀ q f, G q f → G' q f) → adds G w w' → adds G' w w'.
Proof. intros HG H q f Hf. destruct (H q f Hf); [by left|right; auto]. Qed.

Lemma adds_same_fs G w w' : fs w' = fs w → adds G w w'.
Proof. intros Hfs q f Hf. left. by rewrite <-Hfs. Qed.

Lemma adds_insert (G : string → file → Prop) p f0 w w' :
  G p f0 → fs w' = <[p := f0]> (fs w) → adds G w w'.
Proof.
  intros Hp Hfs q f. rewrite Hfs. destruct (decide (p = q)) as [->|Hne].
  - rewrite lookup_insert_eq. intros [= <-]. by right.
  - rewrite lookup_insert_ne by done. by left.
Qed.

Lemma adds_save_checkpoint (G : string → file → Prop) a epoch l save_cur w u w' :
  G (ckpt_path a epoch) (CkptFile (saved_state a epoch l)) →
  save_checkpoint a epoch l save_cur w = Ok (u, w') → adds G w w'.
Proof.
  intros Hp. unfold save_checkpoint. destruct save_cur; simpl.
  - intros [= _ <-]. by eapply adds_insert.
  - destruct (epoch_mod _ epoch (save_freq a)) as [r|]; simpl; [|done].
    case_bool_decide; intros [= _ <-]; [by eapply adds_insert|].
    by apply adds_same_fs.
Qed.

Lemma adds_es_saved_world (G : string → file → Prop) opt v l e s w :
  G (ckpt_path opt (EpochNum e)) (CkptFile (saved_state opt (EpochNum e) l)) →
  adds G w (es_saved_world opt v l e s w).
Proof.
  intros Hp. pose proof (es_saved_world_fs opt v l e s w) as Hfs.
  destruct (bool_decide (e `mod` save_freq opt = 0)).
  - by apply adds_same_fs.
  - by eapply adds_insert.
Qed.

Lemma adds_es_call (G : string → file → Prop) opt v l e s w s' w' :
  G (ckpt_path opt (EpochNum e)) (CkptFile (saved_state opt (EpochNum e) l)) →
  es_call opt v l e s w = Ok (s', w') → adds G w w'.
Proof.
  intros Hp. destruct (decide (save_freq opt = 0)) as [Hz|Hf].
  - unfold es_call, es_save_checkpoint. rewrite Hz.
    destruct (best_score s) as [b|]; [|done].
    destruct (fltb _ _); [|done].
    intros [= _ <-]. by apply adds_same_fs.
  - destruct (best_score s) as [b|] eqn:Hb.
    + destruct (fltb (fneg v) (fadd b (delta s))) eqn:Hlt.
      * rewrite (es_call_worse _ _ _ _ _ _ b) by done.
        intros [= _ <-]. by apply adds_same_fs.
      * rewrite (es_call_better _ _ _ _ _ _ b) by done.
        intros [= _ <-]. by apply adds_es_saved_world.
    + rewrite es_call_first by done.
      intros [= _ <-]. by apply adds_es_saved_world.
Qed.

Lemma adds_evaluate G loader m config w v w' :
  evaluate_one_epoch loader m config w = Ok (v, w') → adds G w w'.
Proof.
  intros Hev. pose proof (evaluate_one_epoch_inv _ _ _ _ _ _ Hev) as Hc.
  destruct (evaluate_one_epoch_ok_alt loader m config w Hc) as (w2 & Hev2 & _ & Hfs & _).
  rewrite Hev2 in Hev. injection Hev as _ <-. by apply adds_same_fs.
Qed.

Lemma adds_train G epoch loader config l w l' w' :
  train_one_epoch epoch loader config l w = Ok (l', w') → adds G w w'.
Proof.
  unfold train_one_epoch.
  destruct (train_batches config w loader (l, None)) as [[l1 g1]|]; simpl; [|done].
  destruct (py_mod w epoch (val_freq config)) as [r|]; simpl; [|done].
  intros [= _ <-]. apply adds_same_fs. by case_bool_decide.
Qed.

Lemma adds_dump (G : string → file → Prop) a name d w :
  G (path_join (log_dir a) name) (PickleFile d) → adds G w (dump a name d w).
Proof. intros Hp. by eapply adds_insert. Qed.

(** One pass of the loop leaves, beside what was there, only pickled
    dictionaries and states of its own epoch under that epoch's name. *)
Lemma adds_epoch_body a opt rank tl tel tsl e s f s' :
  epoch_body a opt rank tl tel tsl e s = Ok (f, s') →
  adds (pass_files a opt e) (r_io s) (r_io s').
Proof.
  set (G := pass_files a opt e).
  assert (∀ d, G (path_join (log_dir a) "train_loss_dict.pkl") (PickleFile d))
    as Hp1 by (intros d; left; eexists _, _; split; [by left|done]).
  assert (∀ d, G (path_join (log_dir a) "train_metrics_dict.pkl") (PickleFile d))
    as Hp2 by (intros d; left; eexists _, _; split; [right; by left|done]).
  assert (∀ d, G (path_join (log_dir a) "val_metrics_dict.pkl") (PickleFile d))
    as Hp3 by (intros d; left; eexists _, _; split; [right; by right|done]).
  assert (∀ l, G (ckpt_path a (EpochNum e))
                 (CkptFile (saved_state a (EpochNum e) l))) as Hp4
    by (intros l; right; eexists _, _; split; [by left|done]).
  assert (∀ l, G (ckpt_path opt (EpochNum e))
                 (CkptFile (saved_state opt (EpochNum e) l))) as Hp5
    by (intros l; right; eexists _, _; split; [by right|done]).
  unfold epoch_body.
  destruct (train_one_epoch e tl a (r_learner s) (r_io s)) as [[l' w1]|] eqn:Ht;
    [|done].
  pose proof (adds_train G _ _ _ _ _ _ _ Ht) as Hq1.
  cbn [mbind result_bind].
  set (w1' := dump a "train_loss_dict.pkl" TrainLossDict (emit (LogEpoch e) w1)).
  assert (adds G (r_io s) w1') as Hq1'.
  { eapply adds_trans; [exact Hq1|]. subst w1'.
    eapply adds_trans; [|by apply adds_dump]. by apply adds_same_fs. }
  case_bool_decide as Hrank; [subst rank|by intros [= _ <-]].
  destruct (py_mod w1' e (train_eval_freq a)) as [r|] eqn:Hr;
    cbn [mbind result_bind]; [|done].
  match goal with
  | |- context [mbind _ ?m] => destruct m as [w2|] eqn:Hw2
  end; cbn [mbind result_bind]; [|done].
  assert (adds G (r_io s) w2) as Hq2.
  { eapply adds_trans; [exact Hq1'|]. destruct (_ || _) in Hw2.
    - destruct (evaluate_one_epoch tel (model l') a w1') as [[v' wv]|] eqn:Hev;
        cbn [mbind result_bind] in Hw2; [|done].
      injection Hw2 as <-. eapply adds_trans; [|by apply adds_dump].
      by eapply adds_evaluate.
    - injection Hw2 as <-. apply adds_refl. }
  clear Hw2 Hr.
  destruct (py_mod w2 e (val_freq a)) as [r2|] eqn:Hr2;
    cbn [mbind result_bind]; [|done].
  destruct (bool_decide (r2 = 0)).
  - destruct (evaluate_one_epoch tsl (model l') a w2) as [[v w3]|] eqn:Hev;
      cbn [mbind result_bind]; [|done].
    pose proof (adds_evaluate G _ _ _ _ _ _ Hev) as Hq3.
    destruct (es_call opt v l' e (r_es s) _) as [[es w4]|] eqn:Hes;
      cbn [mbind result_bind]; [|done].
    pose proof (adds_es_call G _ _ _ _ _ _ _ _ (Hp5 l') Hes) as Hq4.
    assert (adds G (r_io s) w4) as Hq14.
    { eapply adds_trans; [exact Hq2|]. eapply adds_trans; [exact Hq3|].
      eapply adds_trans; [|exact Hq4]. by apply adds_dump. }
    destruct (early_stop es).
    + intros [= _ <-]. cbn [r_io].
      eapply adds_trans; [exact Hq14|]. by apply adds_same_fs.
    + destruct (save_checkpoint a (EpochNum e) l' false _) as [[u w5]|] eqn:Hsv;
        cbn [mbind result_bind]; [|done].
      pose proof (adds_save_checkpoint G _ _ _ _ _ _ _ (Hp4 l') Hsv) as Hq5.
      intros [= _ <-]. cbn [r_io].
      eapply adds_trans; [exact Hq14|].
      eapply adds_trans; [|exact Hq5].
      by apply adds_same_fs.
  - destruct (save_checkpoint a (EpochNum e) l' false w2) as [[u w5]|] eqn:Hsv;
      cbn [mbind result_bind]; [|done].
    pose proof (adds_save_checkpoint G _ _ _ _ _ _ _ (Hp4 l') Hsv) as Hq5.
    intros [= _ <-]. cbn [r_io].
    by eapply adds_trans.
Qed.

Lemma adds_epoch_loop a opt rank tl tel tsl epochs : ∀ s s',
  epoch_loop a opt rank tl tel tsl epochs s = Ok s' →
  adds (λ q f, ∃ e, e ∈ epochs ∧ pass_files a opt e q f) (r_io s) (r_io s').
Proof.
  induction epochs as [|e rest IH]; intros s s'; cbn [epoch_loop].
  - intros [= <-]. apply adds_refl.
  - destruct (epoch_body a opt rank tl tel tsl e s) as [[f s1]|] eqn:Hbody;
      cbn [mbind result_bind]; [|done].
    pose proof (adds_epoch_body _ _ _ _ _ _ _ _ _ _ Hbody) as Hb.
    assert (adds (λ q f, ∃ e0, e0 ∈ e :: rest ∧ pass_files a opt e0 q f)
                 (r_io s) (r_io s1)) as Hb'.
    { eapply adds_weaken; [|exact Hb]. intros q f0 Hq. exists e.
      split; [left|done]. }
    destruct f.
    + intros Hrest%IH. eapply adds_trans; [exact Hb'|].
      eapply adds_weaken; [|exact Hrest].
      intros q f0 (e0 & He0 & Hq). exists e0. split; [by right|done].
    + by intros [= <-].
Qed.

(** X14.  Every numbered checkpoint that a run of [main] writes or
    replaces is the checkpoint of an epoch of its range and holds that
    epoch's number: a later run given its path as [checkpoint_path] resumes
    from it, with [start_epoch] set to the next epoch and the stored learner
    in place of its own. *)
Theorem written_checkpoints_resumable a opt rank tl tel tsl l w a1 l1 w1 p s'
    e f a' l' :
  resume a l w = Ok (a1, l1, w1) →
  log_dir opt = log_dir a →
  main a opt rank tl tel tsl l w = Ok (p, s') →
  fs (r_io s') !! ckpt_path a (EpochNum e) = Some f →
  fs w !! ckpt_path a (EpochNum e) ≠ Some f →
  checkpoint_path a' = Some (ckpt_path a (EpochNum e)) →
  start_epoch a1 ≤ e ≤ max_epoch a1 ∧
  ∃ x l2 w2,
    f = CkptFile (saved_state x (EpochNum e) l2) ∧
    resume a' l' (r_io s') = Ok (set_start_epoch (e + 1) a', l2, w2) ∧
    fs w2 = fs (r_io s').
Proof.
  intros Hres Hdir Hmain Hf Hnew Hpath.
  destruct (resume_same_files _ _ _ _ _ _ Hres) as (Hfs1 & _ & Hdir1 & _).
  destruct (main_result _ _ _ _ _ _ _ _ _ _ _ _ _ Hres Hmain)
    as (s & Hloop & _ & _ & _ & _ & Hfs & _).
  assert (∀ x epoch, log_dir x = log_dir a → ckpt_path x epoch = ckpt_path a epoch)
    as Hsame by (intros x epoch Hx; unfold ckpt_path; by rewrite Hx).
  assert (fs (r_io s) !! ckpt_path a (EpochNum e) = Some f) as Hf1.
  { rewrite Hfs, lookup_insert_ne in Hf; [done|].
    rewrite (Hsame a1) by done. by intros ?%ckpt_path_inj. }
  destruct (adds_epoch_loop _ _ _ _ _ _ _ _ _ Hloop _ _ Hf1)
    as [Hold | (e0 & He0 & [(name & d & Hname & Hq & _) | (x & l2 & Hx & Hq & ->)])].
  - cbn [r_io] in Hold. by rewrite Hfs1 in Hold.
  - rewrite Hdir1 in Hq. by destruct (ckpt_path_not_pickle a (EpochNum e) name).
  - assert (log_dir x = log_dir a) as Hdx by (by destruct Hx as [-> | ->]).
    rewrite (Hsame x) in Hq by done.
    apply ckpt_path_inj in Hq as [= <-].
    split; [by apply py_range_elem in He0; lia|].
    assert (ckpt_path a (EpochNum e) ≠ "") as Hne
      by (by apply path_join_nonempty).
    destruct l2 as [m o sc].
    exists x, (Learner m o sc). eexists. split; [done|].
    unfold resume. rewrite Hpath, bool_decide_eq_false_2, Hf by done.
    unfold load_checkpoint. rewrite Hpath. cbv zeta. rewrite fs_emit, Hf.
    cbn [saved_state ck_epoch ck_model ck_optimizer ck_scheduler model optimizer scheduler].
    split; [done|]. by rewrite !fs_emit.
Qed.

(** ** Paths and plots *)

Lemma string_app_assoc (a b c : string) : (a +:+ b) +:+ c = a +:+ b +:+ c.
Proof.
  induction a as [|x a IH]; [done|].
  rewrite !string_app_cons. by rewrite IH.
Qed.

Lemma ends_with_sep_slash (a : string) : ends_with_sep (a +:+ "/") = true.
Proof.
  induction a as [|x a IH]; [done|].
  rewrite string_app_cons. cbn [ends_with_sep].
  destruct (a +:+ "/") eqn:Ha; [|done].
  destruct a; discriminate.
Qed.

(** A trailing slash on the directory makes no difference to
    [os.path.join]: for a non-empty directory that does not end in a slash,
    [log_dir] and [log_dir/] give the same checkpoint path for every
    epoch. *)
Lemma ckpt_path_trailing_slash (a a' : args) (epoch : epoch_id) :
  log_dir a ≠ "" → ends_with_sep (log_dir a) = false →
  log_dir a' = log_dir a +:+ "/" →
  ckpt_path a' epoch = ckpt_path a epoch.
Proof.
  intros Hne Hsep Hdir. unfold ckpt_path, path_join.
  rewrite ckpt_name_relative, Hdir, ends_with_sep_slash, Hsep.
  rewrite orb_true_r, bool_decide_eq_false_2 by done. cbn [orb].
  apply string_app_assoc.
Qed.

Lemma plot_xs_length val_freq ys : length (plot_xs val_freq ys) = length ys.
Proof.
  unfold plot_xs, py_range. rewrite length_fmap, length_seqZ. lia.
Qed.

Lemma plot_xs_lookup val_freq ys i y :
  ys !! i = Some y → plot_xs val_freq ys !! i = Some ((Z.of_nat i + 1) * val_freq).
Proof.
  intros Hy%lookup_lt_Some. unfold plot_xs, py_range.
  rewrite list_lookup_fmap, lookup_seqZ_lt by lia. done.
Qed.

(** X15.  Every curve [plot_metrics] draws is well formed: it has as many
    abscissas as values, and the abscissa of the value at index [i] is
    [(i + 1) * val_freq]; the legend is drawn exactly on the figures that
    carry a second curve. *)
Theorem plot_metrics_curves d1 val_freq save_dir dir_exists d2 label_1 label_2 fig :
  fig ∈ (plot_metrics d1 val_freq save_dir dir_exists d2 label_1 label_2).2 →
  (∀ c, c ∈ fig_curves fig →
     length (cv_x c) = length (cv_y c) ∧
     ∀ i y, cv_y c !! i = Some y →
            cv_x c !! i = Some ((Z.of_nat i + 1) * val_freq)) ∧
  (fig_legend fig = true ↔ length (fig_curves fig) = 2%nat).
Proof.
  unfold plot_metrics. cbn [snd].
  intros ([key ys] & -> & _)%list_elem_of_fmap. unfold plot_figure.
  destruct (d2 ≫= _) as [ys2|]; cbn [fig_curves fig_legend]; split; try done.
  - intros c [->|[->|[]%elem_of_nil]%elem_of_cons]%elem_of_cons;
      cbn [cv_x cv_y]; (split; [apply plot_xs_length|apply plot_xs_lookup]).
  - intros c [->|[]%elem_of_nil]%elem_of_cons;
      cbn [cv_x cv_y]; (split; [apply plot_xs_length|apply plot_xs_lookup]).
Qed.

Lemma plot_file_inj save_dir k1 k2 :
  plot_file save_dir k1 = plot_file save_dir k2 → k1 = k2.
Proof.
  unfold plot_file. intros Heq.
  apply (inj (String.append save_dir)) in Heq.
  apply (inj (String.append "/")) in Heq.
  by apply string_app_inj_suffix in Heq as [-> _].
Qed.

(** X16.  [plot_metrics] saves one figure per key of the first
    dictionary, in order, and nothing for a key that only the second
    dictionary has; distinct keys go to distinct files, so no figure
    overwrites another. *)
Theorem plot_metrics_one_file_per_key d1 val_freq save_dir dir_exists d2
    label_1 label_2 :
  NoDup d1.*1 →
  let figs := (plot_metrics d1 val_freq save_dir dir_exists d2 label_1 label_2).2 in
  fig_title <$> figs = d1.*1 ∧
  fig_file <$> figs = plot_file save_dir <$> d1.*1 ∧
  NoDup (fig_file <$> figs).
Proof.
  intros Hnd. cbv zeta. unfold plot_metrics. cbn [snd].
  assert (∀ item, fig_title (plot_figure val_freq save_dir d2 label_1 label_2 item)
                  = item.1 ∧
                  fig_file (plot_figure val_freq save_dir d2 label_1 label_2 item)
                  = plot_file save_dir item.1) as Hitem.
  { intros [key ys]. unfold plot_figure. cbn. by destruct (d2 ≫= _). }
  assert (fig_file <$> (plot_figure val_freq save_dir d2 label_1 label_2 <$> d1)
          = plot_file save_dir <$> d1.*1) as Hfiles.
  { rewrite <-!list_fmap_compose. apply list_fmap_ext.
    intros _ item _. apply Hitem. }
  split; [|split; [exact Hfiles|]].
  - rewrite <-list_fmap_compose. apply list_fmap_ext.
    intros _ item _. apply Hitem.
  - rewrite Hfiles. apply NoDup_fmap_2; [|done].
    intros k1 k2. apply plot_file_inj.
Qed.

End Properties.

(** * The properties at concrete inputs *)

(** C5 at the defaults: at epoch 20 the periodic save writes the file; at
    epoch 7 it writes nothing. *)
Lemma save_checkpoint_writes_iff_witness :
  (∃ w', save_checkpoint (C:=toy) default_args (EpochNum 20) toy_learner false
                         empty_world = Ok ((), w') ∧
         fs w' = <[ckpt_path default_args (EpochNum 20) :=
                     CkptFile (saved_state default_args (EpochNum 20) toy_learner)]>
                   (fs empty_world) ∧
         writes (trace w') =
           writes (trace empty_world) ++ [ckpt_path default_args (EpochNum 20)]) ∧
  (fs (world_after (save_checkpoint (C:=toy) default_args (EpochNum 7)
                                    toy_learner false empty_world))
     = fs empty_world ∧
   writes (trace (world_after (save_checkpoint (C:=toy) default_args (EpochNum 7)
                                               toy_learner false empty_world)))
     = writes (trace empty_world)).
Proof.
  split.
  - apply (proj1 (save_checkpoint_writes_iff (C:=toy) default_args (EpochNum 20)
                    toy_learner false empty_world)).
    right. exists 20. split; [reflexivity|]. split; [discriminate|].
    exists 2. reflexivity.
  - apply (proj2 (save_checkpoint_writes_iff (C:=toy) default_args (EpochNum 7)
                    toy_learner false empty_world)).
    intros [Hcur | (n & Hn & _ & (k & Hk))]; [discriminate|].
    injection Hn as <-. simpl in Hk. lia.
Defined.

(** C1 as stated fails: at the defaults the first call, made at epoch 10,
    sets [best_score] and writes no checkpoint; and with [save_freq = 0] it
    raises. *)
Lemma es_first_call_without_checkpoint :
  (∃ s' w', es_call (C:=toy) default_args (num 1) toy_learner 10 fresh_es
                    empty_world = Ok (s', w') ∧
            best_score s' = Some (fneg (num 1)) ∧
            fs w' = ∅ ∧ writes (trace w') = []) ∧
  es_call (C:=toy) no_save_args (num 1) toy_learner 10 fresh_es empty_world =
    Raise ZeroDivisionError
          (emit (LogValLossDecreased np_Inf (num 1)) empty_world).
Proof.
  split; [|reflexivity].
  eexists _, _. split; [reflexivity|]. split; [reflexivity|].
  split; reflexivity.
Qed.

(** C1 (amended) at the defaults: a first call at epoch 7, then a call with a
    larger loss, then a call with a smaller one. *)
Lemma es_call_cases_witness :
  (∃ s' w', es_call (C:=toy) default_args (num 3) toy_learner 7 fresh_es
                    empty_world = Ok (s', w') ∧
            best_score s' = Some (fneg (num 3)) ∧ counter s' = counter fresh_es ∧
            early_stop s' = early_stop fresh_es ∧ val_loss_min s' = num 3 ∧
            writes (trace w') =
              writes (trace empty_world) ++
                (if bool_decide (7 `mod` save_freq default_args = 0) then []
                 else [ckpt_path default_args (EpochNum 7)])) ∧
  (∃ s' w', es_call (C:=toy) default_args (num 4) toy_learner 8
                    (set_best_score (fneg (num 3)) fresh_es)
                    empty_world = Ok (s', w') ∧
            counter s' = 1 ∧ early_stop s' = false ∧
            writes (trace w') = []) ∧
  (∃ s' w', es_call (C:=toy) default_args (num 2) toy_learner 9
                    (set_counter 5 (set_best_score (fneg (num 3)) fresh_es))
                    empty_world = Ok (s', w') ∧
            best_score s' = Some (fneg (num 2)) ∧ counter s' = 0).
Proof.
  assert (save_freq default_args ≠ 0) as Hf by discriminate.
  split; [|split].
  - destruct (es_call_cases (C:=toy) default_args (num 3) toy_learner 7 fresh_es
                empty_world Hf) as (s' & w' & Hcall & _ & _ & Hfirst & _).
    exists s', w'. split; [exact Hcall|]. apply Hfirst. reflexivity.
  - destruct (es_call_cases (C:=toy) default_args (num 4) toy_learner 8
                (set_best_score (fneg (num 3)) fresh_es) empty_world Hf)
      as (s' & w' & Hcall & _ & _ & _ & Hworse & _).
    exists s', w'. split; [exact Hcall|].
    destruct (Hworse (fneg (num 3))) as (_ & Hc & Hs & _ & _ & Hw);
      [reflexivity|reflexivity|].
    split; [exact Hc|]. split; [|exact Hw].
    rewrite Hs, Hc. reflexivity.
  - destruct (es_call_cases (C:=toy) default_args (num 2) toy_learner 9
                (set_counter 5 (set_best_score (fneg (num 3)) fresh_es))
                empty_world Hf)
      as (s' & w' & Hcall & _ & _ & _ & _ & Hbetter).
    exists s', w'. split; [exact Hcall|].
    destruct (Hbetter (fneg (num 3))) as (Hb & Hc & _);
      [reflexivity|reflexivity|].
    split; [exact Hb|exact Hc].
Defined.

(** C4 as stated fails: at the defaults both improving calls, at epochs 10
    and 20, update [val_loss_min] and write no checkpoint; with
    [save_freq = 0] an improving call raises. *)
Lemma es_improvement_without_checkpoint :
  (∃ s' w', es_calls (C:=toy) default_args toy_learner
                     [(num 5, 10); (num 3, 20)] fresh_es empty_world
              = Ok (s', w') ∧
            fgeb (fneg (num 3)) (fadd (fneg (num 5)) (delta fresh_es)) = true ∧
            best_score s' = Some (fneg (num 3)) ∧ val_loss_min s' = num 3 ∧
            fs w' = ∅ ∧ writes (trace w') = []) ∧
  es_calls (C:=toy) no_save_args toy_learner [(num 5, 10)] fresh_es empty_world =
    Raise ZeroDivisionError
          (emit (LogValLossDecreased np_Inf (num 5)) empty_world).
Proof.
  split; [|reflexivity].
  eexists _, _. split; [reflexivity|]. split; [reflexivity|].
  split; [reflexivity|]. split; [reflexivity|]. split; reflexivity.
Qed.

(** C4 (amended) at the defaults: an improving call at epoch 7 writes the
    checkpoint of epoch 7. *)
Lemma es_improvement_checkpoint_witness :
  ∃ s' w', es_call (C:=toy) default_args (num 3) toy_learner 7
                   (set_best_score (fneg (num 5)) fresh_es) empty_world
             = Ok (s', w') ∧
           val_loss_min s' = num 3 ∧
           fs w' = <[ckpt_path default_args (EpochNum 7) :=
                       CkptFile (saved_state default_args (EpochNum 7) toy_learner)]>
                     (fs empty_world) ∧
           writes (trace w') =
             writes (trace empty_world) ++ [ckpt_path default_args (EpochNum 7)].
Proof.
  destruct (es_improvement_checkpoint (C:=toy) default_args (num 3) toy_learner 7
              (set_best_score (fneg (num 5)) fresh_es) empty_world)
    as (s' & w' & Hcall & Hv & Hsave & _).
  - discriminate.
  - right. exists (fneg (num 5)). split; reflexivity.
  - exists s', w'. split; [exact Hcall|]. split; [exact Hv|].
    apply Hsave. discriminate.
Defined.

(** C10 as stated fails in each of its first two parts: with patience 1 a
    third call brings [counter] to 2; with [delta = -5] a larger loss lowers
    [best_score]; and a NaN loss lets the next loss lower it too. *)
Lemma es_invariants_broken :
  (∃ s' w', es_calls (C:=toy) default_args toy_learner
                     [(num 1, 1); (num 2, 2); (num 3, 3)]
                     (es_init 1 true fzero "checkpoint.pt") empty_world
              = Ok (s', w') ∧
            counter s' = 2 ∧ patience s' = 1) ∧
  (∃ s1 w1 s2 w2,
      es_calls (C:=toy) default_args toy_learner [(num 1, 1)]
               (es_init 20 true (num (-5)) "checkpoint.pt") empty_world
        = Ok (s1, w1) ∧
      es_call (C:=toy) default_args (num 2) toy_learner 2 s1 w1 = Ok (s2, w2) ∧
      best_score s1 = Some (fneg (num 1)) ∧
      best_score s2 = Some (fneg (num 2)) ∧
      fltb (fneg (num 2)) (fneg (num 1)) = true) ∧
  (∃ s1 w1 s3 w3,
      es_calls (C:=toy) default_args toy_learner [(num 1, 1)]
               fresh_es empty_world = Ok (s1, w1) ∧
      es_calls (C:=toy) default_args toy_learner [(FNaN, 2); (num 9, 3)] s1 w1
        = Ok (s3, w3) ∧
      best_score s1 = Some (fneg (num 1)) ∧
      best_score s3 = Some (fneg (num 9)) ∧
      fltb (fneg (num 9)) (fneg (num 1)) = true).
Proof.
  split; [|split].
  - eexists _, _. split; [reflexivity|]. split; reflexivity.
  - eexists _, _, _, _. split; [reflexivity|]. split; [reflexivity|].
    split; [reflexivity|]. split; reflexivity.
  - eexists _, _, _, _. split; [reflexivity|]. split; [reflexivity|].
    split; [reflexivity|]. split; reflexivity.
Qed.

(** C10 (amended) at the defaults: a call with a larger loss on an object
    that has seen 18 such calls. *)
Lemma es_call_invariants_witness :
  ∃ s' w', es_call (C:=toy) default_args (num 4) toy_learner 30
                   (set_counter 18 (set_best_score (fneg (num 3)) fresh_es))
                   empty_world = Ok (s', w') ∧
    (∃ b', best_score s' = Some b' ∧ b' ≠ FNaN ∧
           fleb (fneg (num 3)) b' = true) ∧
    0 ≤ counter s' ≤ patience s' ∧
    (early_stop s' = false → counter s' < patience s').
Proof.
  destruct (es_call_invariants (C:=toy) default_args (num 4) toy_learner 30
              (set_counter 18 (set_best_score (fneg (num 3)) fresh_es))
              empty_world)
    as (s' & w' & Hcall & _ & _ & _ & Hbest & Hcount).
  - discriminate.
  - exists s', w'. split; [exact Hcall|]. split.
    + apply (Hbest (fneg (num 3))); [reflexivity|discriminate|discriminate|reflexivity].
    + apply Hcount; [reflexivity|]. simpl. lia.
Defined.

(** C3 at the defaults: the checkpoint of epoch 20, written by the periodic
    save, is loaded into another learner. *)
Lemma checkpoint_roundtrip_witness :
  ∃ w1 w2,
    save_checkpoint (C:=toy) default_args (EpochNum 20) toy_learner false
                    empty_world = Ok ((), w1) ∧
    load_checkpoint resume_args other_learner w1 =
      Ok (set_start_epoch (20 + 1) resume_args, toy_learner, w2) ∧
    start_epoch (set_start_epoch (20 + 1) resume_args) = 20 + 1 ∧
    fs w2 = fs w1.
Proof.
  apply (checkpoint_roundtrip (C:=toy) default_args 20 toy_learner false
           empty_world resume_args other_learner).
  - right. split; [discriminate|]. exists 2. reflexivity.
  - reflexivity.
Defined.

(** The prefixes at the default of eight decoder layers. *)
Example eval_prefixes_default :
  eval_prefixes default_args =
    ["last_"; "proposal_"; "0head_"; "1head_"; "2head_"; "3head_"; "4head_";
     "5head_"; "6head_"].
Proof. reflexivity. Qed.

(** C6 at eight decoder layers and at none. *)
Lemma eval_prefixes_spec_witness :
  ((∀ p, p ∈ eval_prefixes default_args ↔
           p = "last_" ∨ p = "proposal_" ∨
           ∃ i, 0 ≤ i ≤ num_decoder_layers default_args - 2 ∧
                p = pretty i +:+ "head_") ∧
   NoDup (eval_prefixes default_args) ∧
   Z.of_nat (length (eval_prefixes default_args)) =
     num_decoder_layers default_args + 1) ∧
  eval_prefixes no_layer_args = ["proposal_"].
Proof.
  split.
  - apply (proj1 (eval_prefixes_spec default_args)). reflexivity.
  - apply (proj2 (eval_prefixes_spec no_layer_args)). discriminate.
Defined.

(** C9 with [--clip_norm 0]: the first batch raises; at the default
    [clip_norm] of 0.1 it completes. *)
Lemma train_needs_clip_norm_witness :
  (∃ st, train_batch (C:=toy) default_args empty_world 1 (toy_learner, None)
           = Ok st ∧
         fgtb (clip_norm default_args) fzero = true) ∧
  train_batch (C:=toy) no_clip_args empty_world 1 (toy_learner, None) =
    Raise (NameError "grad_total_norm") empty_world ∧
  train_one_epoch (C:=toy) 1 (1 :: [2]) no_clip_args toy_learner empty_world =
    Raise (NameError "grad_total_norm") empty_world.
Proof.
  split.
  - eexists. split; [reflexivity|].
    eapply (proj1 (train_needs_clip_norm (C:=toy) default_args 1 1 [2]
                     toy_learner empty_world)).
    reflexivity.
  - apply (proj2 (train_needs_clip_norm (C:=toy) no_clip_args 1 1 [2]
                    toy_learner empty_world)).
    reflexivity.
Defined.

(** C7 as stated fails: on the losses 9, 9 and 10 the result is the double
    next to 28/3, not 28/3; on twice the double written [1e308] the sum
    overflows and the result is infinite, while the mean is that double. *)
Lemma validation_loss_not_the_mean :
  (∃ v w', evaluate_one_epoch (C:=toy) uneven_loader 0 quick_args empty_world
             = Ok (v, w') ∧
           batch_loss (Collab:=toy) 0 <$> uneven_loader =
             FNum <$> [Qc_of_Z 9; Qc_of_Z 9; Qc_of_Z 10] ∧
           v = FNum (Q2Qc (5254199565265579 # 562949953421312)) ∧
           v ≠ FNum (arithmetic_mean [Qc_of_Z 9; Qc_of_Z 9; Qc_of_Z 10])) ∧
  (∃ v w', evaluate_one_epoch (C:=toy) huge_loader 0 quick_args empty_world
             = Ok (v, w') ∧
           batch_loss (Collab:=toy) 0 <$> huge_loader =
             FNum <$> [Qc_of_Z huge_loss; Qc_of_Z huge_loss] ∧
           match round64 (inject_Z (10 ^ 308)) with
           | FNum q => q == inject_Z huge_loss
           | _ => False
           end ∧
           v = FInf false ∧
           arithmetic_mean [Qc_of_Z huge_loss; Qc_of_Z huge_loss] =
             Qc_of_Z huge_loss).
Proof.
  split.
  - eexists _, _. split; [reflexivity|]. split; [reflexivity|].
    split; [vm_compute; reflexivity|].
    intros H.
    apply (f_equal (λ x, match x with FNum q => Qden q | _ => 1%positive end))
      in H.
    vm_compute in H. discriminate H.
  - eexists _, _. split; [reflexivity|]. split; [reflexivity|].
    split; [|split; [vm_compute; reflexivity|]].
    + vm_compute. reflexivity.
    + apply Qc_is_canon. vm_compute. reflexivity.
Qed.

(** C7 (amended) on the two-batch loader: the losses 1 and 2 average to the
    double 3/2; and the first pass of the loop of a short run. *)
Lemma validation_loss_is_mean_witness :
  (∃ w', evaluate_one_epoch (C:=toy) toy_loader 0 quick_args empty_world =
           Ok (np_average (batch_loss (Collab:=toy) 0 <$> toy_loader), w') ∧
         length (batch_loss (Collab:=toy) 0 <$> toy_loader) = length toy_loader) ∧
  np_average (batch_loss (Collab:=toy) 0 <$> toy_loader) =
    fdiv_count (np_sum (batch_loss (Collab:=toy) 0 <$> toy_loader))
               (length toy_loader) ∧
  np_average (batch_loss (Collab:=toy) 0 <$> toy_loader) =
    round64 (arithmetic_mean (Qc_of_Z <$> [1; 2])) ∧
  (∃ f s', epoch_body (C:=toy) quick_args quick_args 0 toy_loader toy_loader
                      toy_loader 1 (Run toy_learner fresh_es empty_world)
             = Ok (f, s') ∧
           ∃ w w',
             es_call quick_args
                     (np_average (batch_loss (model (r_learner s')) <$> toy_loader))
                     (r_learner s') 1 fresh_es w = Ok (r_es s', w')).
Proof.
  pose proof (validation_loss_is_mean (C:=toy) quick_args quick_args toy_loader
                toy_loader toy_loader) as (Heval & Hdef & Hmean & Hfed).
  split; [|split; [|split]].
  - apply Heval. discriminate.
  - apply Hdef. discriminate.
  - apply Hmean; [reflexivity|discriminate|reflexivity].
  - destruct (epoch_body_returns (C:=toy) quick_args quick_args 0 toy_loader
                toy_loader toy_loader 1 (Run toy_learner fresh_es empty_world))
      as (f & s' & Hbody).
    { repeat split; discriminate. }
    exists f, s'. split; [exact Hbody|].
    apply (Hfed 1 (Run toy_learner fresh_es empty_world) f s' Hbody).
    reflexivity.
Defined.

(** C8 on a run of five epochs of two batches, on rank 0: five calls of
    [train_one_epoch], after which the model has taken ten steps. *)
Lemma main_trains_every_epoch_witness :
  ∃ p s',
    main (C:=toy) short_args short_args 0 toy_loader toy_loader toy_loader
         toy_learner empty_world = Ok (p, s') ∧
    early_stop (r_es s') = false ∧
    trained_epochs (trace (r_io s')) = [1; 2; 3; 4; 5] ∧
    (∃ s, trains short_args toy_loader [1; 2; 3; 4; 5]
                 (Run toy_learner fresh_es empty_world) s ∧
          r_learner s' = r_learner s) ∧
    model (r_learner s') = 10.
Proof.
  destruct (main_trains_every_epoch (C:=toy) short_args short_args 0 toy_loader
              toy_loader toy_loader toy_learner empty_world
              short_args toy_learner empty_world)
    as (Hreturns & Hdone & _).
  - reflexivity.
  - destruct Hreturns as (p & s' & Hmain); [repeat split; discriminate|].
    destruct (Hdone p s' Hmain) as (Htrained & _).
    assert (match main (C:=toy) short_args short_args 0 toy_loader toy_loader
                       toy_loader toy_learner empty_world with
            | Ok (_, s) => early_stop (r_es s)
            | Raise _ _ => true
            end = false) as Hstop by (vm_compute; reflexivity).
    assert (match main (C:=toy) short_args short_args 0 toy_loader toy_loader
                       toy_loader toy_learner empty_world with
            | Ok (_, s) => model (r_learner s)
            | Raise _ _ => 0
            end = 10) as Hmodel by (vm_compute; reflexivity).
    rewrite Hmain in Hstop, Hmodel.
    destruct (Htrained Hstop) as (Hlog & s & Htrains & Hl & _).
    exists p, s'. split; [exact Hmain|]. split; [exact Hstop|].
    split; [rewrite Hlog; reflexivity|]. split; [|exact Hmodel].
    exists s. split; [exact Htrains|exact Hl].
Defined.

(** C2 on a run set for 30 epochs: the loss never improves after epoch 1, so
    [early_stop] is set at epoch 21; epochs 22 to 30 are not trained. *)
Lemma early_stop_ends_main_witness :
  ∃ sb wE w',
    main (C:=toy) quick_args quick_args 0 toy_loader toy_loader toy_loader
         toy_learner empty_world =
      Ok ("log/ckpt_epoch_last.pth", Run (r_learner sb) (r_es sb) w') ∧
    early_stop (r_es sb) = true ∧
    evaluate_one_epoch (C:=toy) toy_loader (model (r_learner sb)) quick_args
                       (r_io sb) =
      Ok (np_average (batch_loss (model (r_learner sb)) <$> toy_loader), wE) ∧
    w' = emit (LogSavedIn "log/ckpt_epoch_last.pth")
              (saved_world quick_args EpochLast (r_learner sb) wE) ∧
    trained_epochs (trace w') = seqZ 1 21 ∧
    fs w' !! "log/ckpt_epoch_last.pth" =
      Some (CkptFile (saved_state quick_args EpochLast (r_learner sb))).
Proof.
  assert (well_configured quick_args quick_args) as Hwf
    by (repeat split; discriminate).
  destruct (epoch_loop_returns (C:=toy) quick_args quick_args 0 toy_loader
              toy_loader toy_loader (seqZ 1 20)
              (Run toy_learner fresh_es empty_world) Hwf) as (s1 & Hloop).
  destruct (epoch_body_returns (C:=toy) quick_args quick_args 0 toy_loader
              toy_loader toy_loader 21 s1 Hwf) as (f & sb & Hbody).
  assert (match epoch_loop (C:=toy) quick_args quick_args 0 toy_loader
                           toy_loader toy_loader (seqZ 1 20)
                           (Run toy_learner fresh_es empty_world) with
          | Ok s => early_stop (r_es s)
          | Raise _ _ => true
          end = false) as Hs1 by (vm_compute; reflexivity).
  assert (match epoch_loop (C:=toy) quick_args quick_args 0 toy_loader
                           toy_loader toy_loader (seqZ 1 20)
                           (Run toy_learner fresh_es empty_world) ≫=
                epoch_body (C:=toy) quick_args quick_args 0 toy_loader
                           toy_loader toy_loader 21 with
          | Ok (_, s) => early_stop (r_es s)
          | Raise _ _ => false
          end = true) as Hsb by (vm_compute; reflexivity).
  rewrite Hloop in Hs1, Hsb. cbn [mbind result_bind] in Hsb.
  rewrite Hbody in Hsb.
  destruct (early_stop_ends_main (C:=toy) quick_args quick_args toy_loader
              toy_loader toy_loader toy_learner empty_world
              quick_args toy_learner empty_world (seqZ 1 20) 21 (seqZ 22 9)
              s1 f sb)
    as (wE & w' & _ & Heval & Hmain & Hworld & Htrained & Hfile & _).
  - reflexivity.
  - vm_compute. reflexivity.
  - exact Hloop.
  - exact Hs1.
  - exact Hbody.
  - reflexivity.
  - exact Hsb.
  - exists sb, wE, w'. split; [exact Hmain|]. split; [exact Hsb|].
    split; [exact Heval|]. split; [exact Hworld|]. split; [|exact Hfile].
    rewrite Htrained. reflexivity.
Defined.

(** * Further properties at concrete inputs *)

(** X1 with [--save_freq 0]: three calls with larger losses on an object
    that has counted 17 bring [counter] to the patience of 20. *)
Lemma es_consecutive_worse_witness :
  ∃ s' w', es_calls (C:=toy) no_save_args toy_learner
                    [(num 4, 1); (num 5, 2); (num 6, 3)]
                    (set_counter 17 (set_best_score (fneg (num 3)) fresh_es))
                    empty_world = Ok (s', w') ∧
    best_score s' = Some (fneg (num 3)) ∧ counter s' = 20 ∧
    early_stop s' = true ∧ fs w' = fs empty_world.
Proof.
  destruct (es_consecutive_worse (C:=toy) no_save_args toy_learner
              [(num 4, 1); (num 5, 2); (num 6, 3)]
              (set_counter 17 (set_best_score (fneg (num 3)) fresh_es))
              empty_world (fneg (num 3)))
    as (s' & w' & Hcall & Hb & Hc & Hs & _ & _ & _ & Hfs & _).
  - reflexivity.
  - repeat constructor.
  - exists s', w'. split; [exact Hcall|]. split; [exact Hb|].
    split; [rewrite Hc; reflexivity|]. split; [|exact Hfs].
    rewrite Hs. reflexivity.
Defined.

(** X2 at the defaults: after three calls from construction [best_score] is
    the opposite of [val_loss_min]. *)
Lemma es_best_mirrors_min_witness :
  ∃ s' w', es_calls (C:=toy) default_args toy_learner
                    [(num 5, 7); (num 6, 8); (num 3, 9)] fresh_es empty_world
             = Ok (s', w') ∧
    best_score s' = Some (fneg (val_loss_min s')).
Proof.
  destruct (es_calls (C:=toy) default_args toy_learner
              [(num 5, 7); (num 6, 8); (num 3, 9)] fresh_es empty_world)
    as [[s' w']|ex w'] eqn:Hcalls.
  - exists s', w'. split; [reflexivity|].
    pose proof (es_best_mirrors_min (C:=toy) default_args toy_learner
                  [(num 5, 7); (num 6, 8); (num 3, 9)] fresh_es empty_world
                  s' w' eq_refl Hcalls) as Hm.
    destruct (best_score s') as [b|].
    + rewrite Hm. reflexivity.
    + destruct Hm as [_ Hnil]. discriminate Hnil.
  - vm_compute in Hcalls. discriminate Hcalls.
Defined.

(** X3 at the defaults: a NaN loss on an object one call short of its
    patience resets [counter]. *)
Lemma es_nan_counts_as_improvement_witness :
  ∃ s' w', es_call (C:=toy) default_args FNaN toy_learner 10
                   (set_counter 19 (set_best_score (fneg (num 3)) fresh_es))
                   empty_world = Ok (s', w') ∧
    counter s' = 0 ∧ best_score s' = Some (fneg FNaN) ∧
    val_loss_min s' = FNaN ∧ early_stop s' = false.
Proof.
  apply (es_nan_counts_as_improvement (C:=toy) default_args FNaN toy_learner 10
           (set_counter 19 (set_best_score (fneg (num 3)) fresh_es))
           empty_world (fneg (num 3))).
  - discriminate.
  - reflexivity.
  - left. reflexivity.
Defined.

(** X4 at the defaults, at the validation epoch 10; and with
    [--clip_norm 0] on an empty loader. *)
Lemma train_one_epoch_outcome_witness :
  (∃ l', train_one_epoch (C:=toy) 10 toy_loader default_args toy_learner
                         empty_world =
           Ok (l', emit (LogTrainStats 10) empty_world)) ∧
  train_one_epoch (C:=toy) 7 [] no_clip_args toy_learner empty_world =
    Ok (toy_learner, empty_world).
Proof.
  split.
  - pose proof (train_one_epoch_outcome (C:=toy) 10 toy_loader default_args
                  toy_learner empty_world) as H.
    destruct (train_one_epoch (C:=toy) 10 toy_loader default_args toy_learner
                empty_world) as [[l' w']|ex w'].
    + destruct H as (_ & _ & _ & ->). exists l'. reflexivity.
    + destruct H as (_ & [(_ & Hc & _) | (_ & Hv & _)]); discriminate.
  - pose proof (train_one_epoch_outcome (C:=toy) 7 [] no_clip_args
                  toy_learner empty_world) as H.
    destruct (train_one_epoch (C:=toy) 7 [] no_clip_args toy_learner
                empty_world) as [[l' w']|ex w'].
    + destruct H as (_ & _ & Hl & ->). rewrite (Hl eq_refl). reflexivity.
    + destruct H as (_ & [(_ & _ & Hc) | (_ & Hv & _)]);
        [destruct Hc; reflexivity | discriminate].
Defined.

(** X5 with [--print_freq 0]: an empty loader gives NaN, the two-batch
    loader raises at its first batch. *)
Lemma evaluate_one_epoch_outcome_witness :
  (∃ w', evaluate_one_epoch (C:=toy) [] 0 no_print_args empty_world =
           Ok (FNaN, w') ∧ fs w' = fs empty_world) ∧
  evaluate_one_epoch (C:=toy) toy_loader 0 no_print_args empty_world =
    Raise ZeroDivisionError empty_world.
Proof.
  split.
  - pose proof (evaluate_one_epoch_outcome (C:=toy) [] 0 no_print_args
                  empty_world) as H.
    destruct (evaluate_one_epoch (C:=toy) [] 0 no_print_args empty_world)
      as [[v w']|ex w'].
    + destruct H as (_ & _ & Hnan & Hfs & _). exists w'.
      rewrite (Hnan eq_refl). split; [reflexivity|exact Hfs].
    + destruct H as (_ & _ & _ & Hne). destruct Hne; reflexivity.
  - pose proof (evaluate_one_epoch_outcome (C:=toy) toy_loader 0 no_print_args
                  empty_world) as H.
    destruct (evaluate_one_epoch (C:=toy) toy_loader 0 no_print_args
                empty_world) as [[v w']|ex w'].
    + destruct H as ([Hp | Hl] & _); [destruct Hp; reflexivity | discriminate].
    + destruct H as (-> & -> & _). reflexivity.
Defined.

(** X6 with [--print_freq 2] on five batches: progress after the batches 2
    and 4, then the blocks of the three prefixes. *)
Lemma evaluate_one_epoch_trace_witness :
  ∃ v w', evaluate_one_epoch (C:=toy) long_loader 0 sparse_print_args
                             empty_world = Ok (v, w') ∧
    trace w' =
      [LogEvalProgress 2; LogEvalProgress 4;
       LogAP "last_" (FNum (Q2Qc (1 # 4))); LogAP "last_" (FNum (Q2Qc (1 # 2)));
       LogAP "proposal_" (FNum (Q2Qc (1 # 4)));
       LogAP "proposal_" (FNum (Q2Qc (1 # 2)));
       LogAP "0head_" (FNum (Q2Qc (1 # 4))); LogAP "0head_" (FNum (Q2Qc (1 # 2)))].
Proof.
  destruct (evaluate_one_epoch_trace (C:=toy) long_loader 0 sparse_print_args
              empty_world) as (v & w' & Heval & Htrace).
  - discriminate.
  - exists v, w'. split; [exact Heval|]. rewrite Htrace. reflexivity.
Defined.

(** X7 on the run resumed from epoch 3: it trains the epochs 4 and 5 and
    leaves the checkpoint of epoch 3 as it found it. *)
Lemma main_keeps_other_checkpoints_witness :
  ∃ p s', main (C:=toy) resume_short_args resume_short_args 0 toy_loader
               toy_loader toy_loader toy_learner ckpt3_world = Ok (p, s') ∧
    fs (r_io s') !! ckpt_path resume_short_args (EpochNum 3) =
      Some (CkptFile (saved_state short_args (EpochNum 3) other_learner)).
Proof.
  assert (resume (C:=toy) resume_short_args toy_learner ckpt3_world =
            Ok (set_start_epoch (3 + 1) resume_short_args, other_learner,
                emit (LogLoaded "log/ckpt_epoch_3.pth" (EpochNum 3))
                     (emit (LogLoading (Some "log/ckpt_epoch_3.pth"))
                           ckpt3_world))) as Hres by reflexivity.
  destruct (main_returns (C:=toy) resume_short_args resume_short_args 0
              toy_loader toy_loader toy_loader toy_learner ckpt3_world _ _ _
              Hres) as (p & s' & Hmain).
  { repeat split; discriminate. }
  exists p, s'. split; [exact Hmain|].
  rewrite (main_keeps_other_checkpoints (C:=toy) resume_short_args
             resume_short_args 0 toy_loader toy_loader toy_loader toy_learner
             ckpt3_world _ _ _ p s' 3 Hres eq_refl Hmain).
  - reflexivity.
  - simpl. lia.
Defined.

(** X8 on the five-epoch run: started again from the file it wrote at its
    end, [main] raises. *)
Lemma last_checkpoint_not_resumable_witness :
  ∃ p s', main (C:=toy) short_args short_args 0 toy_loader toy_loader
               toy_loader toy_learner empty_world = Ok (p, s') ∧
    p = "log/ckpt_epoch_last.pth" ∧
    main (C:=toy) resume_last_args resume_last_args 0 toy_loader toy_loader
         toy_loader toy_learner (r_io s') =
      Raise TypeError (emit (LogLoading (Some p)) (r_io s')).
Proof.
  destruct (main_returns (C:=toy) short_args short_args 0 toy_loader toy_loader
              toy_loader toy_learner empty_world short_args toy_learner
              empty_world eq_refl) as (p & s' & Hmain).
  { repeat split; discriminate. }
  assert (match main (C:=toy) short_args short_args 0 toy_loader toy_loader
                     toy_loader toy_learner empty_world with
          | Ok (q, _) => q
          | Raise _ _ => ""
          end = "log/ckpt_epoch_last.pth") as Hp by (vm_compute; reflexivity).
  rewrite Hmain in Hp.
  exists p, s'. split; [exact Hmain|]. split; [exact Hp|].
  apply (last_checkpoint_not_resumable (C:=toy) short_args short_args 0
           toy_loader toy_loader toy_loader toy_learner empty_world p s'
           resume_last_args resume_last_args 0 toy_loader toy_loader toy_loader
           toy_learner Hmain).
  rewrite Hp. reflexivity.
Defined.

(** X9 on the run resumed from epoch 3, whose command line says
    [--start_epoch 1]: the epochs 4 and 5 are trained. *)
Lemma resumed_run_continues_witness :
  ∃ p s', main (C:=toy) resume_short_args resume_short_args 0 toy_loader
               toy_loader toy_loader toy_learner ckpt3_world = Ok (p, s') ∧
    start_epoch resume_short_args = 1 ∧
    trained_epochs (trace (r_io s')) = [4; 5] ∧
    (∃ s, trains (set_start_epoch (3 + 1) resume_short_args) toy_loader [4; 5]
                 (Run other_learner fresh_es
                      (emit (LogLoaded "log/ckpt_epoch_3.pth" (EpochNum 3))
                            (emit (LogLoading (Some "log/ckpt_epoch_3.pth"))
                                  ckpt3_world))) s ∧
          r_learner s' = r_learner s) ∧
    model (r_learner s') = model other_learner + 4.
Proof.
  assert (resume (C:=toy) resume_short_args toy_learner ckpt3_world =
            Ok (set_start_epoch (3 + 1) resume_short_args, other_learner,
                emit (LogLoaded "log/ckpt_epoch_3.pth" (EpochNum 3))
                     (emit (LogLoading (Some "log/ckpt_epoch_3.pth"))
                           ckpt3_world))) as Hres by reflexivity.
  destruct (main_returns (C:=toy) resume_short_args resume_short_args 0
              toy_loader toy_loader toy_loader toy_learner ckpt3_world _ _ _
              Hres) as (p & s' & Hmain).
  { repeat split; discriminate. }
  assert (match main (C:=toy) resume_short_args resume_short_args 0 toy_loader
                     toy_loader toy_loader toy_learner ckpt3_world with
          | Ok (_, s) => early_stop (r_es s)
          | Raise _ _ => true
          end = false) as Hstop by (vm_compute; reflexivity).
  assert (match main (C:=toy) resume_short_args resume_short_args 0 toy_loader
                     toy_loader toy_loader toy_learner ckpt3_world with
          | Ok (_, s) => model (r_learner s)
          | Raise _ _ => 0
          end = model other_learner + 4) as Hmodel by (vm_compute; reflexivity).
  rewrite Hmain in Hstop, Hmodel.
  destruct (resumed_run_continues (C:=toy) resume_short_args resume_short_args
              0 toy_loader toy_loader toy_loader toy_learner ckpt3_world
              "log/ckpt_epoch_3.pth"
              (saved_state short_args (EpochNum 3) other_learner) 3 p s')
    as (Htrained & _).
  - reflexivity.
  - discriminate.
  - reflexivity.
  - reflexivity.
  - exact Hmain.
  - destruct (Htrained Hstop) as (Hlog & s & Htrains & Hl & _).
    exists p, s'. split; [exact Hmain|]. split; [reflexivity|].
    split; [rewrite Hlog; reflexivity|]. split; [|exact Hmodel].
    exists s. split; [exact Htrains|exact Hl].
Defined.

(** X10 with [--start_epoch 6 --max_epoch 5]: the only file written is
    [ckpt_epoch_last.pth], with the learner [main] was given. *)
Lemma main_empty_range_witness :
  ∃ s', main (C:=toy) done_args done_args 0 toy_loader toy_loader toy_loader
             toy_learner empty_world = Ok (ckpt_path done_args EpochLast, s') ∧
    r_learner s' = toy_learner ∧
    r_es s' = es_init 20 true fzero "checkpoint.pt" ∧
    trained_epochs (trace (r_io s')) = trained_epochs (trace empty_world) ∧
    writes (trace (r_io s')) =
      writes (trace empty_world) ++ [ckpt_path done_args EpochLast] ∧
    fs (r_io s') =
      <[ckpt_path done_args EpochLast :=
          CkptFile (saved_state done_args EpochLast toy_learner)]>
        (fs empty_world).
Proof.
  apply (main_empty_range (C:=toy) done_args done_args 0 toy_loader toy_loader
           toy_loader toy_learner empty_world done_args toy_learner
           empty_world).
  - reflexivity.
  - simpl. lia.
  - left. discriminate.
Defined.

(** X11 on rank 1 of the five-epoch run: five dumps of the training losses
    and the final checkpoint. *)
Lemma other_ranks_only_dump_losses_witness :
  ∃ p s', main (C:=toy) short_args short_args 1 toy_loader toy_loader
               toy_loader toy_learner empty_world = Ok (p, s') ∧
    writes (trace (r_io s')) =
      replicate 5 "log/train_loss_dict.pkl" ++ ["log/ckpt_epoch_last.pth"] ∧
    r_es s' = fresh_es.
Proof.
  destruct (main_returns (C:=toy) short_args short_args 1 toy_loader toy_loader
              toy_loader toy_learner empty_world short_args toy_learner
              empty_world eq_refl) as (p & s' & Hmain).
  { repeat split; discriminate. }
  destruct (other_ranks_only_dump_losses (C:=toy) short_args short_args 1
              toy_loader toy_loader toy_loader toy_learner empty_world
              short_args toy_learner empty_world p s') as (Hw & Hes).
  - discriminate.
  - reflexivity.
  - exact Hmain.
  - exists p, s'. split; [exact Hmain|]. split; [|exact Hes].
    rewrite Hw. reflexivity.
Defined.

(** X12 on the five-epoch run with an empty test loader. *)
Lemma empty_test_loader_never_stops_witness :
  ∃ p s', main (C:=toy) short_args short_args 0 toy_loader toy_loader []
               toy_learner empty_world = Ok (p, s') ∧
    early_stop (r_es s') = false ∧
    trained_epochs (trace (r_io s')) = [1; 2; 3; 4; 5] ∧
    ∃ s, trains short_args toy_loader [1; 2; 3; 4; 5]
                (Run toy_learner fresh_es empty_world) s ∧
         r_learner s' = r_learner s.
Proof.
  destruct (main_returns (C:=toy) short_args short_args 0 toy_loader toy_loader
              [] toy_learner empty_world short_args toy_learner
              empty_world eq_refl) as (p & s' & Hmain).
  { repeat split; discriminate. }
  destruct (empty_test_loader_never_stops (C:=toy) short_args short_args 0
              toy_loader toy_loader toy_learner empty_world
              short_args toy_learner empty_world p s' eq_refl Hmain)
    as (Hstop & Htrained & s & Htrains & Hl & _).
  exists p, s'. split; [exact Hmain|]. split; [exact Hstop|].
  split; [rewrite Htrained; reflexivity|].
  exists s. split; [exact Htrains|exact Hl].
Defined.

(** X13 on the run set for 30 epochs with validation at every epoch, which
    stops early: at least 21 of the epochs it trained were validated. *)
Lemma early_stop_needs_21_validations_witness :
  ∃ p s', main (C:=toy) quick_args quick_args 0 toy_loader toy_loader
               toy_loader toy_learner empty_world = Ok (p, s') ∧
    early_stop (r_es s') = true ∧
    ∃ passed rest,
      py_range (start_epoch quick_args) (max_epoch quick_args + 1) =
        passed ++ rest ∧
      trained_epochs (trace (r_io s')) =
        trained_epochs (trace empty_world) ++ passed ∧
      21 ≤ Z.of_nat (length (validation_epochs quick_args passed)).
Proof.
  destruct (main_returns (C:=toy) quick_args quick_args 0 toy_loader toy_loader
              toy_loader toy_learner empty_world quick_args toy_learner
              empty_world eq_refl) as (p & s' & Hmain).
  { repeat split; discriminate. }
  assert (match main (C:=toy) quick_args quick_args 0 toy_loader toy_loader
                     toy_loader toy_learner empty_world with
          | Ok (_, s) => early_stop (r_es s)
          | Raise _ _ => false
          end = true) as Hstop by (vm_compute; reflexivity).
  rewrite Hmain in Hstop.
  exists p, s'. split; [exact Hmain|]. split; [exact Hstop|].
  apply (early_stop_needs_21_validations (C:=toy) quick_args quick_args 0
           toy_loader toy_loader toy_loader toy_learner empty_world
           quick_args toy_learner empty_world p s' eq_refl Hmain Hstop).
Defined.

(** X15 on the figure of the key [loss], which both dictionaries have. *)
Lemma plot_metrics_curves_witness :
  loss_figure ∈ (plot_metrics train_plots 10 "log/plots" false (Some val_plots)
                              (Some "train") (Some "val")).2 ∧
  (∀ c, c ∈ fig_curves loss_figure →
     length (cv_x c) = length (cv_y c) ∧
     ∀ i y, cv_y c !! i = Some y →
            cv_x c !! i = Some ((Z.of_nat i + 1) * 10)) ∧
  (fig_legend loss_figure = true ↔ length (fig_curves loss_figure) = 2%nat).
Proof.
  assert (loss_figure ∈ (plot_metrics train_plots 10 "log/plots" false
                                      (Some val_plots) (Some "train")
                                      (Some "val")).2) as Hin
    by (apply list_elem_of_here).
  split; [exact Hin|].
  exact (plot_metrics_curves train_plots 10 "log/plots" false (Some val_plots)
           (Some "train") (Some "val") loss_figure Hin).
Defined.

(** X16 on the same dictionaries: one file per key of the first one. *)
Lemma plot_metrics_one_file_per_key_witness :
  fig_file <$> (plot_metrics train_plots 10 "log/plots" false (Some val_plots)
                             (Some "train") (Some "val")).2 =
    ["log/plots/loss.jpg"; "log/plots/mAP.jpg"] ∧
  NoDup (fig_file <$> (plot_metrics train_plots 10 "log/plots" false
                                    (Some val_plots) (Some "train")
                                    (Some "val")).2).
Proof.
  destruct (plot_metrics_one_file_per_key train_plots 10 "log/plots" false
              (Some val_plots) (Some "train") (Some "val"))
    as (_ & Hfiles & Hnodup).
  - apply (bool_decide_unpack _). vm_compute. exact I.
  - split; [|exact Hnodup]. rewrite Hfiles. reflexivity.
Defined.

(** X14 on the five-epoch run: the checkpoint of epoch 2, which the
    periodic save wrote, is resumed from, at epoch 3. *)
Lemma written_checkpoints_resumable_witness :
  ∃ p s' l2 w2,
    main (C:=toy) short_args short_args 0 toy_loader toy_loader toy_loader
         toy_learner empty_world = Ok (p, s') ∧
    resume (C:=toy) resume2_args other_learner (r_io s') =
      Ok (set_start_epoch (2 + 1) resume2_args, l2, w2) ∧
    fs w2 = fs (r_io s').
Proof.
  destruct (main_returns (C:=toy) short_args short_args 0 toy_loader toy_loader
              toy_loader toy_learner empty_world short_args toy_learner
              empty_world eq_refl) as (p & s' & Hmain).
  { repeat split; discriminate. }
  assert (match main (C:=toy) short_args short_args 0 toy_loader toy_loader
                     toy_loader toy_learner empty_world with
          | Ok (_, s) =>
              match fs (r_io s) !! ckpt_path short_args (EpochNum 2) with
              | Some _ => true
              | None => false
              end
          | Raise _ _ => false
          end = true) as Hsome by (vm_compute; reflexivity).
  rewrite Hmain in Hsome.
  destruct (fs (r_io s') !! ckpt_path short_args (EpochNum 2)) as [f|] eqn:Hf;
    [|discriminate Hsome].
  destruct (written_checkpoints_resumable (C:=toy) short_args short_args 0
              toy_loader toy_loader toy_loader toy_learner empty_world
              short_args toy_learner empty_world p s' 2 f resume2_args
              other_learner eq_refl eq_refl Hmain Hf)
    as (_ & x & l2 & w2 & _ & Hresume & Hfs).
  - discriminate.
  - reflexivity.
  - exists p, s', l2, w2. split; [exact Hmain|]. split; [exact Hresume|exact Hfs].
Defined.
